(** * Orders-MS: the order lifecycle of [orders.service.ts]

    A shallow embedding of [OrdersService] (the revision of
    [src/orders/orders.service.ts] that takes [deliveryFee] and
    [useLoyaltyPoints] and puts [totalAmount] and [customerId] in
    [order_delivered]) together with the Prisma schema it runs against,
    and the properties of the order state machine, of payment confirmation,
    of courier assignment and of PIN verification.

    Modelling choices, all visible in the definitions below:
    - an amount (a price, a fee, a total) is a JavaScript [number], an
      IEEE 754 binary64 value with its zeros, infinities and NaN: the
      [spec_float] of the Standard Library, whose [SFmul] and [SFadd] are
      [*] and [+], rounding to the nearest double, ties to even ([Number]);
    - the result of [Math.random()], a double in [0, 1), is the rational it
      denotes ([Q]), and the arithmetic of [generatePin] rounds its exact
      results in the same way ([Binary64]);
    - [quantity] and [deliveryTime] are Prisma [Int]s ([Z]);
    - the three Prisma collections are fields of [World]; [emitted] is what
      went through [this.client.emit], [logged] what went through
      [this.LOGGER];
    - an [async] method is a function from the world to a completion
      ([Return] or [Throw]) and the world it leaves behind;
    - the values the environment chooses (the ObjectId of [@default(auto())],
      the clock of [@default(now())], the result of [Math.random()]) are the
      fields of [Env];
    - the auto-generated [id] of an [OrderItem] row is not represented: no
      method of the service reads it. *)

From stdpp Require Import base numbers strings list gmap fin_maps sorting.
From Stdlib Require Import Ascii QArith Qround Qpower DecimalString SpecFloat.

Local Open Scope string_scope.

(** ** JavaScript numbers *)

(** A [number]: a double, one of the two zeros, of the two infinities, or
    NaN. *)
Module Number.
Definition t : Set := spec_float.

(** The literal [0] *)
Definition zero : t := S754_zero false.

(** An integer as a [number]: itself up to [2^53], the nearest double
    after that. *)
Definition of_Z (z : Z) : t := binary_normalize 53 1024 z 0 false.

(** [x * y] and [x + y] *)
Definition mul (x y : t) : t := SFmul 53 1024 x y.
Definition add (x y : t) : t := SFadd 53 1024 x y.

(** [Number.MAX_SAFE_INTEGER] *)
Definition MAX_SAFE_INTEGER : Z := 2 ^ 53 - 1.

(** [x] is a natural number up to [MAX_SAFE_INTEGER]. *)
Definition natural (x : t) : Prop :=
  ∃ n : Z, (0 ≤ n ≤ MAX_SAFE_INTEGER)%Z ∧ x = of_Z n.

(** [x] is the double of the integer [a], with a mantissa of 53 bits. *)
Definition normalised (x : t) (a : Z) : Prop :=
  ∃ m, x = S754_finite false m (Z.log2 a - 52)
       ∧ Z.pos m = (a * 2 ^ (52 - Z.log2 a))%Z.
End Number.

Arguments Number.of_Z : simpl never.
Arguments Number.mul : simpl never.
Arguments Number.add : simpl never.

(** ** The Prisma schema *)

Inductive OrderStatus : Set :=
  | PENDING
  | CONFIRMED
  | PREPARING
  | READY_FOR_DELIVERY
  | OUT_FOR_DELIVERY
  | DELIVERED
  | CANCELLED
  | FAILED.

#[global] Instance OrderStatus_eq_dec : EqDecision OrderStatus.
Proof. solve_decision. Defined.

(** The string a status is in JavaScript (Prisma enums are string enums). *)
Definition OrderStatus_toString (s : OrderStatus) : string :=
  match s with
  | PENDING => "PENDING"
  | CONFIRMED => "CONFIRMED"
  | PREPARING => "PREPARING"
  | READY_FOR_DELIVERY => "READY_FOR_DELIVERY"
  | OUT_FOR_DELIVERY => "OUT_FOR_DELIVERY"
  | DELIVERED => "DELIVERED"
  | CANCELLED => "CANCELLED"
  | FAILED => "FAILED"
  end.

(** [enum/order-status.enum.ts] *)
Definition OrderStatusList : list OrderStatus :=
  [PENDING; CONFIRMED; PREPARING; READY_FOR_DELIVERY; OUT_FOR_DELIVERY;
   DELIVERED; CANCELLED; FAILED].

(** [model Order], scalar fields. *)
Module Order.
Record t : Type := mk {
  id : string;
  date : Z;
  totalAmount : Number.t;
  status : OrderStatus;
  deliveryTime : Z;
  paid : bool;
  stripeChargeId : option string;
  restaurantId : string;
  restaurantName : string;
  customerId : string;
  pin_code : string;
  courierId : string
}.

Definition set_status (s : OrderStatus) (o : t) : t :=
  mk (id o) (date o) (totalAmount o) s (deliveryTime o) (paid o)
     (stripeChargeId o) (restaurantId o) (restaurantName o) (customerId o)
     (pin_code o) (courierId o).

Definition set_paid (b : bool) (o : t) : t :=
  mk (id o) (date o) (totalAmount o) (status o) (deliveryTime o) b
     (stripeChargeId o) (restaurantId o) (restaurantName o) (customerId o)
     (pin_code o) (courierId o).

Definition set_stripeChargeId (c : option string) (o : t) : t :=
  mk (id o) (date o) (totalAmount o) (status o) (deliveryTime o) (paid o)
     c (restaurantId o) (restaurantName o) (customerId o)
     (pin_code o) (courierId o).

Definition set_pin_code (p : string) (o : t) : t :=
  mk (id o) (date o) (totalAmount o) (status o) (deliveryTime o) (paid o)
     (stripeChargeId o) (restaurantId o) (restaurantName o) (customerId o)
     p (courierId o).

Definition set_courierId (c : string) (o : t) : t :=
  mk (id o) (date o) (totalAmount o) (status o) (deliveryTime o) (paid o)
     (stripeChargeId o) (restaurantId o) (restaurantName o) (customerId o)
     (pin_code o) c.
End Order.

(** [OrderItem] of [../types], the shape of an item in a request. *)
Module OrderItem.
Record t : Type := mk {
  dishId : string;
  name : string;
  quantity : Z;
  price : Number.t
}.
End OrderItem.

(** [model OrderItem]: the item and the order it belongs to. *)
Module OrderItemRow.
Record t : Type := mk {
  dishId : string;
  name : string;
  quantity : Z;
  price : Number.t;
  orderId : string
}.
End OrderItemRow.

(** [model OrderReceipt]; [orderId] is [@unique]. *)
Module OrderReceipt.
Record t : Type := mk {
  id : string;
  orderId : string;
  receiptUrl : string;
  createdAt : Z;
  updatedAt : Z
}.
End OrderReceipt.

(** ** Data transfer objects *)

Module CreateOrderDto.
Record t : Type := mk {
  customerId : string;
  restaurantId : string;
  restaurantName : string;
  items : list OrderItem.t;
  deliveryFee : Number.t;
  useLoyaltyPoints : bool
}.
End CreateOrderDto.

Module PaidOrderDto.
Record t : Type := mk {
  stripePaymentId : string;
  orderId : string;
  receiptUrl : string
}.
End PaidOrderDto.

(** [page] and [limit] are [@IsPositive()], and Prisma takes them as [Int]s
    for [skip] and [take]. *)
Module PaginationDto.
Record t : Type := mk {
  page : positive;
  limit : positive;
  search : string
}.

(** The initialisers of the class: [page = 1], [limit = 7], [search = ''] *)
Definition default : t := mk 1 7 "".
End PaginationDto.

(** What the listings return: [{ data, meta: { total, page, lastPage } }]. *)
Module Paginated.
Record t (A : Type) : Type := mk {
  data : list A;
  total : nat;
  page : positive;
  lastPage : Z
}.
Arguments mk {A} data total page lastPage.
Arguments data {A} t.
Arguments total {A} t.
Arguments page {A} t.
Arguments lastPage {A} t.
End Paginated.

(** The [type] argument of [findRestaurantOrders]. *)
Inductive ListingType : Set := pending | completed.

(** ** Effects: events, log lines, exceptions *)

(** An order as [include: { items: true }] returns it. *)
Definition OrderWithItems : Type := Order.t * list OrderItemRow.t.

(** The payloads of [this.client.emit], one constructor per event name. *)
Inductive Event : Type :=
  | order_created (createOrderDto : CreateOrderDto.t) (orderId : string)
  | order_status_updated (orderId restaurantId : string)
      (newStatus : OrderStatus)
  | order_ready_for_delivery (orderId restaurantId restaurantName
      customerId : string) (items : list OrderItemRow.t)
  | order_paid (paidOrder : OrderWithItems)
  | courier_assigned (order : Order.t) (courierId pin : string)
  | order_delivered (orderId courierId restaurantId : string)
      (totalAmount : Number.t) (customerId : string).

Definition is_order_created (e : Event) : bool :=
  match e with order_created _ _ => true | _ => false end.

Inductive LogLevel : Set := LOG | ERROR.

Inductive LogArg : Type :=
  | ArgId (id : string)
  | ArgOrderId (orderId : string)
  | ArgPaidOrderDto (paidOrderDto : PaidOrderDto.t).

Record LogEntry : Type := mkLog {
  level : LogLevel;
  message : string;
  arg : LogArg
}.

Module HttpStatus.
Definition NOT_FOUND : Z := 404.
End HttpStatus.

(** What the Prisma client rejects with: no record matches [where]
    ("record to update not found"), or the write would put a second record
    where the schema allows one (an [@id] or [@unique] field already taken,
    a one-to-one relation already filled). *)
Inductive PrismaError : Set :=
  | RecordNotFound
  | UniqueConstraintViolation.

Inductive Exception : Type :=
  | RpcException (message : string) (status : Z)
  | PrismaClientKnownRequestError (e : PrismaError)
  | TypeError.

(** ** The world and the monad of [async] methods *)

Record World : Type := mkWorld {
  order : gmap string Order.t;
  orderItem : list OrderItemRow.t;
  orderReceipt : list OrderReceipt.t;
  emitted : list Event;
  logged : list LogEntry
}.

Definition initial : World := mkWorld ∅ [] [] [] [].

Record Env : Type := mkEnv {
  auto_id : string;
  now : Z;
  random : Q
}.

Inductive Completion (A : Type) : Type :=
  | Return (a : A)
  | Throw (e : Exception).
Arguments Return {A} a.
Arguments Throw {A} e.

Definition Async (A : Type) : Type := World → Completion A * World.

#[global] Instance Async_ret : MRet Async := λ A a w, (Return a, w).

#[global] Instance Async_bind : MBind Async := λ A B k m w,
  match m w with
  | (Return a, w') => k a w'
  | (Throw e, w') => (Throw e, w')
  end.

Definition throw {A : Type} (e : Exception) : Async A := λ w, (Throw e, w).

Definition client_emit (e : Event) : Async unit := λ w,
  (Return (),
   mkWorld (order w) (orderItem w) (orderReceipt w) (emitted w ++ [e])
     (logged w)).

Definition LOGGER (l : LogLevel) (msg : string) (a : LogArg) : Async unit :=
  λ w,
  (Return (),
   mkWorld (order w) (orderItem w) (orderReceipt w) (emitted w)
     (logged w ++ [mkLog l msg a])).

(** ** The Prisma client, as far as the service calls it

    Each call is one atomic operation of the datastore: it either applies
    as a whole or rejects and leaves the collections as they were. *)
Module Prisma.

(** The [OrderItem] rows that [include: { items: true }] joins in. *)
Definition items_of (w : World) (orderId : string) : list OrderItemRow.t :=
  filter (λ r, OrderItemRow.orderId r = orderId) (orderItem w).

Definition receipts_of (w : World) (orderId : string)
  : list OrderReceipt.t :=
  filter (λ r, OrderReceipt.orderId r = orderId) (orderReceipt w).

Definition include_items (o : Order.t) : Async OrderWithItems := λ w,
  (Return (o, items_of w (Order.id o)), w).

(** [this.order.findUnique({ where: { id } })]: [null] when nothing is
    stored under [id]. *)
Definition order_findUnique (id : string) : Async (option Order.t) := λ w,
  (Return (order w !! id), w).

(** The scalar fields [createOrder] supplies; the schema's [@default]s
    fill in the others. *)
Record OrderCreateInput : Type := mkInput {
  customerId : string;
  restaurantId : string;
  restaurantName : string;
  totalAmount : Number.t
}.

Definition new_order (env : Env) (data : OrderCreateInput) : Order.t :=
  Order.mk (auto_id env) (now env) (totalAmount data) PENDING 20 false None
    (restaurantId data) (restaurantName data) (customerId data) "" "".

Definition new_item (orderId : string) (item : OrderItem.t)
  : OrderItemRow.t :=
  OrderItemRow.mk (OrderItem.dishId item) (OrderItem.name item)
    (OrderItem.quantity item) (OrderItem.price item) orderId.

(** [this.order.create({ data: { ..., items: { create: [...] } } })]. The
    [_id] index is unique: a key already present is refused. The record
    keeps the [totalAmount] it is given, whatever double that is. *)
Definition order_create (env : Env) (data : OrderCreateInput)
    (items : list OrderItem.t) : Async Order.t := λ w,
  match order w !! auto_id env with
  | Some _ =>
      (Throw (PrismaClientKnownRequestError UniqueConstraintViolation), w)
  | None =>
      let o := new_order env data in
      (Return o,
       mkWorld (<[auto_id env := o]> (order w))
         (orderItem w ++ map (new_item (auto_id env)) items)
         (orderReceipt w) (emitted w) (logged w))
  end.

(** [this.order.update({ where: { id }, data })]: rejects when no record
    matches [where]. *)
Definition order_update (id : string) (data : Order.t → Order.t)
  : Async Order.t := λ w,
  match order w !! id with
  | None => (Throw (PrismaClientKnownRequestError RecordNotFound), w)
  | Some o =>
      let o' := data o in
      (Return o',
       mkWorld (<[id := o']> (order w)) (orderItem w) (orderReceipt w)
         (emitted w) (logged w))
  end.

(** [update] with the nested write [OrderReceipt: { create: { receiptUrl } }].
    [OrderReceipt.orderId] is [@unique]: when the order already owns a
    receipt the nested create is refused and, the write being one
    transaction, the order is left as it was. *)
Definition order_update_create_OrderReceipt (env : Env) (id : string)
    (data : Order.t → Order.t) (receiptUrl : string) : Async Order.t := λ w,
  match order w !! id with
  | None => (Throw (PrismaClientKnownRequestError RecordNotFound), w)
  | Some o =>
      match receipts_of w id with
      | _ :: _ =>
          (Throw (PrismaClientKnownRequestError UniqueConstraintViolation),
           w)
      | [] =>
          let o' := data o in
          let r := OrderReceipt.mk (auto_id env) id receiptUrl (now env)
                     (now env) in
          (Return o',
           mkWorld (<[id := o']> (order w)) (orderItem w)
             (orderReceipt w ++ [r]) (emitted w) (logged w))
      end
  end.

(** *** Queries *)

(** [status: s], [status: { in: l }], [status: { notIn: l }] *)
Inductive StatusFilter : Set :=
  | status_equals (s : OrderStatus)
  | status_in (l : list OrderStatus)
  | status_notIn (l : list OrderStatus).

(** A [where] object. A field that is absent or [undefined] ([None]) puts
    no condition on the record. *)
Record OrderWhereInput : Type := mkWhere {
  where_id_in : option (list string);
  where_restaurantId : option string;
  where_customerId : option string;
  where_courierId : option string;
  where_status : option StatusFilter
}.

Definition status_matches (f : StatusFilter) (s : OrderStatus) : bool :=
  match f with
  | status_equals s' => bool_decide (s = s')
  | status_in l => bool_decide (s ∈ l)
  | status_notIn l => negb (bool_decide (s ∈ l))
  end.

Definition field_matches {A : Type} (test : A → bool) (f : option A)
  : bool :=
  match f with
  | None => true
  | Some x => test x
  end.

Definition matches (wh : OrderWhereInput) (o : Order.t) : bool :=
  field_matches (λ ids, bool_decide (Order.id o ∈ ids)) (where_id_in wh)
  && field_matches (λ r, bool_decide (Order.restaurantId o = r))
       (where_restaurantId wh)
  && field_matches (λ c, bool_decide (Order.customerId o = c))
       (where_customerId wh)
  && field_matches (λ c, bool_decide (Order.courierId o = c))
       (where_courierId wh)
  && field_matches (λ f, status_matches f (Order.status o)) (where_status wh).

(** The records of the collection as the datastore goes through them. A
    query that asks for no order gets them in this one, which nothing in
    the service relies on. *)
Definition order_scan (w : World) : list Order.t :=
  (map_to_list (order w)).*2.

(** [orderBy: { date: 'desc' }] *)
Definition newer_first (a b : Order.t) : Prop :=
  (Order.date b ≤ Order.date a)%Z.

#[global] Instance newer_first_dec (a b : Order.t)
  : Decision (newer_first a b).
Proof. unfold newer_first. apply _. Defined.

#[global] Instance newer_first_total : Total newer_first.
Proof. intros a b. unfold newer_first. lia. Qed.

#[global] Instance newer_first_trans : Transitive newer_first.
Proof. intros a b c. unfold newer_first. lia. Qed.

(** [this.order.findMany({ where, orderBy?, skip?, take? })]. Orders of
    the same [date] come in the order of the scan, the same one in every
    query on the same records. *)
Definition order_findMany (wh : OrderWhereInput) (orderBy_date_desc : bool)
    (skip : nat) (take_ : option nat) : Async (list Order.t) := λ w,
  let found := List.filter (matches wh) (order_scan w) in
  let ordered :=
    if orderBy_date_desc then merge_sort newer_first found else found in
  let skipped := drop skip ordered in
  (Return (match take_ with
           | Some n => take n skipped
           | None => skipped
           end), w).

(** [this.order.count({ where })] *)
Definition order_count (wh : OrderWhereInput) : Async nat := λ w,
  (Return (length (List.filter (matches wh) (order_scan w))), w).

(** [include: { items: { select: { dishId, name, quantity, price } } }] *)
Definition select_item (r : OrderItemRow.t) : OrderItem.t :=
  OrderItem.mk (OrderItemRow.dishId r) (OrderItemRow.name r)
    (OrderItemRow.quantity r) (OrderItemRow.price r).

Definition include_selected_items (o : Order.t)
  : Async (Order.t * list OrderItem.t) := λ w,
  (Return (o, map select_item (items_of w (Order.id o))), w).

End Prisma.

(** ** JavaScript built-ins used by the service *)

(** IEEE 754 binary64 on the non-negative reals below the overflow
    threshold. A finite double is a multiple of [2^-1074] with a mantissa
    below [2^53]. *)
Module Binary64.

(** The number of least subnormals, [2^-1074], in one. *)
Definition scale : Z := 2 ^ 1074.

(** The nearest integer, a tie going to the even one. *)
Definition rne (x : Q) : Z :=
  let f := Qfloor x in
  match (x - inject_Z f ?= 1 # 2)%Q with
  | Lt => f
  | Gt => (f + 1)%Z
  | Eq => if Z.even f then f else (f + 1)%Z
  end.

(** Rounding of [0 <= x]: with [u] the value of [x] in least subnormals,
    the spacing of the doubles around [u] is [2^s], where [s] is zero up to
    [2^53] and grows by one with each binade after that. *)
Definition round_pos (x : Q) : Q :=
  let u := (x * inject_Z scale)%Q in
  let s := Z.max 0 (Z.log2 (Qfloor u) - 52) in
  (inject_Z (rne (u / inject_Z (2 ^ s)) * 2 ^ s) / inject_Z scale)%Q.

Definition round (x : Q) : Q :=
  if Qlt_le_dec x 0 then (- round_pos (- x))%Q else round_pos x.

(** [x * y] and [x + y] on doubles. *)
Definition fmul (x y : Q) : Q := round (x * y).
Definition fadd (x y : Q) : Q := round (x + y).

(** [x] is a non-negative finite double. *)
Definition nonneg_finite (x : Q) : Prop :=
  ∃ m s : Z,
    (0 ≤ m < 2 ^ 53)%Z ∧ (0 ≤ s ≤ 2045)%Z
    ∧ (x == inject_Z (m * 2 ^ s) / inject_Z scale)%Q.

(** The largest double below one, [1 - 2^-53]. *)
Definition below_one : Q := 9007199254740991 # 9007199254740992.

(** The value of a finite [spec_float] of the Standard Library. *)
Definition SF2Q (f : spec_float) : Q :=
  match f with
  | S754_finite sign m e =>
      ((if sign then -1 else 1) * inject_Z (Z.pos m) * 2 ^ e)%Q
  | _ => 0
  end.

End Binary64.

(** [Number.prototype.toString] on an integral value. *)
Definition Number_toString (n : Z) : string :=
  NilZero.string_of_int (Z.to_int n).

(** [Math.floor] *)
Definition Math_floor (x : Q) : Z := Qfloor x.

Definition isDigit (c : ascii) : bool :=
  (48 <=? nat_of_ascii c)%nat && (nat_of_ascii c <=? 57)%nat.

(** The regular expression [^\d{4}$]. *)
Definition matches_4_digits (s : string) : bool :=
  match s with
  | String a (String b (String c (String d EmptyString))) =>
      isDigit a && isDigit b && isDigit c && isDigit d
  | _ => false
  end.

(** [String.prototype.includes] *)
Definition String_includes (s searchString : string) : bool :=
  match String.index 0 searchString s with
  | Some _ => true
  | None => false
  end.

(** [Array.prototype.slice(start, end)] for [0 <= start <= end]. *)
Definition Array_slice {A : Type} (start end_ : nat) (l : list A) : list A :=
  take (end_ - start) (drop start l).

(** [Math.ceil] *)
Definition Math_ceil (x : Q) : Z := Qceiling x.

(** ** [OrdersService] *)
Module OrdersService.

(** The table of valid transitions, an object literal keyed by status. *)
Definition validTransitions : list (OrderStatus * list OrderStatus) :=
  [ (PENDING, [CONFIRMED; CANCELLED; FAILED]);
    (CONFIRMED, [PREPARING; CANCELLED]);
    (PREPARING, [READY_FOR_DELIVERY]);
    (READY_FOR_DELIVERY, [OUT_FOR_DELIVERY]);
    (OUT_FOR_DELIVERY, [DELIVERED; FAILED]);
    (DELIVERED, []);
    (CANCELLED, []);
    (FAILED, []) ].

(** [table[key]]: [undefined] for a key the object does not have. *)
Fixpoint property {V : Type} (table : list (OrderStatus * V))
    (key : OrderStatus) : option V :=
  match table with
  | [] => None
  | (k, v) :: rest => if decide (k = key) then Some v else property rest key
  end.

(** [Array.prototype.includes] *)
Definition includes (l : list OrderStatus) (x : OrderStatus) : bool :=
  existsb (λ y, bool_decide (y = x)) l.

Definition createOrder (env : Env) (createOrderDto : CreateOrderDto.t)
  : Async string :=
  let totalAmount :=
    fold_left
      (λ sum item,
         Number.add sum
           (Number.mul (OrderItem.price item)
              (Number.of_Z (OrderItem.quantity item))))
      (CreateOrderDto.items createOrderDto) Number.zero in
  let totalAmountWithDelivery :=
    if CreateOrderDto.useLoyaltyPoints createOrderDto
    then totalAmount
    else Number.add totalAmount (CreateOrderDto.deliveryFee createOrderDto) in
  order ← Prisma.order_create env
    (Prisma.mkInput (CreateOrderDto.customerId createOrderDto)
       (CreateOrderDto.restaurantId createOrderDto)
       (CreateOrderDto.restaurantName createOrderDto)
       totalAmountWithDelivery)
    (CreateOrderDto.items createOrderDto);
  client_emit (order_created createOrderDto (Order.id order));;
  mret (Order.id order).

Definition updateOrderStatus (orderId : string) (newStatus : OrderStatus)
  : Async OrderWithItems :=
  order ← Prisma.order_findUnique orderId;
  match order with
  | None => throw (RpcException "Order not found" HttpStatus.NOT_FOUND)
  | Some order =>
      let currentStatus := Order.status order in
      let allowedStatuses := property validTransitions currentStatus in
      if match allowedStatuses with
         | None => true
         | Some allowed => negb (includes allowed newStatus)
         end
      then
        throw (RpcException
                 ("Cannot transition from "
                  +:+ OrderStatus_toString currentStatus
                  +:+ " to " +:+ OrderStatus_toString newStatus)
                 HttpStatus.NOT_FOUND)
      else
        updatedOrder ← Prisma.order_update orderId
                          (Order.set_status newStatus)
                        ≫= Prisma.include_items;
        client_emit
          (order_status_updated (Order.id updatedOrder.1)
             (Order.restaurantId updatedOrder.1)
             (Order.status updatedOrder.1));;
        (if decide (Order.status updatedOrder.1 = READY_FOR_DELIVERY)
         then
           client_emit
             (order_ready_for_delivery (Order.id updatedOrder.1)
                (Order.restaurantId updatedOrder.1)
                (Order.restaurantName updatedOrder.1)
                (Order.customerId updatedOrder.1) updatedOrder.2)
         else mret ());;
        mret updatedOrder
  end.

Definition findOneOrder (id : string) : Async (option OrderWithItems) :=
  order ← Prisma.order_findUnique id;
  match order with
  | None => LOGGER ERROR "Order not found:" (ArgId id);; mret None
  | Some order =>
      order ← Prisma.include_items order;
      LOGGER LOG "Order found:" (ArgId (Order.id order.1));;
      mret (Some order)
  end.

Definition paidOrder (env : Env) (paidOrderDto : PaidOrderDto.t)
  : Async unit :=
  LOGGER LOG "Payment succeeded:" (ArgPaidOrderDto paidOrderDto);;
  findOneOrder (PaidOrderDto.orderId paidOrderDto);;
  LOGGER LOG "Order found:" (ArgOrderId (PaidOrderDto.orderId paidOrderDto));;
  paidOrder ← Prisma.order_update_create_OrderReceipt env
                 (PaidOrderDto.orderId paidOrderDto)
                 (λ o, Order.set_stripeChargeId
                         (Some (PaidOrderDto.stripePaymentId paidOrderDto))
                         (Order.set_paid true
                            (Order.set_status CONFIRMED o)))
                 (PaidOrderDto.receiptUrl paidOrderDto)
               ≫= Prisma.include_items;
  LOGGER LOG "Order paid:" (ArgOrderId (PaidOrderDto.orderId paidOrderDto));;
  client_emit (order_paid paidOrder).

Definition paymentSessionExpired (orderId : string) : Async Order.t :=
  LOGGER LOG "Payment session expired:" (ArgOrderId orderId);;
  findOneOrder orderId;;
  updatedOrder ← Prisma.order_update orderId (Order.set_status FAILED);
  mret updatedOrder.

Definition generatePin (random : Q) : string :=
  Number_toString
    (Math_floor (Binary64.fadd 1000 (Binary64.fmul random 9000))).

Definition courierAssigned (env : Env) (orderId courierId : string)
  : Async Order.t :=
  findOneOrder orderId;;
  let pin := generatePin (random env) in
  order ← Prisma.order_update orderId
             (λ o, Order.set_pin_code pin (Order.set_courierId courierId o));
  client_emit (courier_assigned order courierId pin);;
  mret order.

Definition verifyOrderPin (orderId pin : string) : Async bool :=
  order ← findOneOrder orderId;
  match order with
  | None => throw TypeError
  | Some order =>
      if decide (Order.pin_code order.1 = pin) then
        Prisma.order_update orderId (Order.set_status DELIVERED);;
        client_emit
          (order_delivered orderId (Order.courierId order.1)
             (Order.restaurantId order.1) (Order.totalAmount order.1)
             (Order.customerId order.1));;
        mret true
      else mret false
  end.

Definition removeOrder (id : string) : Async Order.t :=
  order ← findOneOrder id;
  match order with
  | None => throw (RpcException "Order not found" HttpStatus.NOT_FOUND)
  | Some order =>
      updatedOrder ← Prisma.order_update id (Order.set_status CANCELLED);
      client_emit
        (order_status_updated (Order.id updatedOrder)
           (Order.restaurantId order.1) (Order.status updatedOrder));;
      mret updatedOrder
  end.

(** *** The listings *)

(** [findMany] with [include: { items: { select: ... } }]. *)
Definition findMany_with_items (wh : Prisma.OrderWhereInput)
    (orderBy_date_desc : bool) (skip : nat) (take_ : option nat)
  : Async (list (Order.t * list OrderItem.t)) := λ w,
  match Prisma.order_findMany wh orderBy_date_desc skip take_ w with
  | (Return orders, w') =>
      (Return
         (map (λ o, (o, map Prisma.select_item
                          (Prisma.items_of w' (Order.id o)))) orders), w')
  | (Throw e, w') => (Throw e, w')
  end.

(** [Math.ceil(total / limit)] *)
Definition lastPage_of (total : nat) (limit : positive) : Z :=
  Math_ceil (inject_Z (Z.of_nat total) / inject_Z (Z.pos limit)).

Definition findRestaurantOrders (restaurantId : string)
    (paginationDto : PaginationDto.t) (type : ListingType)
  : Async (Paginated.t (Order.t * list OrderItem.t)) :=
  let page := PaginationDto.page paginationDto in
  let limit := PaginationDto.limit paginationDto in
  let search := PaginationDto.search paginationDto in
  let pendingStatuses :=
    [OUT_FOR_DELIVERY; DELIVERED; CANCELLED; FAILED; PENDING] in
  let completedStatuses :=
    [OUT_FOR_DELIVERY; DELIVERED; CANCELLED; FAILED] in
  let baseWhere :=
    Prisma.mkWhere None (Some restaurantId) None None
      (Some (match type with
             | pending => Prisma.status_notIn pendingStatuses
             | completed => Prisma.status_in completedStatuses
             end)) in
  if negb (String.eqb search "") then
    ordersWithSearch ← Prisma.order_findMany baseWhere true 0 (Some 1000%nat);
    let matching :=
      List.filter (λ o, String_includes (Order.id o) search)
        ordersWithSearch in
    let matchingIds :=
      map Order.id
        (Array_slice ((Pos.to_nat page - 1) * Pos.to_nat limit)
           (Pos.to_nat page * Pos.to_nat limit) matching) in
    if (length matchingIds =? 0)%nat then mret (Paginated.mk [] 0%nat page 1)
    else
      orders ← findMany_with_items
                  (Prisma.mkWhere (Some matchingIds) None None None None)
                  true 0 None;
      mret (Paginated.mk orders (length matching) page
              (lastPage_of (length matching) limit))
  else
    orders ← findMany_with_items baseWhere true
                ((Pos.to_nat page - 1) * Pos.to_nat limit)
                (Some (Pos.to_nat limit));
    totalOrders ← Prisma.order_count baseWhere;
    mret (Paginated.mk orders totalOrders page
            (lastPage_of totalOrders limit)).

Definition findAllPendingOrders (paginationDto : PaginationDto.t)
  : Async (Paginated.t Order.t) :=
  let page := PaginationDto.page paginationDto in
  let limit := PaginationDto.limit paginationDto in
  orders ← Prisma.order_findMany
              (Prisma.mkWhere None None None None
                 (Some (Prisma.status_equals READY_FOR_DELIVERY)))
              false ((Pos.to_nat page - 1) * Pos.to_nat limit)
              (Some (Pos.to_nat limit));
  totalPendingOrders ← Prisma.order_count
                          (Prisma.mkWhere None None None None
                             (Some (Prisma.status_equals READY_FOR_DELIVERY)));
  mret (Paginated.mk orders totalPendingOrders page
          (lastPage_of totalPendingOrders limit)).

Definition findAllCustomerOrders (customerId : string)
    (paginationDto : PaginationDto.t) : Async (Paginated.t Order.t) :=
  let page := PaginationDto.page paginationDto in
  let limit := PaginationDto.limit paginationDto in
  orders ← Prisma.order_findMany
              (Prisma.mkWhere None None (Some customerId) None None)
              true ((Pos.to_nat page - 1) * Pos.to_nat limit)
              (Some (Pos.to_nat limit));
  totalOrders ← Prisma.order_count
                   (Prisma.mkWhere None None (Some customerId) None None);
  mret (Paginated.mk orders totalOrders page (lastPage_of totalOrders limit)).

End OrdersService.

(** ** [OrdersController]: the message and event patterns that change the
    world. The listing and statistics patterns only read the collections
    and are left out. *)
Module OrdersController.

Inductive Message : Type :=
  | createOrder (createOrderDto : CreateOrderDto.t)
  | findOneOrder (id : string)
  | updateOrderStatus (orderId : string) (status : OrderStatus)
  | courierAssigned (orderId courierId : string)
  | verifyOrderPin (orderId pin : string)
  | removeOrder (id : string)
  | payment_succeeded (paidOrderDto : PaidOrderDto.t)
  | payment_session_abandoned (orderId : string)
  | payment_session_expired (orderId : string).

(** The world after the handler of [m] has run to completion, whether it
    returned or threw. *)
Definition handle (env : Env) (m : Message) (w : World) : World :=
  match m with
  | createOrder dto => (OrdersService.createOrder env dto w).2
  | findOneOrder id => (OrdersService.findOneOrder id w).2
  | updateOrderStatus orderId status =>
      (OrdersService.updateOrderStatus orderId status w).2
  | courierAssigned orderId courierId =>
      (OrdersService.courierAssigned env orderId courierId w).2
  | verifyOrderPin orderId pin =>
      (OrdersService.verifyOrderPin orderId pin w).2
  | removeOrder id => (OrdersService.removeOrder id w).2
  | payment_succeeded dto => (OrdersService.paidOrder env dto w).2
  | payment_session_abandoned orderId =>
      (OrdersService.paymentSessionExpired orderId w).2
  | payment_session_expired orderId =>
      (OrdersService.paymentSessionExpired orderId w).2
  end.

(** A history: the messages received, oldest first, each with what the
    environment chose while it was handled. *)
Definition run (history : list (Env * Message)) (w : World) : World :=
  fold_left (λ w em, handle em.1 em.2 w) history w.

(** What the handler of [m] throws, if it throws. *)
Definition thrown_by {A : Type} (c : Completion A) : option Exception :=
  match c with
  | Return _ => None
  | Throw e => Some e
  end.

Definition thrown (env : Env) (m : Message) (w : World) : option Exception :=
  match m with
  | createOrder dto => thrown_by (OrdersService.createOrder env dto w).1
  | findOneOrder id => thrown_by (OrdersService.findOneOrder id w).1
  | updateOrderStatus orderId status =>
      thrown_by (OrdersService.updateOrderStatus orderId status w).1
  | courierAssigned orderId courierId =>
      thrown_by (OrdersService.courierAssigned env orderId courierId w).1
  | verifyOrderPin orderId pin =>
      thrown_by (OrdersService.verifyOrderPin orderId pin w).1
  | removeOrder id => thrown_by (OrdersService.removeOrder id w).1
  | payment_succeeded dto => thrown_by (OrdersService.paidOrder env dto w).1
  | payment_session_abandoned orderId =>
      thrown_by (OrdersService.paymentSessionExpired orderId w).1
  | payment_session_expired orderId =>
      thrown_by (OrdersService.paymentSessionExpired orderId w).1
  end.

End OrdersController.

(** ** The state machine of the specification *)

(** The table of allowed edges, row by row. *)
Inductive edge : OrderStatus → OrderStatus → Prop :=
  | edge_pending_confirmed : edge PENDING CONFIRMED
  | edge_pending_cancelled : edge PENDING CANCELLED
  | edge_pending_failed : edge PENDING FAILED
  | edge_confirmed_preparing : edge CONFIRMED PREPARING
  | edge_confirmed_cancelled : edge CONFIRMED CANCELLED
  | edge_preparing_ready : edge PREPARING READY_FOR_DELIVERY
  | edge_ready_out : edge READY_FOR_DELIVERY OUT_FOR_DELIVERY
  | edge_out_delivered : edge OUT_FOR_DELIVERY DELIVERED
  | edge_out_failed : edge OUT_FOR_DELIVERY FAILED.

Definition terminal (s : OrderStatus) : Prop :=
  s = DELIVERED ∨ s = CANCELLED ∨ s = FAILED.

(** The error the specification calls [InvalidTransition]. *)
Definition InvalidTransition (currentStatus newStatus : OrderStatus)
  : Exception :=
  RpcException
    ("Cannot transition from " +:+ OrderStatus_toString currentStatus
     +:+ " to " +:+ OrderStatus_toString newStatus)
    HttpStatus.NOT_FOUND.

(** The error the specification calls [NotFound]. *)
Definition NotFound : Exception :=
  RpcException "Order not found" HttpStatus.NOT_FOUND.

(** The specification's [Σ(item.price × item.quantity)], the sum of the
    products of the numbers that the prices and the quantities are. *)
Fixpoint sum_of_subtotals (items : list OrderItem.t) : Q :=
  match items with
  | [] => 0
  | item :: rest =>
      Binary64.SF2Q (OrderItem.price item)
      * inject_Z (OrderItem.quantity item)
      + sum_of_subtotals rest
  end.

(** The specification's total: that sum, plus the fee unless loyalty points
    are used. *)
Definition exact_totalAmount (dto : CreateOrderDto.t) : Q :=
  if CreateOrderDto.useLoyaltyPoints dto
  then sum_of_subtotals (CreateOrderDto.items dto)
  else sum_of_subtotals (CreateOrderDto.items dto)
       + Binary64.SF2Q (CreateOrderDto.deliveryFee dto).

(** The same sum in the arithmetic of the code: the products are added one
    after the other to [sum], from the first item to the last, and every
    product and every sum is rounded to the nearest double. *)
Fixpoint running_total (sum : Number.t) (items : list OrderItem.t)
  : Number.t :=
  match items with
  | [] => sum
  | item :: rest =>
      running_total
        (Number.add sum
           (Number.mul (OrderItem.price item)
              (Number.of_Z (OrderItem.quantity item))))
        rest
  end.

(** Amounts in whole units: the prices and the fee are natural numbers, and
    so are the quantities, all up to [Number.MAX_SAFE_INTEGER]. *)
Definition whole_amounts (dto : CreateOrderDto.t) : Prop :=
  Forall
    (λ item,
       Number.natural (OrderItem.price item)
       ∧ (0 ≤ OrderItem.quantity item ≤ Number.MAX_SAFE_INTEGER)%Z)
    (CreateOrderDto.items dto)
  ∧ Number.natural (CreateOrderDto.deliveryFee dto).

(** The [totalAmount] of the order a call of [createOrder] stores. *)
Definition stored_totalAmount (env : Env) (dto : CreateOrderDto.t)
    (w : World) : option Number.t :=
  Order.totalAmount <$> order (OrdersService.createOrder env dto w).2
                          !! auto_id env.

(** [@IsArray() @ValidateNested({ each: true })] on [items]: the list is
    accepted when the validators of [OrderItemDto] (a file that is not part
    of the sources at hand, hence a parameter) accept each element. *)
Definition items_accepted (OrderItemDto_accepts : OrderItem.t → bool)
    (items : list OrderItem.t) : bool :=
  forallb OrderItemDto_accepts items.

(** At most one receipt per order. *)
Definition one_receipt_per_order (w : World) : Prop :=
  ∀ orderId, (length (Prisma.receipts_of w orderId) ≤ 1)%nat.

(** No [courierAssigned] message for [orderId] in the history. *)
Definition never_assigned (orderId : string)
    (history : list (Env * OrdersController.Message)) : Prop :=
  ∀ env courierId,
    (env, OrdersController.courierAssigned orderId courierId) ∉ history.

(** ** One message, one order *)

(** The ways the record stored under [id] moves while [m] is handled. *)
Inductive order_step (env : Env) (m : OrdersController.Message) (id : string)
  : option Order.t → option Order.t → Prop :=
  | step_unchanged (x : option Order.t) : order_step env m id x x
  | step_created (dto : CreateOrderDto.t) (data : Prisma.OrderCreateInput) :
      m = OrdersController.createOrder dto →
      id = auto_id env →
      order_step env m id None (Some (Prisma.new_order env data))
  | step_status (o : Order.t) (s : OrderStatus) :
      order_step env m id (Some o) (Some (Order.set_status s o))
  | step_paid (o : Order.t) (dto : PaidOrderDto.t) :
      m = OrdersController.payment_succeeded dto →
      id = PaidOrderDto.orderId dto →
      order_step env m id (Some o)
        (Some (Order.set_stripeChargeId
                 (Some (PaidOrderDto.stripePaymentId dto))
                 (Order.set_paid true (Order.set_status CONFIRMED o))))
  | step_courier (o : Order.t) (courierId : string) :
      m = OrdersController.courierAssigned id courierId →
      order_step env m id (Some o)
        (Some (Order.set_pin_code
                 (OrdersService.generatePin (random env))
                 (Order.set_courierId courierId o))).

(** A receipt is only ever held by a paid order. *)
Definition receipt_means_paid (w : World) : Prop :=
  ∀ orderId,
    Prisma.receipts_of w orderId ≠ [] →
    ∃ o, order w !! orderId = Some o
         ∧ Order.paid o = true
         ∧ is_Some (Order.stripeChargeId o).

Definition consistent (w : World) : Prop :=
  one_receipt_per_order w ∧ receipt_means_paid w.

(** ** The table as a graph *)

(** [validTransitions[from].includes(to)] *)
Definition allowed (from to : OrderStatus) : bool :=
  match OrdersService.property OrdersService.validTransitions from with
  | Some l => OrdersService.includes l to
  | None => false
  end.

(** How far a status is down the table. *)
Definition rank (s : OrderStatus) : nat :=
  match s with
  | PENDING => 0
  | CONFIRMED => 1
  | PREPARING => 2
  | READY_FOR_DELIVERY => 3
  | OUT_FOR_DELIVERY => 4
  | DELIVERED | CANCELLED | FAILED => 5
  end.

(** [updateOrderStatus] on one order towards each of [targets] in turn:
    the number of calls that returned. *)
Fixpoint updates_returned (orderId : string) (targets : list OrderStatus)
    (w : World) : nat :=
  match targets with
  | [] => 0
  | t :: rest =>
      let r := OrdersService.updateOrderStatus orderId t w in
      ((match r.1 with Return _ => 1 | Throw _ => 0 end)
       + updates_returned orderId rest r.2)%nat
  end.

(** ** Well-formed worlds *)

(** Every order is stored under its own id, and every item and receipt
    belongs to a stored order. *)
Definition well_formed (w : World) : Prop :=
  (∀ k o, order w !! k = Some o → Order.id o = k)
  ∧ (∀ r, r ∈ orderItem w → is_Some (order w !! OrderItemRow.orderId r))
  ∧ (∀ r, r ∈ orderReceipt w → is_Some (order w !! OrderReceipt.orderId r)).

(** Payment is recorded in three places at once: a paid order has a charge
    reference and one receipt, an order that is not paid has neither. *)
Definition payment_recorded (w : World) : Prop :=
  ∀ k o, order w !! k = Some o →
         if Order.paid o
         then is_Some (Order.stripeChargeId o)
              ∧ length (Prisma.receipts_of w k) = 1%nat
         else Order.stripeChargeId o = None ∧ Prisma.receipts_of w k = [].

(** The fields of an order that no method writes after creation. *)
Definition same_creation_data (o o' : Order.t) : Prop :=
  Order.id o' = Order.id o
  ∧ Order.date o' = Order.date o
  ∧ Order.totalAmount o' = Order.totalAmount o
  ∧ Order.deliveryTime o' = Order.deliveryTime o
  ∧ Order.restaurantId o' = Order.restaurantId o
  ∧ Order.restaurantName o' = Order.restaurantName o
  ∧ Order.customerId o' = Order.customerId o.

(** The random numbers of a history are doubles in [0, 1). *)
Definition randoms_in_range (history : list (Env * OrdersController.Message))
  : Prop :=
  ∀ env m, (env, m) ∈ history →
           Binary64.nonneg_finite (random env) ∧ (random env < 1)%Q.

(** The statuses an order only gets through [updateOrderStatus]. *)
Definition in_the_kitchen (s : OrderStatus) : Prop :=
  s = PREPARING ∨ s = READY_FOR_DELIVERY ∨ s = OUT_FOR_DELIVERY.

(** ** Paging through a listing *)

(** What [findMany] returns, before [skip] and [take]. *)
Definition found (wh : Prisma.OrderWhereInput) (orderBy_date_desc : bool)
    (w : World) : list Order.t :=
  if orderBy_date_desc
  then merge_sort Prisma.newer_first
         (List.filter (Prisma.matches wh) (Prisma.order_scan w))
  else List.filter (Prisma.matches wh) (Prisma.order_scan w).

(** [ordersWithSearch] of [findRestaurantOrders], and those of them whose
    id contains the search string. *)
Definition ordersWithSearch (restaurantId : string) (type : ListingType)
    (w : World) : list Order.t :=
  take 1000
    (found
       (Prisma.mkWhere None (Some restaurantId) None None
          (Some (match type with
                 | pending =>
                     Prisma.status_notIn
                       [OUT_FOR_DELIVERY; DELIVERED; CANCELLED; FAILED;
                        PENDING]
                 | completed =>
                     Prisma.status_in
                       [OUT_FOR_DELIVERY; DELIVERED; CANCELLED; FAILED]
                 end)))
       true w).

Definition search_matches (restaurantId search : string)
    (type : ListingType) (w : World) : list Order.t :=
  List.filter (λ o, String_includes (Order.id o) search)
    (ordersWithSearch restaurantId type w).

(** The statuses each listing of [findRestaurantOrders] shows. *)
Definition listed (type : ListingType) : list OrderStatus :=
  match type with
  | pending => [CONFIRMED; PREPARING; READY_FOR_DELIVERY]
  | completed => [OUT_FOR_DELIVERY; DELIVERED; CANCELLED; FAILED]
  end.

(** The [data] of a listing that returned. *)
Definition data_of {A : Type} (r : Completion (Paginated.t A) * World)
  : list A :=
  match r.1 with
  | Return page => Paginated.data page
  | Throw _ => []
  end.

(** The page numbers from 1 to [lastPage]. *)
Definition pages_up_to (lastPage : Z) : list positive :=
  map Pos.of_nat (seq 1 (Z.to_nat lastPage)).

(** What a client collects that asks [findAllCustomerOrders] for page 1,
    reads [lastPage] there, and then asks for every page up to it. *)
Definition all_customer_orders (customerId : string) (limit : positive)
    (w : World) : list Order.t :=
  match (OrdersService.findAllCustomerOrders customerId
           (PaginationDto.mk 1 limit "") w).1 with
  | Return first =>
      concat
        (map (λ p, data_of (OrdersService.findAllCustomerOrders customerId
                              (PaginationDto.mk p limit "") w))
           (pages_up_to (Paginated.lastPage first)))
  | Throw _ => []
  end.

(** ** Sample data for the worked examples *)

Definition sample_id : string := "65f1c0a2b3d4e5f601020304".

Definition sample_env : Env := mkEnv sample_id 1700000000 (1 # 2).

(** A stored order in status [s], with the given PIN and courier. *)
Definition sample_order (s : OrderStatus) (pin courier : string) : Order.t :=
  Order.mk sample_id 1700000000 (Number.of_Z 28) s 20 false None "r-1"
    "Trattoria" "c-1" pin courier.

(** A world that holds just the order [o]. *)
Definition world_of (o : Order.t) : World :=
  mkWorld {[ Order.id o := o ]} [] [] [] [].

(** The request of the specification's worked example. *)
Definition sample_dto (useLoyaltyPoints : bool) : CreateOrderDto.t :=
  CreateOrderDto.mk "c-1" "r-1" "Trattoria"
    [OrderItem.mk "d-1" "pizza" 2 (Number.of_Z 10);
     OrderItem.mk "d-2" "cola" 1 (Number.of_Z 5)]
    (Number.of_Z 3) useLoyaltyPoints.

Definition empty_dto : CreateOrderDto.t :=
  CreateOrderDto.mk "c-1" "r-1" "Trattoria" [] (Number.of_Z 3) false.

(** Three dishes at [0.1], the double [0x1.999999999999ap-4], and no fee. *)
Definition tenths_dto : CreateOrderDto.t :=
  CreateOrderDto.mk "c-1" "r-1" "Trattoria"
    [OrderItem.mk "d-3" "mint" 3 (S754_finite false 7205759403792794 (-56))]
    Number.zero false.

(** Ten dishes at [1e308], the double [0x1.1ccf385ebc8ap+1023], and no
    fee. *)
Definition overflow_dto : CreateOrderDto.t :=
  CreateOrderDto.mk "c-1" "r-1" "Trattoria"
    [OrderItem.mk "d-4" "gold" 10 (S754_finite false 5010420900022432 971)]
    Number.zero false.

Definition sample_paid (charge : string) : PaidOrderDto.t :=
  PaidOrderDto.mk charge sample_id "https://pay.example/receipt".

(** A world with five orders of one restaurant, for the listings. *)
Definition listing_order (id : string) (date : Z) (s : OrderStatus)
    (customer courier : string) : Order.t :=
  Order.mk id date (Number.of_Z 28) s 20 false None "r-1" "Trattoria"
    customer "" courier.

Definition listing_world : World :=
  mkWorld
    (list_to_map
       [("65f1c0a2b3d4e5f6010203a1",
         listing_order "65f1c0a2b3d4e5f6010203a1" 5 CONFIRMED "c-1" "");
        ("65f1c0a2b3d4e5f6010203b2",
         listing_order "65f1c0a2b3d4e5f6010203b2" 9 PENDING "c-1" "");
        ("65f1c0a2b3d4e5f6010203c3",
         listing_order "65f1c0a2b3d4e5f6010203c3" 7 READY_FOR_DELIVERY "c-1"
           "k-1");
        ("65f1c0a2b3d4e5f6010203d4",
         listing_order "65f1c0a2b3d4e5f6010203d4" 8 DELIVERED "c-2" "k-1");
        ("65f1c0a2b3d4e5f6010203a5",
         listing_order "65f1c0a2b3d4e5f6010203a5" 6 PREPARING "c-2" "")])
    [] [] [] [].

(** ** Proof automation *)

(** Running an [async] method: unfold the monad and the Prisma calls. *)
Ltac run_async :=
  unfold OrdersService.updateOrderStatus, OrdersService.removeOrder,
    OrdersService.verifyOrderPin, OrdersService.courierAssigned,
    OrdersService.paidOrder, OrdersService.paymentSessionExpired,
    OrdersService.createOrder, OrdersService.findOneOrder,
    Prisma.order_findUnique, Prisma.order_update, Prisma.order_create,
    Prisma.order_update_create_OrderReceipt, Prisma.include_items,
    client_emit, LOGGER, throw, mbind, mret, Async_bind, Async_ret in *;
  cbn [fst snd order orderItem orderReceipt emitted logged] in *.

Ltac insert_cases id :=
  match goal with
  | |- context [<[?k := _]> _ !! id] =>
      destruct (decide (k = id)) as [<- | ?];
      [rewrite lookup_insert_eq | rewrite lookup_insert_ne by done]
  end.

(** * Properties *)

(** ** The transition table *)

(** [@IsEnum(OrderStatusList)] lets every status through. *)
Lemma OrderStatusList_complete (s : OrderStatus) : s ∈ OrderStatusList.
Proof. destruct s; unfold OrderStatusList; set_solver. Qed.

Lemma property_validTransitions (s : OrderStatus) :
  ∃ allowed, OrdersService.property OrdersService.validTransitions s
             = Some allowed
             ∧ ∀ t, OrdersService.includes allowed t = true ↔ edge s t.
Proof.
  destruct s; eexists; (split; [reflexivity |]);
    intros t; (split; [destruct t; (discriminate || constructor)
                      | inversion 1; reflexivity]).
Qed.

Lemma terminal_no_edge (s t : OrderStatus) : terminal s → ¬ edge s t.
Proof. intros [-> | [-> | ->]]; inversion 1. Qed.


(** ** Explicit status transitions *)

(** C1. On an existing order, [updateOrderStatus] towards a status that is
    not an allowed edge from the current one (in particular any status, when
    the current one is terminal) throws the invalid-transition exception,
    whose message holds the current and the requested status, and leaves the
    world as it was; towards an allowed edge it returns the order with the
    new status, which is then the stored one. *)
Theorem updateOrderStatus_follows_table (w : World) (orderId : string)
    (o : Order.t) (newStatus : OrderStatus) :
  order w !! orderId = Some o →
  (edge (Order.status o) newStatus →
     ∃ updatedOrder w',
       OrdersService.updateOrderStatus orderId newStatus w
       = (Return updatedOrder, w')
       ∧ updatedOrder.1 = Order.set_status newStatus o
       ∧ order w' = <[orderId := Order.set_status newStatus o]> (order w)
       ∧ Order.status <$> order w' !! orderId = Some newStatus)
  ∧ (¬ edge (Order.status o) newStatus →
     OrdersService.updateOrderStatus orderId newStatus w
     = (Throw (InvalidTransition (Order.status o) newStatus), w)
     ∧ InvalidTransition (Order.status o) newStatus
       = RpcException
           ("Cannot transition from " +:+ OrderStatus_toString (Order.status o)
            +:+ " to " +:+ OrderStatus_toString newStatus) 404)
  ∧ (terminal (Order.status o) →
     OrdersService.updateOrderStatus orderId newStatus w
     = (Throw (InvalidTransition (Order.status o) newStatus), w)).
Proof.
  intros Ho.
  destruct (property_validTransitions (Order.status o))
    as (allowed & Hallowed & Hincl).
  assert (Hfail : ¬ edge (Order.status o) newStatus →
            OrdersService.updateOrderStatus orderId newStatus w
            = (Throw (InvalidTransition (Order.status o) newStatus), w)).
  { intros Hne. run_async. rewrite Ho, Hallowed.
    destruct (OrdersService.includes allowed newStatus) eqn:E.
    - exfalso. apply Hne. by apply Hincl.
    - reflexivity. }
  split; [| split].
  - intros He. apply Hincl in He.
    run_async. rewrite Ho, Hallowed, He. cbn [negb].
    rewrite Ho. cbn [fst snd Order.status Order.set_status].
    destruct (decide (newStatus = READY_FOR_DELIVERY));
      (do 2 eexists; split; [reflexivity |]);
      cbn [fst snd order]; (split; [reflexivity |]);
      (split; [reflexivity |]); by rewrite lookup_insert_eq.
  - intros Hne. split; [by apply Hfail | reflexivity].
  - intros Hterm. apply Hfail. by apply terminal_no_edge.
Qed.

Lemma updateOrderStatus_follows_table_witness :
  order (world_of (sample_order PENDING "" "")) !! sample_id
  = Some (sample_order PENDING "" "")
  ∧ OrdersService.updateOrderStatus sample_id DELIVERED
      (world_of (sample_order PENDING "" ""))
    = (Throw (RpcException "Cannot transition from PENDING to DELIVERED" 404),
       world_of (sample_order PENDING "" "")).
Proof.
  split; [reflexivity |].
  destruct (updateOrderStatus_follows_table
              (world_of (sample_order PENDING "" "")) sample_id
              (sample_order PENDING "" "") DELIVERED eq_refl)
    as (_ & Hjump & _).
  apply Hjump. inversion 1.
Defined.

(** ** Cancellation *)

(** C5. [removeOrder] on an existing order, whatever its status (the
    transition table is not looked at: the statement holds for the terminal
    statuses as for the others), stores [CANCELLED] and emits one
    [order_status_updated]; on an id that is not stored it throws the
    not-found exception, changes no collection and emits nothing. *)
Theorem removeOrder_cancels_unconditionally (w : World) (id : string) :
  (∀ o, order w !! id = Some o →
     OrdersService.removeOrder id w
     = (Return (Order.set_status CANCELLED o),
        mkWorld (<[id := Order.set_status CANCELLED o]> (order w))
          (orderItem w) (orderReceipt w)
          (emitted w
           ++ [order_status_updated (Order.id o) (Order.restaurantId o)
                 CANCELLED])
          (logged w ++ [mkLog LOG "Order found:" (ArgId (Order.id o))])))
  ∧ (order w !! id = None →
     OrdersService.removeOrder id w
     = (Throw NotFound,
        mkWorld (order w) (orderItem w) (orderReceipt w) (emitted w)
          (logged w ++ [mkLog ERROR "Order not found:" (ArgId id)]))).
Proof.
  split.
  - intros o Ho. run_async. rewrite Ho. cbn [fst snd order]. by rewrite Ho.
  - intros Ho. run_async. by rewrite Ho.
Qed.

Lemma removeOrder_cancels_unconditionally_witness :
  order (world_of (sample_order DELIVERED "4821" "k-1")) !! sample_id
  = Some (sample_order DELIVERED "4821" "k-1")
  ∧ Order.status
      <$> order (OrdersService.removeOrder sample_id
                   (world_of (sample_order DELIVERED "4821" "k-1"))).2
          !! sample_id
    = Some CANCELLED
  ∧ order initial !! sample_id = None
  ∧ (OrdersService.removeOrder sample_id initial).1 = Throw NotFound.
Proof.
  split; [reflexivity |].
  destruct (removeOrder_cancels_unconditionally
              (world_of (sample_order DELIVERED "4821" "k-1")) sample_id)
    as [Hsome _].
  destruct (removeOrder_cancels_unconditionally initial sample_id)
    as [_ Hnone].
  split; [| split; [reflexivity |]].
  - rewrite (Hsome _ eq_refl). reflexivity.
  - rewrite (Hnone eq_refl). reflexivity.
Defined.

(** ** Delivery confirmation by PIN *)

(** C6. On an existing order, [verifyOrderPin] with a PIN equal to the
    stored [pin_code] stores [DELIVERED], emits one [order_delivered] with
    the order id, the courier id, the restaurant id, the total amount and
    the customer id, and returns [true]; with any other PIN it returns
    [false], changes no collection and emits nothing. *)
Theorem verifyOrderPin_delivers_on_match (w : World) (orderId pin : string)
    (o : Order.t) :
  order w !! orderId = Some o →
  (Order.pin_code o = pin →
     OrdersService.verifyOrderPin orderId pin w
     = (Return true,
        mkWorld (<[orderId := Order.set_status DELIVERED o]> (order w))
          (orderItem w) (orderReceipt w)
          (emitted w
           ++ [order_delivered orderId (Order.courierId o)
                 (Order.restaurantId o) (Order.totalAmount o)
                 (Order.customerId o)])
          (logged w ++ [mkLog LOG "Order found:" (ArgId (Order.id o))])))
  ∧ (Order.pin_code o ≠ pin →
     OrdersService.verifyOrderPin orderId pin w
     = (Return false,
        mkWorld (order w) (orderItem w) (orderReceipt w) (emitted w)
          (logged w ++ [mkLog LOG "Order found:" (ArgId (Order.id o))]))).
Proof.
  intros Ho. split; intros Hpin; run_async; rewrite Ho;
    cbn [fst snd order]; destruct (decide _); try done.
  cbn [fst snd order]. by rewrite Ho.
Qed.

Lemma verifyOrderPin_delivers_on_match_witness :
  order (world_of (sample_order OUT_FOR_DELIVERY "4821" "k-1")) !! sample_id
  = Some (sample_order OUT_FOR_DELIVERY "4821" "k-1")
  ∧ (OrdersService.verifyOrderPin sample_id "4821"
       (world_of (sample_order OUT_FOR_DELIVERY "4821" "k-1"))).1
    = Return true
  ∧ OrdersService.verifyOrderPin sample_id "1284"
      (world_of (sample_order OUT_FOR_DELIVERY "4821" "k-1"))
    = (Return false,
       mkWorld {[ sample_id := sample_order OUT_FOR_DELIVERY "4821" "k-1" ]}
         [] [] [] [mkLog LOG "Order found:" (ArgId sample_id)]).
Proof.
  split; [reflexivity |].
  destruct (verifyOrderPin_delivers_on_match
              (world_of (sample_order OUT_FOR_DELIVERY "4821" "k-1"))
              sample_id "4821" _ eq_refl) as [Hmatch _].
  destruct (verifyOrderPin_delivers_on_match
              (world_of (sample_order OUT_FOR_DELIVERY "4821" "k-1"))
              sample_id "1284" _ eq_refl) as [_ Hmiss].
  split.
  - rewrite (Hmatch eq_refl). reflexivity.
  - rewrite Hmiss; [reflexivity | discriminate].
Defined.

(** ** Binary64 on the natural numbers *)

Lemma digits2_pos_log2 (p : positive) :
  Z.pos (digits2_pos p) = (Z.log2 (Z.pos p) + 1)%Z.
Proof.
  induction p as [p IH | p IH |]; cbn [digits2_pos]; [| | done].
  - rewrite Pos2Z.inj_succ, IH.
    rewrite Pos2Z.inj_xI, Z.log2_succ_double by lia. lia.
  - rewrite Pos2Z.inj_succ, IH.
    rewrite Pos2Z.inj_xO, Z.log2_double by lia. lia.
Qed.

Lemma iter_pos_nat {A : Type} (f : A → A) (p : positive) (x : A) :
  iter_pos f p x = Nat.iter (Pos.to_nat p) f x.
Proof.
  revert x. induction p as [p IH | p IH |]; intros x; cbn [iter_pos].
  - rewrite !IH, Pos2Nat.inj_xI.
    replace (S (2 * Pos.to_nat p))
      with (Pos.to_nat p + Pos.to_nat p + 1)%nat by lia.
    by rewrite !Nat.iter_add.
  - rewrite !IH, Pos2Nat.inj_xO.
    replace (2 * Pos.to_nat p)%nat
      with (Pos.to_nat p + Pos.to_nat p)%nat by lia.
    by rewrite Nat.iter_add.
  - done.
Qed.

Lemma shr_1_even (m : Z) :
  (0 < m)%Z →
  shr_1 (Build_shr_record (2 * m) false false) = Build_shr_record m false false.
Proof. intros Hm. destruct m as [| p | p]; try lia. done. Qed.

Lemma iter_shr_1_exact (n : nat) (m : Z) :
  (0 < m)%Z →
  Nat.iter n shr_1 (Build_shr_record (m * 2 ^ Z.of_nat n) false false)
  = Build_shr_record m false false.
Proof.
  intros Hm. revert m Hm. induction n as [| n IH]; intros m Hm.
  - cbn. f_equal. lia.
  - rewrite Nat.iter_succ_r.
    replace (m * 2 ^ Z.of_nat (S n))%Z with (2 * (m * 2 ^ Z.of_nat n))%Z.
    + rewrite shr_1_even by lia. by apply IH.
    + rewrite Nat2Z.inj_succ, Z.pow_succ_r by lia. lia.
Qed.

(** Shifting out zeros loses nothing. *)
Lemma shr_exact (m' : positive) (e n : Z) :
  (0 ≤ n)%Z →
  shr (Build_shr_record (Z.pos m' * 2 ^ n) false false) e n
  = (Build_shr_record (Z.pos m') false false, (e + n)%Z).
Proof.
  intros Hn. destruct n as [| p | p]; [| | lia].
  - cbn [shr]. by rewrite Z.pow_0_r, Z.mul_1_r, Z.add_0_r.
  - cbn [shr]. rewrite iter_pos_nat. f_equal.
    rewrite <- (positive_nat_Z p). by apply iter_shr_1_exact.
Qed.

(** A mantissa of 53 bits followed by zeros is rounded to those 53 bits:
    the operation is exact. *)
Lemma binary_round_aux_exact (s : bool) (m m' : positive) (e n : Z) :
  (0 ≤ n)%Z →
  Z.pos m = (Z.pos m' * 2 ^ n)%Z →
  Z.log2 (Z.pos m') = 52%Z →
  (-1074 ≤ e + n ≤ 971)%Z →
  binary_round_aux 53 1024 s (Z.pos m) e loc_Exact
  = S754_finite s m' (e + n).
Proof.
  intros Hn Hm Hlog He.
  assert (Hlogm : Z.log2 (Z.pos m) = (52 + n)%Z).
  { rewrite Hm, Z.log2_mul_pow2 by lia. lia. }
  unfold binary_round_aux, shr_fexp.
  cbn [Zdigits2 shr_record_of_loc].
  rewrite digits2_pos_log2, Hlogm.
  replace (fexp 53 1024 (52 + n + 1 + e) - e)%Z with n
    by (unfold fexp, emin; lia).
  rewrite Hm, shr_exact by done.
  cbn [shr_m loc_of_shr_record round_nearest_even Zdigits2].
  rewrite digits2_pos_log2, Hlog.
  replace (fexp 53 1024 (52 + 1 + (e + n)) - (e + n))%Z with 0%Z
    by (unfold fexp, emin; lia).
  cbn [shr shr_m].
  destruct (Z.leb_spec (e + n) (1024 - 53)) as [_ | Hgt]; [done | lia].
Qed.

Lemma normalised_unique (x y : Number.t) (a : Z) :
  Number.normalised x a → Number.normalised y a → x = y.
Proof.
  intros (m & -> & Hm) (m' & -> & Hm'). f_equal.
  apply Pos2Z.inj. by rewrite Hm, Hm'.
Qed.

Lemma log2_below_53 (a : Z) : (1 ≤ a < 2 ^ 53)%Z → (0 ≤ Z.log2 a ≤ 52)%Z.
Proof.
  intros Ha. split; [apply Z.log2_nonneg |].
  assert (Z.log2 a < 53)%Z; [| lia]. apply Z.log2_lt_pow2; lia.
Qed.

Lemma shl_align_left (mx : positive) (ex ex' : Z) :
  (ex' ≤ ex)%Z →
  ∃ m, (shl_align mx ex ex').1 = m
       ∧ Z.pos m = (Z.pos mx * 2 ^ (ex - ex'))%Z
       ∧ (shl_align mx ex ex').2 = ex'.
Proof.
  intros Hle. unfold shl_align.
  destruct (ex' - ex)%Z as [| d | d] eqn:Hd; [| lia |].
  - exists mx. replace (ex - ex')%Z with 0%Z by lia. cbn [fst snd].
    repeat split; lia.
  - exists (Pos.iter xO mx d). cbn [fst snd]. repeat split.
    change (Pos.iter xO mx d) with (shift_pos d mx).
    rewrite shift_pos_correct, Z.pow_pos_fold.
    replace (ex - ex')%Z with (Z.pos d) by lia. lia.
Qed.

Lemma shl_align_right (mx : positive) (ex ex' : Z) :
  (ex ≤ ex')%Z → shl_align mx ex ex' = (mx, ex).
Proof.
  intros Hle. unfold shl_align.
  destruct (ex' - ex)%Z as [| d | d] eqn:Hd; [done | done | lia].
Qed.

(** A positive integer below [2^53] is a double. *)
Lemma of_Z_normalised (a : Z) :
  (1 ≤ a < 2 ^ 53)%Z → Number.normalised (Number.of_Z a) a.
Proof.
  intros Ha. destruct (log2_below_53 a Ha) as [Hl0 Hl52].
  destruct a as [| p | p]; [lia | | lia].
  unfold Number.of_Z, binary_normalize, binary_round.
  rewrite digits2_pos_log2.
  replace (fexp 53 1024 (Z.log2 (Z.pos p) + 1 + 0))
    with (Z.log2 (Z.pos p) - 52)%Z by (unfold fexp, emin; lia).
  destruct (shl_align_left p 0 (Z.log2 (Z.pos p) - 52)) as (m & H1 & Hm & H2);
    [lia |].
  destruct (shl_align p 0 (Z.log2 (Z.pos p) - 52)) as [mz ez].
  cbn [fst snd] in H1, H2. subst mz ez.
  exists m. split; [| rewrite Hm; f_equal; f_equal; lia].
  rewrite (binary_round_aux_exact false m m (Z.log2 (Z.pos p) - 52) 0).
  - f_equal. lia.
  - done.
  - lia.
  - rewrite Hm, Z.log2_mul_pow2 by lia. lia.
  - lia.
Qed.

Lemma normalised_mantissa (a : Z) (k : Z) :
  (1 ≤ a)%Z → (0 ≤ k)%Z → ∃ m : positive, Z.pos m = (a * 2 ^ k)%Z.
Proof.
  intros Ha Hk. exists (Z.to_pos (a * 2 ^ k)). rewrite Z2Pos.id; [done |].
  apply Z.mul_pos_pos; [lia |]. by apply Z.pow_pos_nonneg.
Qed.

Lemma mul_normalised (x y : Number.t) (a b : Z) :
  Number.normalised x a → Number.normalised y b →
  (1 ≤ a)%Z → (1 ≤ b)%Z → (a * b < 2 ^ 53)%Z →
  Number.normalised (Number.mul x y) (a * b).
Proof.
  intros (mx & -> & Hmx) (my & -> & Hmy) Ha Hb Hab.
  assert (Ha53 : (a < 2 ^ 53)%Z) by nia.
  assert (Hb53 : (b < 2 ^ 53)%Z) by nia.
  destruct (log2_below_53 a) as [Hla0 Hla]; [lia |].
  destruct (log2_below_53 b) as [Hlb0 Hlb]; [lia |].
  destruct (log2_below_53 (a * b)) as [Hl0 Hl]; [nia |].
  assert (Hbelow : (Z.log2 a + Z.log2 b ≤ Z.log2 (a * b))%Z)
    by (apply Z.log2_mul_below; lia).
  destruct (normalised_mantissa (a * b) (52 - Z.log2 (a * b))) as [m Hm];
    [nia | lia |].
  exists m. split; [| done].
  unfold Number.mul, SFmul. cbn [xorb].
  rewrite (binary_round_aux_exact false (mx * my) m _
             (52 + Z.log2 (a * b) - Z.log2 a - Z.log2 b)).
  - f_equal. lia.
  - lia.
  - rewrite Pos2Z.inj_mul, Hmx, Hmy, Hm.
    replace (52 - Z.log2 a)%Z
      with (52 - Z.log2 (a * b)
            + (Z.log2 (a * b) - Z.log2 a - Z.log2 b + Z.log2 b))%Z by lia.
    replace (52 + Z.log2 (a * b) - Z.log2 a - Z.log2 b)%Z
      with (Z.log2 (a * b) - Z.log2 a - Z.log2 b + Z.log2 b
            + (52 - Z.log2 b))%Z by lia.
    rewrite !Z.pow_add_r by lia. ring.
  - rewrite Hm, Z.log2_mul_pow2 by (try lia; nia). lia.
  - lia.
Qed.

Lemma add_normalised (x y : Number.t) (a b : Z) :
  Number.normalised x a → Number.normalised y b →
  (1 ≤ a)%Z → (1 ≤ b)%Z → (a + b < 2 ^ 53)%Z →
  Number.normalised (Number.add x y) (a + b).
Proof.
  intros (mx & -> & Hmx) (my & -> & Hmy) Ha Hb Hab.
  destruct (log2_below_53 a) as [Hla0 Hla]; [lia |].
  destruct (log2_below_53 b) as [Hlb0 Hlb]; [lia |].
  destruct (log2_below_53 (a + b)) as [Hl0 Hl]; [lia |].
  assert (Hmono_a : (Z.log2 a ≤ Z.log2 (a + b))%Z)
    by (apply Z.log2_le_mono; lia).
  assert (Hmono_b : (Z.log2 b ≤ Z.log2 (a + b))%Z)
    by (apply Z.log2_le_mono; lia).
  set (ez := Z.min (Z.log2 a - 52) (Z.log2 b - 52)).
  destruct (normalised_mantissa (a + b) (52 - Z.log2 (a + b))) as [m Hm];
    [lia | lia |].
  exists m. split; [| done].
  unfold Number.add, SFadd. fold ez. cbn [cond_Zopp].
  destruct (shl_align_left mx (Z.log2 a - 52) ez) as (m1 & -> & Hm1 & _);
    [lia |].
  destruct (shl_align_left my (Z.log2 b - 52) ez) as (m2 & -> & Hm2 & _);
    [lia |].
  assert (Hsum : Z.pos (m1 + m2) = ((a + b) * 2 ^ (- ez))%Z).
  { rewrite Pos2Z.inj_add, Hm1, Hmx, Hm2, Hmy.
    rewrite <- !Z.mul_assoc, <- !Z.pow_add_r by lia.
    replace (52 - Z.log2 a + (Z.log2 a - 52 - ez))%Z with (- ez)%Z by lia.
    replace (52 - Z.log2 b + (Z.log2 b - 52 - ez))%Z with (- ez)%Z by lia.
    ring. }
  change (Z.pos m1 + Z.pos m2)%Z with (Z.pos (m1 + m2)).
  unfold binary_normalize, binary_round.
  rewrite digits2_pos_log2, Hsum, Z.log2_mul_pow2 by lia.
  rewrite shl_align_right by (unfold fexp, emin; lia).
  rewrite (binary_round_aux_exact false (m1 + m2) m ez
             (Z.log2 (a + b) - 52 - ez)).
  - f_equal. lia.
  - lia.
  - rewrite Hsum, Hm, <- Z.mul_assoc, <- Z.pow_add_r by lia.
    do 2 f_equal. lia.
  - rewrite Hm, Z.log2_mul_pow2 by lia. lia.
  - lia.
Qed.

(** On the natural numbers, a product and a sum that stay below [2^53] are
    not rounded. *)
Lemma mul_of_Z (a b : Z) :
  (0 ≤ a < 2 ^ 53)%Z → (0 ≤ b < 2 ^ 53)%Z → (a * b < 2 ^ 53)%Z →
  Number.mul (Number.of_Z a) (Number.of_Z b) = Number.of_Z (a * b).
Proof.
  intros Ha Hb Hab.
  destruct (decide (a = 0%Z)) as [-> | Ha0].
  { destruct (decide (b = 0%Z)) as [-> | Hb0]; [done |].
    destruct (of_Z_normalised b) as (m & -> & _); [lia | done]. }
  destruct (decide (b = 0%Z)) as [-> | Hb0].
  { rewrite Z.mul_0_r.
    destruct (of_Z_normalised a) as (m & -> & _); [lia | done]. }
  apply (normalised_unique _ _ (a * b)).
  - apply mul_normalised; try lia; apply of_Z_normalised; lia.
  - apply of_Z_normalised. nia.
Qed.

Lemma add_of_Z (a b : Z) :
  (0 ≤ a)%Z → (0 ≤ b)%Z → (a + b < 2 ^ 53)%Z →
  Number.add (Number.of_Z a) (Number.of_Z b) = Number.of_Z (a + b).
Proof.
  intros Ha Hb Hab.
  destruct (decide (a = 0%Z)) as [-> | Ha0].
  { destruct (decide (b = 0%Z)) as [-> | Hb0]; [done |].
    destruct (of_Z_normalised b) as (m & Hm & _); [lia |].
    rewrite Z.add_0_l, Hm. done. }
  destruct (decide (b = 0%Z)) as [-> | Hb0].
  { rewrite Z.add_0_r.
    destruct (of_Z_normalised a) as (m & -> & _); [lia | done]. }
  apply (normalised_unique _ _ (a + b)).
  - apply add_normalised; try lia; apply of_Z_normalised; lia.
  - apply of_Z_normalised. lia.
Qed.

(** The number that the double of a natural number is. *)
Lemma SF2Q_of_Z (a : Z) :
  (0 ≤ a < 2 ^ 53)%Z → (Binary64.SF2Q (Number.of_Z a) == inject_Z a)%Q.
Proof.
  intros Ha. destruct (decide (a = 0%Z)) as [-> | Ha0]; [done |].
  destruct (log2_below_53 a) as [Hl0 Hl]; [lia |].
  destruct (of_Z_normalised a) as (m & -> & Hm); [lia |].
  cbn [Binary64.SF2Q]. rewrite Hm, inject_Z_mult, Zpower_Qpower by lia.
  replace (Z.log2 a - 52)%Z with (- (52 - Z.log2 a))%Z by lia.
  rewrite Qpower_opp.
  change (inject_Z 2) with 2%Q.
  field. by apply Qpower_not_0.
Qed.

(** [0 + x] is [x], but for the negative zero. *)
Lemma add_zero_l (x : Number.t) :
  Number.add Number.zero x
  = match x with S754_zero _ => Number.zero | _ => x end.
Proof. by destruct x as [[] | [] | |]. Qed.

(** ** Order creation *)

(** [reduce] from [sum] is the running total from [sum]. *)
Lemma reduce_running_total (items : list OrderItem.t) (sum : Number.t) :
  fold_left
    (λ sum item,
       Number.add sum
         (Number.mul (OrderItem.price item)
            (Number.of_Z (OrderItem.quantity item))))
    items sum
  = running_total sum items.
Proof.
  revert sum. induction items as [| item rest IH]; intros sum; [done |].
  cbn [fold_left running_total]. apply IH.
Qed.

(** In whole amounts the running total is exact as long as it stays a safe
    integer: it is the double of the sum of the subtotals. *)
Lemma running_total_whole (items : list OrderItem.t) :
  Forall
    (λ item,
       Number.natural (OrderItem.price item)
       ∧ (0 ≤ OrderItem.quantity item ≤ Number.MAX_SAFE_INTEGER)%Z)
    items →
  ∃ S : Z,
    (0 ≤ S)%Z
    ∧ (sum_of_subtotals items == inject_Z S)%Q
    ∧ ∀ A : Z,
        (0 ≤ A)%Z → (A + S ≤ Number.MAX_SAFE_INTEGER)%Z →
        running_total (Number.of_Z A) items = Number.of_Z (A + S).
Proof.
  unfold Number.natural, Number.MAX_SAFE_INTEGER.
  induction 1 as [| item rest [(p & Hp & Hprice) Hq] _ (S & HS0 & HS & IH)].
  - exists 0%Z. split; [lia |]. split; [done |].
    intros A _ _. cbn [running_total]. by rewrite Z.add_0_r.
  - exists (p * OrderItem.quantity item + S)%Z. split; [nia |]. split.
    + cbn [sum_of_subtotals].
      rewrite Hprice, SF2Q_of_Z, HS, inject_Z_plus, inject_Z_mult by lia.
      reflexivity.
    + intros A HA Hle. cbn [running_total].
      rewrite Hprice, mul_of_Z, add_of_Z, IH by nia.
      f_equal. lia.
Qed.

(** What [createOrder] does when the datastore hands out an id that is not
    in use: one order in, one event out, the id returned. *)
Lemma createOrder_fresh (env : Env) (dto : CreateOrderDto.t) (w : World) :
  order w !! auto_id env = None →
  ∃ o, OrdersService.createOrder env dto w
       = (Return (auto_id env),
          mkWorld (<[auto_id env := o]> (order w))
            (orderItem w
             ++ map (Prisma.new_item (auto_id env)) (CreateOrderDto.items dto))
            (orderReceipt w)
            (emitted w ++ [order_created dto (auto_id env)])
            (logged w))
       ∧ Order.status o = PENDING
       ∧ Order.paid o = false
       ∧ Order.pin_code o = ""
       ∧ Order.courierId o = ""
       ∧ Order.totalAmount o
         = if CreateOrderDto.useLoyaltyPoints dto
           then running_total Number.zero (CreateOrderDto.items dto)
           else Number.add
                  (running_total Number.zero (CreateOrderDto.items dto))
                  (CreateOrderDto.deliveryFee dto).
Proof.
  intros Hfresh. eexists. split.
  - run_async. rewrite Hfresh. reflexivity.
  - cbn. repeat (split; [reflexivity |]).
    by rewrite reduce_running_total.
Qed.

Lemma createOrder_stored_totalAmount (env : Env) (dto : CreateOrderDto.t)
    (w : World) (o : Order.t) (items : list OrderItemRow.t)
    (events : list Event) (log : list LogEntry) :
  OrdersService.createOrder env dto w
  = (Return (auto_id env),
     mkWorld (<[auto_id env := o]> (order w)) items (orderReceipt w) events
       log) →
  stored_totalAmount env dto w = Some (Order.totalAmount o).
Proof.
  intros Hrun. unfold stored_totalAmount. rewrite Hrun. cbn [snd order].
  by rewrite lookup_insert_eq.
Qed.

(** C8, as the specification words it, fails: the total that is stored is
    not always the sum of the prices times the quantities. For three dishes
    at [0.1] that sum is [10808639105689191 / 2^55], which is not a double;
    what is stored is [0.30000000000000004], the double next above it. *)
Lemma createOrder_totalAmount_not_the_sum :
  order initial !! auto_id sample_env = None
  ∧ ¬ (∃ total,
         stored_totalAmount sample_env tenths_dto initial = Some total
         ∧ (Binary64.SF2Q total == exact_totalAmount tenths_dto)%Q)
  ∧ stored_totalAmount sample_env tenths_dto initial
    = Some (S754_finite false 5404319552844596 (-54))
  ∧ (exact_totalAmount tenths_dto
     == 10808639105689191 / inject_Z (2 ^ 55))%Q
  ∧ (Binary64.SF2Q (S754_finite false 5404319552844596 (-54))
     == 10808639105689192 / inject_Z (2 ^ 55))%Q.
Proof.
  split; [reflexivity |]. split.
  { intros (total & Hstored & Htotal). vm_compute in Hstored.
    injection Hstored as <-. vm_compute in Htotal. discriminate Htotal. }
  repeat split; by vm_compute.
Qed.

(** Nor is the total always a number: for ten dishes at [1e308] the
    running total is [Infinity]. *)
Example running_total_overflows :
  running_total Number.zero (CreateOrderDto.items overflow_dto)
  = S754_infinity false.
Proof. by vm_compute. Qed.

(** C8, amended. The order [createOrder] stores has as [totalAmount] the
    running total of the items in the arithmetic of the code, binary64: the
    products of price and quantity added one after the other to 0, each
    product and each sum rounded to the nearest double; [deliveryFee] is
    added to it, and the sum rounded, when [useLoyaltyPoints] is false and
    it is left out when [useLoyaltyPoints] is true. When the amounts are in
    whole units and the specification's exact total is a safe integer,
    nothing is rounded and the stored total is that total. *)
Theorem createOrder_totalAmount (env : Env) (dto : CreateOrderDto.t)
    (w : World) :
  order w !! auto_id env = None →
  ∃ total,
    stored_totalAmount env dto w = Some total
    ∧ total
      = (if CreateOrderDto.useLoyaltyPoints dto
         then running_total Number.zero (CreateOrderDto.items dto)
         else Number.add
                (running_total Number.zero (CreateOrderDto.items dto))
                (CreateOrderDto.deliveryFee dto))
    ∧ (whole_amounts dto →
       (exact_totalAmount dto <= inject_Z Number.MAX_SAFE_INTEGER)%Q →
       Number.natural total
       ∧ (Binary64.SF2Q total == exact_totalAmount dto)%Q).
Proof.
  intros Hfresh.
  destruct (createOrder_fresh env dto w Hfresh)
    as (o & Hrun & _ & _ & _ & _ & Htotal).
  exists (Order.totalAmount o).
  split; [by eapply createOrder_stored_totalAmount |].
  split; [exact Htotal |].
  intros [Hitems (f & Hf & Hfee)] Hbound.
  destruct (running_total_whole _ Hitems) as (S & HS0 & HS & Hsum).
  rewrite Htotal. clear Htotal Hrun.
  unfold exact_totalAmount, Number.natural, Number.MAX_SAFE_INTEGER in *.
  change Number.zero with (Number.of_Z 0).
  destruct (CreateOrderDto.useLoyaltyPoints dto).
  - rewrite HS, <- Zle_Qle in Hbound.
    rewrite Hsum, Z.add_0_l by lia. split.
    + exists S. split; [lia | done].
    + by rewrite SF2Q_of_Z, HS by lia.
  - rewrite Hfee, SF2Q_of_Z, HS, <- inject_Z_plus, <- Zle_Qle in Hbound
      by lia.
    rewrite Hsum, Z.add_0_l, Hfee, add_of_Z by lia. split.
    + exists (S + f)%Z. split; [lia | done].
    + by rewrite !SF2Q_of_Z, HS, inject_Z_plus by lia.
Qed.

Lemma createOrder_totalAmount_witness :
  order initial !! auto_id sample_env = None
  ∧ whole_amounts (sample_dto false)
  ∧ (exact_totalAmount (sample_dto false)
     <= inject_Z Number.MAX_SAFE_INTEGER)%Q
  ∧ ∃ total,
      stored_totalAmount sample_env (sample_dto false) initial = Some total
      ∧ total
        = Number.add
            (Number.add
               (Number.add Number.zero
                  (Number.mul (Number.of_Z 10) (Number.of_Z 2)))
               (Number.mul (Number.of_Z 5) (Number.of_Z 1)))
            (Number.of_Z 3)
      ∧ (Binary64.SF2Q total == 10 * 2 + (5 * 1 + 0) + 3)%Q.
Proof.
  assert (Hwhole : whole_amounts (sample_dto false)).
  { split.
    - repeat constructor; try done; by eexists; split; [| reflexivity].
    - by eexists; split; [| reflexivity]. }
  assert (Hsafe : (exact_totalAmount (sample_dto false)
                   <= inject_Z Number.MAX_SAFE_INTEGER)%Q)
    by (by vm_compute).
  split; [reflexivity |]. split; [exact Hwhole |]. split; [exact Hsafe |].
  destruct (createOrder_totalAmount sample_env (sample_dto false) initial
              eq_refl) as (total & Hstored & Htotal & Hexact).
  exists total. split; [exact Hstored |]. split; [exact Htotal |].
  destruct (Hexact Hwhole Hsafe) as [_ Hsum].
  eapply Qeq_trans; [exact Hsum | by vm_compute].
Defined.

(** C2, as the specification words it, fails: on the items
    [[{price:10,qty:2},{price:5,qty:1}]] with [deliveryFee] 3 the stored
    total is not 25 when [useLoyaltyPoints] is false, and not 22 when it is
    true. *)
Lemma createOrder_sample_not_25_nor_22 :
  ¬ (∃ total,
       stored_totalAmount sample_env (sample_dto false) initial = Some total
       ∧ (Binary64.SF2Q total == 25)%Q)
  ∧ ¬ (∃ total,
         stored_totalAmount sample_env (sample_dto true) initial = Some total
         ∧ (Binary64.SF2Q total == 22)%Q).
Proof.
  split; intros (total & Hstored & Htotal);
    vm_compute in Hstored; injection Hstored as <-;
    vm_compute in Htotal; discriminate Htotal.
Qed.

(** C2, amended. On those items and that fee, the stored total is 28 when
    [useLoyaltyPoints] is false (the fee is added to the 25 of the items)
    and 25 when it is true (the fee is left out). *)
Theorem createOrder_sample_totals (env : Env) (w : World) :
  order w !! auto_id env = None →
  (∃ total, stored_totalAmount env (sample_dto false) w = Some total
            ∧ (Binary64.SF2Q total == 28)%Q)
  ∧ (∃ total, stored_totalAmount env (sample_dto true) w = Some total
              ∧ (Binary64.SF2Q total == 25)%Q).
Proof.
  intros Hfresh; split.
  - destruct (createOrder_fresh env (sample_dto false) w Hfresh)
      as (o & Hrun & _ & _ & _ & _ & Htotal).
    exists (Order.totalAmount o).
    split; [by eapply createOrder_stored_totalAmount |].
    rewrite Htotal. by vm_compute.
  - destruct (createOrder_fresh env (sample_dto true) w Hfresh)
      as (o & Hrun & _ & _ & _ & _ & Htotal).
    exists (Order.totalAmount o).
    split; [by eapply createOrder_stored_totalAmount |].
    rewrite Htotal. by vm_compute.
Qed.

Lemma createOrder_sample_totals_witness :
  order initial !! auto_id sample_env = None
  ∧ (∃ total,
       stored_totalAmount sample_env (sample_dto false) initial = Some total
       ∧ (Binary64.SF2Q total == 28)%Q)
  ∧ (∃ total,
       stored_totalAmount sample_env (sample_dto true) initial = Some total
       ∧ (Binary64.SF2Q total == 25)%Q).
Proof.
  split; [reflexivity |].
  exact (createOrder_sample_totals sample_env initial eq_refl).
Defined.

(** C9, as the specification words it, fails: the decorators on [items]
    accept the empty list whatever [OrderItemDto] demands of an item, and
    [createOrder] on a request without items stores an order and emits
    [order_created]. *)
Lemma createOrder_empty_items_creates :
  CreateOrderDto.items empty_dto = []
  ∧ items_accepted (λ _, false) (CreateOrderDto.items empty_dto) = true
  ∧ order initial !! sample_id = None
  ∧ order (OrdersService.createOrder sample_env empty_dto initial).2
      !! sample_id
    ≠ None
  ∧ existsb is_order_created
      (emitted (OrdersService.createOrder sample_env empty_dto initial).2)
    = true.
Proof.
  split; [reflexivity |]. split; [reflexivity |]. split; [reflexivity |].
  split; [| reflexivity]. intros Hnone. vm_compute in Hnone.
  discriminate Hnone.
Qed.

(** C9, amended. [createOrder] does not reject a request whose [items] is
    empty: the decorators on [items] accept it, an order in status
    [PENDING] is stored whose [totalAmount] is the [deliveryFee] (zero when
    [useLoyaltyPoints] is true, and zero for a fee that is the negative
    zero), one [order_created] is emitted and the new id is returned. *)
Theorem createOrder_empty_items (env : Env) (dto : CreateOrderDto.t)
    (w : World) (OrderItemDto_accepts : OrderItem.t → bool) :
  CreateOrderDto.items dto = [] →
  order w !! auto_id env = None →
  items_accepted OrderItemDto_accepts (CreateOrderDto.items dto) = true
  ∧ ∃ o,
      OrdersService.createOrder env dto w
      = (Return (auto_id env),
         mkWorld (<[auto_id env := o]> (order w)) (orderItem w)
           (orderReceipt w)
           (emitted w ++ [order_created dto (auto_id env)]) (logged w))
      ∧ Order.status o = PENDING
      ∧ Order.totalAmount o
        = if CreateOrderDto.useLoyaltyPoints dto then Number.zero
          else match CreateOrderDto.deliveryFee dto with
               | S754_zero _ => Number.zero
               | _ => CreateOrderDto.deliveryFee dto
               end.
Proof.
  intros Hitems Hfresh. split; [by rewrite Hitems |].
  destruct (createOrder_fresh env dto w Hfresh)
    as (o & Hrun & Hstatus & _ & _ & _ & Htotal).
  exists o. rewrite Hrun, Hitems. cbn [map]. rewrite app_nil_r.
  split; [reflexivity |]. split; [exact Hstatus |].
  rewrite Htotal, Hitems. cbn [running_total].
  destruct (CreateOrderDto.useLoyaltyPoints dto); [done |].
  apply add_zero_l.
Qed.

Lemma createOrder_empty_items_witness :
  CreateOrderDto.items empty_dto = []
  ∧ order initial !! auto_id sample_env = None
  ∧ (OrdersService.createOrder sample_env empty_dto initial).1
    = Return sample_id
  ∧ emitted (OrdersService.createOrder sample_env empty_dto initial).2
    = [order_created empty_dto sample_id].
Proof.
  split; [reflexivity |]. split; [reflexivity |].
  destruct (createOrder_empty_items sample_env empty_dto initial (λ _, true)
              eq_refl eq_refl) as (_ & o & Hrun & _).
  rewrite Hrun. split; reflexivity.
Defined.

(** ** Messages about an order that is not stored *)

(** C3, as the specification words it, fails: on an id that is not stored,
    neither [paidOrder] nor [courierAssigned] completes normally. *)
Lemma missing_order_rejects :
  order initial !! sample_id = None
  ∧ ¬ (∃ r, (OrdersService.paidOrder sample_env (sample_paid "ch_1")
               initial).1 = Return r)
  ∧ ¬ (∃ r, (OrdersService.courierAssigned sample_env sample_id "k-1"
               initial).1 = Return r).
Proof.
  split; [reflexivity |].
  split; intros (r & Hr); vm_compute in Hr; discriminate Hr.
Qed.

(** C3, amended. On an id that is not stored, [paidOrder] and
    [courierAssigned] each log the missing order and go on to the update,
    which the datastore rejects for want of a record: the call throws that
    rejection, no collection changes and nothing is emitted. *)
Theorem missing_order_logged_then_rejected (w : World) (env : Env)
    (paidOrderDto : PaidOrderDto.t) (orderId courierId : string) :
  order w !! PaidOrderDto.orderId paidOrderDto = None →
  order w !! orderId = None →
  OrdersService.paidOrder env paidOrderDto w
  = (Throw (PrismaClientKnownRequestError RecordNotFound),
     mkWorld (order w) (orderItem w) (orderReceipt w) (emitted w)
       (logged w
        ++ [mkLog LOG "Payment succeeded:" (ArgPaidOrderDto paidOrderDto)]
        ++ [mkLog ERROR "Order not found:"
              (ArgId (PaidOrderDto.orderId paidOrderDto))]
        ++ [mkLog LOG "Order found:"
              (ArgOrderId (PaidOrderDto.orderId paidOrderDto))]))
  ∧ OrdersService.courierAssigned env orderId courierId w
    = (Throw (PrismaClientKnownRequestError RecordNotFound),
       mkWorld (order w) (orderItem w) (orderReceipt w) (emitted w)
         (logged w ++ [mkLog ERROR "Order not found:" (ArgId orderId)])).
Proof.
  intros Hpaid Hcourier. split; run_async.
  - rewrite Hpaid. cbn [fst snd order]. rewrite Hpaid.
    cbn [order orderItem orderReceipt emitted logged].
    by rewrite <- !app_assoc.
  - rewrite Hcourier. cbn [fst snd order]. by rewrite Hcourier.
Qed.

Lemma missing_order_logged_then_rejected_witness :
  order initial !! PaidOrderDto.orderId (sample_paid "ch_1") = None
  ∧ order initial !! sample_id = None
  ∧ (OrdersService.paidOrder sample_env (sample_paid "ch_1") initial).1
    = Throw (PrismaClientKnownRequestError RecordNotFound)
  ∧ OrdersService.courierAssigned sample_env sample_id "k-1" initial
    = (Throw (PrismaClientKnownRequestError RecordNotFound),
       mkWorld ∅ [] [] [] [mkLog ERROR "Order not found:" (ArgId sample_id)]).
Proof.
  split; [reflexivity |]. split; [reflexivity |].
  destruct (missing_order_logged_then_rejected initial sample_env
              (sample_paid "ch_1") sample_id "k-1" eq_refl eq_refl)
    as [Hpaid Hcourier].
  rewrite Hpaid, Hcourier. split; reflexivity.
Defined.

(** ** What one message does to one order *)


Lemma handle_order_step (env : Env) (m : OrdersController.Message)
    (w : World) (id : string) :
  order_step env m id (order w !! id)
    (order (OrdersController.handle env m w) !! id).
Proof.
  destruct m; cbn [OrdersController.handle]; run_async;
    repeat (case_match; simplify_eq;
            cbn [fst snd order orderItem orderReceipt emitted logged] in * );
    try apply step_unchanged;
    insert_cases id; try apply step_unchanged;
    repeat match goal with
           | H : ?x = _ |- context [?x] => rewrite H
           end;
    econstructor; eauto.
Qed.

(** ** Receipts *)

(** The receipts move in one way only: [paidOrder] on a stored order that
    has none yet adds one. *)
Lemma handle_orderReceipt (env : Env) (m : OrdersController.Message)
    (w : World) :
  orderReceipt (OrdersController.handle env m w) = orderReceipt w
  ∨ ∃ dto o,
      m = OrdersController.payment_succeeded dto
      ∧ order w !! PaidOrderDto.orderId dto = Some o
      ∧ Prisma.receipts_of w (PaidOrderDto.orderId dto) = []
      ∧ orderReceipt (OrdersController.handle env m w)
        = (orderReceipt w
           ++ [OrderReceipt.mk (auto_id env) (PaidOrderDto.orderId dto)
                 (PaidOrderDto.receiptUrl dto) (now env) (now env)])%list
      ∧ order (OrdersController.handle env m w) !! PaidOrderDto.orderId dto
        = Some (Order.set_stripeChargeId
                  (Some (PaidOrderDto.stripePaymentId dto))
                  (Order.set_paid true (Order.set_status CONFIRMED o))).
Proof.
  destruct m; cbn [OrdersController.handle]; run_async;
    unfold Prisma.receipts_of in *;
    repeat (case_match; simplify_eq;
            cbn [fst snd order orderItem orderReceipt emitted logged] in * );
    auto.
  right. do 2 eexists. repeat split; eauto. by rewrite lookup_insert_eq.
Qed.

Lemma receipts_of_app (w : World) (r : OrderReceipt.t) (orderId : string) :
  filter (λ r, OrderReceipt.orderId r = orderId) (orderReceipt w ++ [r])%list
  = (Prisma.receipts_of w orderId
     ++ (if decide (OrderReceipt.orderId r = orderId) then [r] else []))%list.
Proof.
  unfold Prisma.receipts_of. rewrite filter_app. f_equal.
Qed.

Lemma handle_consistent (env : Env) (m : OrdersController.Message)
    (w : World) :
  consistent w → consistent (OrdersController.handle env m w).
Proof.
  intros [Hone Hpaid].
  destruct (handle_orderReceipt env m w)
    as [Hsame | (dto & o & -> & Ho & Hnone & Hadd & Hnew)].
  - split.
    + intros id. unfold Prisma.receipts_of. rewrite Hsame. apply Hone.
    + intros id Hid. unfold Prisma.receipts_of in Hid. rewrite Hsame in Hid.
      destruct (Hpaid id Hid) as (o & Ho & Hp & Hc).
      pose proof (handle_order_step env m w id) as Hstep.
      rewrite Ho in Hstep. inversion Hstep; subst; eauto.
  - pose proof (handle_order_step env
                  (OrdersController.payment_succeeded dto) w) as Hstep.
    split.
    + intros id. unfold Prisma.receipts_of at 1. rewrite Hadd, receipts_of_app.
      cbn [OrderReceipt.orderId]. destruct (decide _) as [<- | _].
      * by rewrite Hnone.
      * rewrite app_nil_r. apply Hone.
    + intros id. unfold Prisma.receipts_of at 1. rewrite Hadd, receipts_of_app.
      cbn [OrderReceipt.orderId]. specialize (Hstep id).
      destruct (decide _) as [<- | Hne].
      * intros _. eexists. split; [exact Hnew |].
        split; [reflexivity | by eexists].
      * rewrite app_nil_r. intros Hid.
        destruct (Hpaid id Hid) as (o' & Ho' & Hp & Hc).
        rewrite Ho' in Hstep. inversion Hstep; subst; eauto.
Qed.

Lemma run_consistent (history : list (Env * OrdersController.Message))
    (w : World) :
  consistent w → consistent (OrdersController.run history w).
Proof.
  revert w. induction history as [| [env m] rest IH]; intros w Hw; [done |].
  apply IH. by apply handle_consistent.
Qed.

Lemma initial_consistent : consistent initial.
Proof.
  split.
  - intros id. cbn. lia.
  - intros id Hid. by destruct Hid.
Qed.

(** [paidOrder] on a stored order that has no receipt yet. *)
Lemma paidOrder_first (env : Env) (dto : PaidOrderDto.t) (w : World)
    (o : Order.t) :
  order w !! PaidOrderDto.orderId dto = Some o →
  Prisma.receipts_of w (PaidOrderDto.orderId dto) = [] →
  let w' := (OrdersService.paidOrder env dto w).2 in
  (OrdersService.paidOrder env dto w).1 = Return ()
  ∧ order w'
    = <[PaidOrderDto.orderId dto :=
          Order.set_stripeChargeId (Some (PaidOrderDto.stripePaymentId dto))
            (Order.set_paid true (Order.set_status CONFIRMED o))]> (order w)
  ∧ orderReceipt w'
    = (orderReceipt w
       ++ [OrderReceipt.mk (auto_id env) (PaidOrderDto.orderId dto)
             (PaidOrderDto.receiptUrl dto) (now env) (now env)])%list.
Proof.
  intros Ho Hnone. unfold Prisma.receipts_of in Hnone. run_async.
  unfold Prisma.receipts_of. rewrite Ho.
  cbn [fst snd order orderItem orderReceipt emitted logged].
  rewrite Ho, Hnone. done.
Qed.

(** [paidOrder] on a stored order that already has a receipt: the nested
    create is refused and nothing is stored or emitted. *)
Lemma paidOrder_again (env : Env) (dto : PaidOrderDto.t) (w : World)
    (o : Order.t) :
  order w !! PaidOrderDto.orderId dto = Some o →
  Prisma.receipts_of w (PaidOrderDto.orderId dto) ≠ [] →
  let w' := (OrdersService.paidOrder env dto w).2 in
  (OrdersService.paidOrder env dto w).1
  = Throw (PrismaClientKnownRequestError UniqueConstraintViolation)
  ∧ order w' = order w
  ∧ orderReceipt w' = orderReceipt w
  ∧ emitted w' = emitted w.
Proof.
  intros Ho Hsome. unfold Prisma.receipts_of in Hsome. run_async.
  unfold Prisma.receipts_of. rewrite Ho.
  cbn [fst snd order orderItem orderReceipt emitted logged].
  rewrite Ho. destruct (filter _ _); done.
Qed.

(** C4. In every world the service can reach, no order has more than one
    receipt; and on a stored order, after two calls of [paidOrder] for it
    there is exactly one receipt of that order, the order is paid, and its
    [stripeChargeId] is the charge reference that was applied first (that
    of the first call when the order had no receipt before). *)
Theorem paidOrder_twice_one_receipt
    (history : list (Env * OrdersController.Message)) (env1 env2 : Env)
    (dto1 dto2 : PaidOrderDto.t) (o : Order.t) :
  let w := OrdersController.run history initial in
  let orderId := PaidOrderDto.orderId dto1 in
  let w2 := (OrdersService.paidOrder env2 dto2
               (OrdersService.paidOrder env1 dto1 w).2).2 in
  one_receipt_per_order w
  ∧ (order w !! orderId = Some o →
     PaidOrderDto.orderId dto2 = orderId →
     length (Prisma.receipts_of w2 orderId) = 1%nat
     ∧ one_receipt_per_order w2
     ∧ ∃ o2, order w2 !! orderId = Some o2
             ∧ Order.paid o2 = true
             ∧ is_Some (Order.stripeChargeId o2)
             ∧ Order.stripeChargeId o2
               = match Prisma.receipts_of w orderId with
                 | [] => Some (PaidOrderDto.stripePaymentId dto1)
                 | _ :: _ => Order.stripeChargeId o
                 end).
Proof.
  intros w orderId w2.
  pose proof (run_consistent history initial initial_consistent) as Hw.
  fold w in Hw. split; [apply Hw |]. intros Ho Hid.
  assert (Hw2 : consistent w2).
  { apply (handle_consistent env2 (OrdersController.payment_succeeded dto2)).
    apply (handle_consistent env1 (OrdersController.payment_succeeded dto1)).
    exact Hw. }
  split; [| split; [apply Hw2 |]].
  - destruct (Prisma.receipts_of w orderId) as [| r rest] eqn:Hr.
    + destruct (paidOrder_first env1 dto1 w o Ho Hr) as (_ & Ho1 & Hr1).
      destruct (paidOrder_again env2 dto2 (OrdersService.paidOrder env1 dto1 w).2
                  (Order.set_stripeChargeId
                     (Some (PaidOrderDto.stripePaymentId dto1))
                     (Order.set_paid true (Order.set_status CONFIRMED o))))
        as (_ & _ & Hr2 & _).
      * rewrite Hid, Ho1. apply lookup_insert_eq.
      * rewrite Hid. unfold Prisma.receipts_of. rewrite Hr1, receipts_of_app.
        fold orderId. rewrite Hr. cbn [OrderReceipt.orderId].
        by destruct (decide _).
      * unfold Prisma.receipts_of. fold w2 in Hr2. rewrite Hr2, Hr1.
        rewrite receipts_of_app. fold orderId. rewrite Hr.
        cbn [OrderReceipt.orderId]. by destruct (decide _).
    + destruct (paidOrder_again env1 dto1 w o Ho) as (_ & Ho1 & Hr1 & _).
      { fold orderId. by rewrite Hr. }
      destruct (paidOrder_again env2 dto2 (OrdersService.paidOrder env1 dto1 w).2 o)
        as (_ & _ & Hr2 & _).
      * by rewrite Hid, Ho1.
      * rewrite Hid. unfold Prisma.receipts_of. rewrite Hr1.
        fold (Prisma.receipts_of w orderId). by rewrite Hr.
      * destruct Hw as [Hone _]. specialize (Hone orderId).
        unfold Prisma.receipts_of. fold w2 in Hr2. rewrite Hr2, Hr1.
        fold (Prisma.receipts_of w orderId). rewrite Hr in Hone |- *.
        cbn [length] in *. lia.
  - destruct (Prisma.receipts_of w orderId) as [| r rest] eqn:Hr.
    + destruct (paidOrder_first env1 dto1 w o Ho Hr) as (_ & Ho1 & Hr1).
      destruct (paidOrder_again env2 dto2 (OrdersService.paidOrder env1 dto1 w).2
                  (Order.set_stripeChargeId
                     (Some (PaidOrderDto.stripePaymentId dto1))
                     (Order.set_paid true (Order.set_status CONFIRMED o))))
        as (_ & Ho2 & _).
      * rewrite Hid, Ho1. apply lookup_insert_eq.
      * rewrite Hid. unfold Prisma.receipts_of. rewrite Hr1, receipts_of_app.
        fold orderId. rewrite Hr. cbn [OrderReceipt.orderId].
        by destruct (decide _).
      * eexists. fold w2 in Ho2. rewrite Ho2, Ho1.
        split; [apply lookup_insert_eq |]. by repeat split.
    + destruct (paidOrder_again env1 dto1 w o Ho) as (_ & Ho1 & Hr1 & _).
      { fold orderId. by rewrite Hr. }
      destruct (paidOrder_again env2 dto2 (OrdersService.paidOrder env1 dto1 w).2 o)
        as (_ & Ho2 & _).
      * by rewrite Hid, Ho1.
      * rewrite Hid. unfold Prisma.receipts_of. rewrite Hr1.
        fold (Prisma.receipts_of w orderId). by rewrite Hr.
      * destruct Hw as [_ Hpaid]. destruct (Hpaid orderId) as (o' & Ho' & ? & ?).
        { by rewrite Hr. }
        assert (o' = o) as -> by congruence.
        exists o. fold w2 in Ho2. rewrite Ho2, Ho1. done.
Qed.

Lemma paidOrder_twice_one_receipt_witness :
  order (OrdersController.run
           [(sample_env, OrdersController.createOrder (sample_dto false))]
           initial) !! PaidOrderDto.orderId (sample_paid "ch_1")
  = Some (sample_order PENDING "" "")
  ∧ PaidOrderDto.orderId (sample_paid "ch_2")
    = PaidOrderDto.orderId (sample_paid "ch_1")
  ∧ ∃ o2,
      order (OrdersService.paidOrder sample_env (sample_paid "ch_2")
               (OrdersService.paidOrder sample_env (sample_paid "ch_1")
                  (OrdersController.run
                     [(sample_env,
                       OrdersController.createOrder (sample_dto false))]
                     initial)).2).2 !! sample_id
      = Some o2
      ∧ Order.paid o2 = true
      ∧ Order.stripeChargeId o2 = Some "ch_1".
Proof.
  split; [reflexivity |]. split; [reflexivity |].
  destruct (paidOrder_twice_one_receipt
              [(sample_env, OrdersController.createOrder (sample_dto false))]
              sample_env sample_env (sample_paid "ch_1") (sample_paid "ch_2")
              (sample_order PENDING "" "")) as [_ Htwice].
  destruct (Htwice eq_refl eq_refl) as (_ & _ & o2 & Ho2 & Hpaid & _ & Hcharge).
  exists o2. split; [exact Ho2 |]. split; [exact Hpaid |]. exact Hcharge.
Defined.

(** ** The PIN of an order no courier was assigned to *)

Lemma run_snoc (history : list (Env * OrdersController.Message))
    (env : Env) (m : OrdersController.Message) (w : World) :
  OrdersController.run (history ++ [(env, m)]) w
  = OrdersController.handle env m (OrdersController.run history w).
Proof. unfold OrdersController.run. by rewrite fold_left_app. Qed.

(** An order keeps the schema default of [pin_code] as long as no
    [courierAssigned] message names it. *)
Lemma pin_code_default (history : list (Env * OrdersController.Message))
    (orderId : string) (o : Order.t) :
  order (OrdersController.run history initial) !! orderId = Some o →
  never_assigned orderId history →
  Order.pin_code o = "".
Proof.
  revert o. induction history as [| [env m] history IH] using rev_ind;
    intros o Ho Hnever; [done |].
  rewrite run_snoc in Ho.
  assert (Hbefore : never_assigned orderId history).
  { intros env' c Hin. apply (Hnever env' c). apply elem_of_app. by left. }
  pose proof (handle_order_step env m
                (OrdersController.run history initial) orderId) as Hstep.
  rewrite Ho in Hstep. inversion Hstep; subst;
    try (eapply IH; eauto; fail); try reflexivity;
    try match goal with
        | H : Some ?o' = order _ !! _ |- _ =>
            symmetry in H; exact (IH _ H Hbefore)
        end.
  exfalso. apply (Hnever env courierId). apply elem_of_app. right.
  by apply list_elem_of_singleton.
Qed.

(** C7. An order that is stored and that no [courierAssigned] message ever
    named still has the empty [pin_code] of the schema, so [verifyOrderPin]
    with the empty string as PIN returns [true], stores [DELIVERED] whatever
    the status was, and emits [order_delivered]. *)
Theorem verifyOrderPin_empty_pin_delivers
    (history : list (Env * OrdersController.Message)) (orderId : string)
    (o : Order.t) :
  let w := OrdersController.run history initial in
  order w !! orderId = Some o →
  never_assigned orderId history →
  Order.pin_code o = ""
  ∧ OrdersService.verifyOrderPin orderId "" w
    = (Return true,
       mkWorld (<[orderId := Order.set_status DELIVERED o]> (order w))
         (orderItem w) (orderReceipt w)
         (emitted w
          ++ [order_delivered orderId (Order.courierId o)
                (Order.restaurantId o) (Order.totalAmount o)
                (Order.customerId o)])
         (logged w ++ [mkLog LOG "Order found:" (ArgId (Order.id o))])).
Proof.
  intros w Ho Hnever.
  pose proof (pin_code_default history orderId o Ho Hnever) as Hpin.
  split; [exact Hpin |].
  run_async. rewrite Ho. cbn [fst snd order]. rewrite Hpin.
  destruct (decide _); [| done]. cbn [fst snd order]. by rewrite Ho.
Qed.

Lemma verifyOrderPin_empty_pin_delivers_witness :
  order (OrdersController.run
           [(sample_env, OrdersController.createOrder (sample_dto false));
            (sample_env, OrdersController.removeOrder sample_id)]
           initial) !! sample_id
  = Some (sample_order CANCELLED "" "")
  ∧ never_assigned sample_id
      [(sample_env, OrdersController.createOrder (sample_dto false));
       (sample_env, OrdersController.removeOrder sample_id)]
  ∧ (OrdersService.verifyOrderPin sample_id ""
       (OrdersController.run
          [(sample_env, OrdersController.createOrder (sample_dto false));
           (sample_env, OrdersController.removeOrder sample_id)]
          initial)).1
    = Return true.
Proof.
  assert (Hnever : never_assigned sample_id
            [(sample_env, OrdersController.createOrder (sample_dto false));
             (sample_env, OrdersController.removeOrder sample_id)]).
  { intros env c Hin.
    apply elem_of_cons in Hin as [Hin | Hin]; [discriminate Hin |].
    apply elem_of_cons in Hin as [Hin | Hin]; [discriminate Hin |].
    by apply elem_of_nil in Hin. }
  split; [reflexivity |]. split; [exact Hnever |].
  destruct (verifyOrderPin_empty_pin_delivers
              [(sample_env, OrdersController.createOrder (sample_dto false));
               (sample_env, OrdersController.removeOrder sample_id)]
              sample_id (sample_order CANCELLED "" "") eq_refl Hnever)
    as [_ Hrun].
  rewrite Hrun. reflexivity.
Defined.

(** ** Rounding to binary64 *)

Lemma rne_bounds (x : Q) :
  (Qfloor x ≤ Binary64.rne x ≤ Qfloor x + 1)%Z.
Proof. unfold Binary64.rne. repeat case_match; lia. Qed.

Lemma rne_inject_Z (k : Z) : Binary64.rne (inject_Z k) = k.
Proof.
  unfold Binary64.rne. rewrite Qfloor_Z.
  assert (H : (inject_Z k - inject_Z k ?= 1 # 2)%Q = Lt).
  { rewrite <- Qlt_alt. unfold Qlt. cbn. lia. }
  by rewrite H.
Qed.

Lemma rne_mono (x y : Q) :
  (x <= y)%Q → (Binary64.rne x ≤ Binary64.rne y)%Z.
Proof.
  intros Hxy. pose proof (Qfloor_resp_le x y Hxy) as Hf.
  destruct (decide (Qfloor x = Qfloor y)) as [E | NE].
  - unfold Binary64.rne. rewrite <- E.
    destruct (x - inject_Z (Qfloor x) ?= 1 # 2)%Q eqn:Hx;
    destruct (y - inject_Z (Qfloor x) ?= 1 # 2)%Q eqn:Hy;
      try (destruct (Z.even (Qfloor x)); lia); try lia; exfalso.
    + rewrite <- Qeq_alt in Hx. rewrite <- Qlt_alt in Hy.
      apply (Qlt_irrefl (1 # 2)). rewrite <- Hx at 1.
      eapply Qle_lt_trans; [| exact Hy]. by apply Qplus_le_l.
    + rewrite <- Qgt_alt in Hx. rewrite <- Qeq_alt in Hy.
      apply (Qlt_irrefl (1 # 2)). rewrite <- Hy at 2.
      eapply Qlt_le_trans; [exact Hx |]. by apply Qplus_le_l.
    + rewrite <- Qgt_alt in Hx. rewrite <- Qlt_alt in Hy.
      apply (Qlt_irrefl (1 # 2)).
      eapply Qlt_trans; [exact Hx |].
      eapply Qle_lt_trans; [| exact Hy]. by apply Qplus_le_l.
  - pose proof (rne_bounds x). pose proof (rne_bounds y). lia.
Qed.

Lemma scale_pos : (0 < inject_Z Binary64.scale)%Q.
Proof.
  change (inject_Z 0 < inject_Z Binary64.scale)%Q. rewrite <- Zlt_Qlt.
  unfold Binary64.scale. apply Z.pow_pos_nonneg; lia.
Qed.

Lemma pow2_pos (s : Z) : (0 ≤ s)%Z → (0 < inject_Z (2 ^ s))%Q.
Proof.
  intros Hs. change (inject_Z 0 < inject_Z (2 ^ s))%Q. rewrite <- Zlt_Qlt.
  apply Z.pow_pos_nonneg; lia.
Qed.

(** Below [2^(s+53)] the rounded mantissa does not pass [2^53]. *)
Lemma rne_scaled_le (u : Q) (s : Z) :
  (0 ≤ s)%Z → (u <= inject_Z (2 ^ (s + 53)))%Q →
  (Binary64.rne (u / inject_Z (2 ^ s)) * 2 ^ s ≤ 2 ^ (s + 53))%Z.
Proof.
  intros Hs Hu. rewrite Z.pow_add_r, (Z.mul_comm (2 ^ s)) by lia.
  apply Z.mul_le_mono_nonneg_r; [apply Z.pow_nonneg; lia |].
  rewrite <- (rne_inject_Z (2 ^ 53)). apply rne_mono.
  apply Qle_shift_div_r; [by apply pow2_pos |].
  rewrite <- inject_Z_mult, Z.mul_comm, <- Z.pow_add_r by lia. exact Hu.
Qed.

(** From [2^(t+52)] on the rounded mantissa is at least [2^52]. *)
Lemma rne_scaled_ge (v : Q) (t : Z) :
  (0 ≤ t)%Z → (inject_Z (2 ^ (t + 52)) <= v)%Q →
  (2 ^ (t + 52) ≤ Binary64.rne (v / inject_Z (2 ^ t)) * 2 ^ t)%Z.
Proof.
  intros Ht Hv. rewrite Z.pow_add_r, (Z.mul_comm (2 ^ t)) by lia.
  apply Z.mul_le_mono_nonneg_r; [apply Z.pow_nonneg; lia |].
  rewrite <- (rne_inject_Z (2 ^ 52)) at 1. apply rne_mono.
  apply Qle_shift_div_l; [by apply pow2_pos |].
  rewrite <- inject_Z_mult, Z.mul_comm, <- Z.pow_add_r by lia. exact Hv.
Qed.

(** Rounding is monotone: within a binade because [rne] is, across binades
    because the power of two between them is a double. *)
Lemma round_pos_mono (x y : Q) :
  (0 <= x)%Q → (x <= y)%Q →
  (Binary64.round_pos x <= Binary64.round_pos y)%Q.
Proof.
  intros Hx Hxy. unfold Binary64.round_pos.
  set (u := (x * inject_Z Binary64.scale)%Q).
  set (v := (y * inject_Z Binary64.scale)%Q).
  assert (Huv : (u <= v)%Q).
  { apply Qmult_le_compat_r; [done | apply Qlt_le_weak, scale_pos]. }
  assert (Hu : (0 <= u)%Q).
  { apply Qmult_le_0_compat; [done | apply Qlt_le_weak, scale_pos]. }
  pose proof (Qfloor_resp_le _ _ Huv) as Hnk.
  pose proof (Qfloor_resp_le _ _ Hu) as Hn. change (Qfloor 0) with 0%Z in Hn.
  set (n := Qfloor u) in *. set (k := Qfloor v) in *.
  pose proof (Z.log2_le_mono n k Hnk) as Hlog.
  set (s := Z.max 0 (Z.log2 n - 52)). set (t := Z.max 0 (Z.log2 k - 52)).
  assert (Hst : (s ≤ t)%Z) by lia.
  unfold Qdiv at 1 3. apply Qmult_le_compat_r;
    [| apply Qlt_le_weak, Qinv_lt_0_compat, scale_pos].
  rewrite <- Zle_Qle.
  destruct (decide (s = t)) as [<- | Hne].
  - apply Z.mul_le_mono_nonneg_r; [apply Z.pow_nonneg; lia |].
    apply rne_mono. unfold Qdiv. apply Qmult_le_compat_r; [done |].
    apply Qlt_le_weak, Qinv_lt_0_compat, pow2_pos. lia.
  - transitivity (2 ^ (s + 53))%Z; [| transitivity (2 ^ (t + 52))%Z].
    + apply rne_scaled_le; [lia |].
      apply Qlt_le_weak. eapply Qlt_le_trans; [apply Qlt_floor |].
      fold n. rewrite <- Zle_Qle.
      destruct (decide (n = 0%Z)) as [-> | Hn0].
      * pose proof (Z.pow_pos_nonneg 2 (s + 53)). lia.
      * destruct (Z.log2_spec n) as [_ Hlt]; [lia |].
        assert (2 ^ Z.succ (Z.log2 n) ≤ 2 ^ (s + 53))%Z
          by (apply Z.pow_le_mono_r; lia).
        lia.
    + apply Z.pow_le_mono_r; lia.
    + apply rne_scaled_ge; [lia |].
      eapply Qle_trans; [| apply (Qfloor_le v)]. fold k. rewrite <- Zle_Qle.
      assert (Ht : t = (Z.log2 k - 52)%Z) by lia.
      assert (Hk : (0 < k)%Z).
      { destruct (decide (0 < k)%Z); [done |].
        rewrite Z.log2_nonpos in Ht by lia. lia. }
      destruct (Z.log2_spec k Hk) as [Hle _].
      replace (t + 52)%Z with (Z.log2 k) by lia. exact Hle.
Qed.

Lemma round_mono (x y : Q) :
  (0 <= x)%Q → (x <= y)%Q → (Binary64.round x <= Binary64.round y)%Q.
Proof.
  intros Hx Hxy. unfold Binary64.round.
  destruct (Qlt_le_dec x 0) as [Hneg | _].
  { exfalso. by apply (Qlt_not_le _ _ Hneg). }
  destruct (Qlt_le_dec y 0) as [Hneg | _].
  { exfalso. apply (Qlt_not_le _ _ Hneg). by apply Qle_trans with x. }
  by apply round_pos_mono.
Qed.

Lemma rne_comp (x y : Q) : (x == y)%Q → Binary64.rne x = Binary64.rne y.
Proof.
  intros Hxy. apply Z.le_antisymm; apply rne_mono; rewrite Hxy; apply Qle_refl.
Qed.

(** Every double is rounded to itself. *)
Lemma round_nonneg_finite (x : Q) :
  Binary64.nonneg_finite x → (Binary64.round x == x)%Q.
Proof.
  intros (m & s & Hm & Hs & Hx).
  assert (HN : (0 ≤ m * 2 ^ s)%Z).
  { apply Z.mul_nonneg_nonneg; [lia | apply Z.pow_nonneg; lia]. }
  assert (Hx0 : (0 <= x)%Q).
  { rewrite Hx. apply Qle_shift_div_l; [apply scale_pos |].
    change (0 * inject_Z Binary64.scale)%Q with (inject_Z 0).
    by rewrite <- Zle_Qle. }
  unfold Binary64.round. destruct (Qlt_le_dec x 0) as [Hneg | _].
  { exfalso. by apply (Qlt_not_le _ _ Hneg). }
  unfold Binary64.round_pos.
  assert (Hu : (x * inject_Z Binary64.scale == inject_Z (m * 2 ^ s))%Q).
  { rewrite Hx. field. intros H0. pose proof scale_pos as Hp.
    rewrite H0 in Hp. discriminate Hp. }
  rewrite (Qfloor_comp _ _ Hu), Qfloor_Z.
  set (e := Z.max 0 (Z.log2 (m * 2 ^ s) - 52)).
  assert (He : (0 ≤ e ≤ s)%Z).
  { split; [lia |]. destruct (decide (m = 0%Z)) as [-> | Hm0].
    - subst e. rewrite Z.mul_0_l. change (Z.log2 0) with 0%Z. lia.
    - enough (Z.log2 (m * 2 ^ s) ≤ 52 + s)%Z by lia.
      rewrite Z.log2_mul_pow2 by lia.
      enough (Z.log2 m < 53)%Z by lia.
      apply Z.log2_lt_pow2; lia. }
  assert (Hq : (x * inject_Z Binary64.scale / inject_Z (2 ^ e)
                == inject_Z (m * 2 ^ (s - e)))%Q).
  { rewrite Hu. replace s with ((s - e) + e)%Z at 1 by lia.
    rewrite Z.pow_add_r, Z.mul_assoc, inject_Z_mult by lia.
    field. intros H0. pose proof (pow2_pos e (proj1 He)) as Hp.
    rewrite H0 in Hp. discriminate Hp. }
  rewrite (rne_comp _ _ Hq), rne_inject_Z.
  rewrite <- Z.mul_assoc, <- Z.pow_add_r by lia.
  replace (s - e + e)%Z with s by lia. by rewrite Hx.
Qed.

(** [round x] lies between the doubles on either side of [x]. *)
Lemma round_between_doubles (x d : Q) :
  (0 <= x)%Q → Binary64.nonneg_finite d →
  ((d <= x)%Q → (d <= Binary64.round x)%Q)
  ∧ ((x <= d)%Q → (Binary64.round x <= d)%Q).
Proof.
  intros Hx Hd. pose proof (round_nonneg_finite d Hd) as Hid.
  assert (Hd0 : (0 <= d)%Q).
  { destruct Hd as (m & s & Hm & Hs & ->).
    apply Qle_shift_div_l; [apply scale_pos |].
    change (0 * inject_Z Binary64.scale)%Q with (inject_Z 0).
    rewrite <- Zle_Qle.
    apply Z.mul_nonneg_nonneg; [lia | apply Z.pow_nonneg; lia]. }
  split; intros Hdx.
  - rewrite <- Hid. by apply round_mono.
  - rewrite <- Hid. by apply round_mono.
Qed.

(** No double lies strictly between [1 - 2^-53] and one. *)
Lemma nonneg_finite_below_one (x : Q) :
  Binary64.nonneg_finite x → (x < 1)%Q →
  (0 <= x)%Q ∧ (x <= Binary64.below_one)%Q.
Proof.
  intros (m & s & Hm & Hs & Hx) Hlt. rewrite Hx in Hlt |- *.
  assert (Hunits : (m * 2 ^ s < Binary64.scale)%Z).
  { rewrite Zlt_Qlt. apply (Qmult_lt_r _ _ (/ inject_Z Binary64.scale)).
    - apply Qinv_lt_0_compat, scale_pos.
    - rewrite Qmult_inv_r; [exact Hlt |].
      intros H0. pose proof scale_pos as Hp. rewrite H0 in Hp.
      discriminate Hp. }
  split.
  - apply Qle_shift_div_l; [apply scale_pos |].
    change (0 * inject_Z Binary64.scale)%Q with (inject_Z 0).
    rewrite <- Zle_Qle.
    apply Z.mul_nonneg_nonneg; [lia | apply Z.pow_nonneg; lia].
  - apply Qle_shift_div_r; [apply scale_pos |].
    apply Qle_trans with (inject_Z ((2 ^ 53 - 1) * 2 ^ 1021));
      [| by vm_compute].
    rewrite <- Zle_Qle.
    destruct (decide (s < 1021)%Z) as [Hsmall | Hlarge].
    + apply Z.mul_le_mono_nonneg; [lia | lia | apply Z.pow_nonneg; lia |].
      apply Z.pow_le_mono_r; lia.
    + replace s with (1021 + (s - 1021))%Z in * by lia.
      set (d := (s - 1021)%Z) in *. rewrite Z.pow_add_r in * by lia.
      replace Binary64.scale with (2 ^ 53 * 2 ^ 1021)%Z in Hunits
        by (unfold Binary64.scale; rewrite <- Z.pow_add_r by lia;
            reflexivity).
      rewrite (Z.mul_comm (2 ^ 1021)), Z.mul_assoc in *.
      apply Z.mul_lt_mono_pos_r in Hunits; [| apply Z.pow_pos_nonneg; lia].
      apply Z.mul_le_mono_nonneg_r; [apply Z.pow_nonneg; lia | lia].
Qed.

(** [round] against the Standard Library's specification of binary64
    ([SpecFloat], precision 53, [emax] 1024), at the largest double below
    one: the product with 9000 is [9000 - 2^-39], the sum with 1000 is
    [10000 - 2^-39]. *)
Example round_agrees_with_SpecFloat :
  (Binary64.fmul Binary64.below_one 9000
   == Binary64.SF2Q
        (SFmul 53 1024 (S754_finite false 9007199254740991 (-53))
           (S754_finite false 4947802324992000 (-39))))%Q
  ∧ (Binary64.fadd 1000 (Binary64.fmul Binary64.below_one 9000)
     == Binary64.SF2Q
          (SFadd 53 1024 (S754_finite false 8796093022208000 (-43))
             (SFmul 53 1024 (S754_finite false 9007199254740991 (-53))
                (S754_finite false 4947802324992000 (-39)))))%Q
  ∧ (Binary64.fadd 1000 (Binary64.fmul Binary64.below_one 9000)
     == 10000 - 1 / inject_Z (2 ^ 39))%Q.
Proof. by vm_compute. Qed.

(** ** The PIN *)

Lemma Math_floor_range (x : Q) :
  (1000 <= x)%Q → (x < 10000)%Q → (1000 ≤ Math_floor x ≤ 9999)%Z.
Proof.
  intros Hlo Hhi. unfold Math_floor. split.
  - change 1000%Z with (Qfloor (inject_Z 1000)) at 1.
    by apply Qfloor_resp_le.
  - enough (Qfloor x < 10000)%Z by lia.
    rewrite Zlt_Qlt. eapply Qle_lt_trans; [apply Qfloor_le | exact Hhi].
Qed.

(** The number [generatePin] takes the floor of. *)
Lemma generatePin_number_range (random : Q) :
  Binary64.nonneg_finite random → (random < 1)%Q →
  (1000 <= Binary64.fadd 1000 (Binary64.fmul random 9000))%Q
  ∧ (Binary64.fadd 1000 (Binary64.fmul random 9000) < 10000)%Q.
Proof.
  intros Hfinite Hlt.
  destruct (nonneg_finite_below_one random Hfinite Hlt) as [Hlo Hhi].
  unfold Binary64.fadd, Binary64.fmul.
  set (p := Binary64.round (random * 9000)).
  assert (Hp_lo : (0 <= p)%Q).
  { apply Qle_trans with (Binary64.round 0); [by vm_compute |].
    apply round_mono; [done |]. by apply Qmult_le_0_compat. }
  assert (Hp_hi : (p <= Binary64.round (Binary64.below_one * 9000))%Q).
  { apply round_mono; [by apply Qmult_le_0_compat |].
    by apply Qmult_le_compat_r. }
  split.
  - apply Qle_trans with (Binary64.round (1000 + 0)); [by vm_compute |].
    apply round_mono; [done |]. by apply Qplus_le_r.
  - apply Qle_lt_trans
      with (Binary64.round
              (1000 + Binary64.round (Binary64.below_one * 9000)));
      [| by vm_compute].
    apply round_mono; [| by apply Qplus_le_r].
    apply Qle_trans with (1000 + 0)%Q; [done | by apply Qplus_le_r].
Qed.

(** The same bound when the arithmetic is exact. *)
Lemma exact_pin_number_range (random : Q) :
  (0 <= random)%Q → (random < 1)%Q →
  (1000 ≤ Math_floor (1000 + random * 9000) ≤ 9999)%Z.
Proof.
  intros Hlo Hhi. apply Math_floor_range.
  - apply Qle_trans with (1000 + 0 * 9000)%Q; [by vm_compute |].
    apply Qplus_le_r. by apply Qmult_le_compat_r.
  - apply Qlt_le_trans with (1000 + 1 * 9000)%Q; [| by vm_compute].
    apply Qplus_lt_r. by apply Qmult_lt_compat_r.
Qed.

Lemma Number_toString_4_digits (n : Z) :
  (1000 ≤ n ≤ 9999)%Z → matches_4_digits (Number_toString n) = true.
Proof.
  intros Hn.
  assert (Hall : forallb (λ k, matches_4_digits (Number_toString k))
                   (seqZ 1000 9000) = true) by (vm_compute; reflexivity).
  rewrite forallb_forall in Hall.
  apply Hall, list_elem_of_In, elem_of_seqZ. lia.
Qed.

(** C10. Whatever double in [0, 1) the randomness source gives,
    [generatePin] returns the decimal string of an integer between 1000 and
    9999, which matches [^\d{4}$]; and that string is the [pin_code] that
    [courierAssigned] stores. *)
Theorem generatePin_four_digits (env : Env) :
  Binary64.nonneg_finite (random env) → (random env < 1)%Q →
  (∃ n : Z, (1000 ≤ n ≤ 9999)%Z
            ∧ OrdersService.generatePin (random env) = Number_toString n)
  ∧ matches_4_digits (OrdersService.generatePin (random env)) = true
  ∧ ∀ (w : World) (orderId courierId : string) (o : Order.t),
      order w !! orderId = Some o →
      Order.pin_code
        <$> order (OrdersService.courierAssigned env orderId courierId w).2
            !! orderId
      = Some (OrdersService.generatePin (random env)).
Proof.
  intros Hfinite Hlt.
  destruct (generatePin_number_range (random env) Hfinite Hlt) as [Hlo Hhi].
  pose proof (Math_floor_range _ Hlo Hhi) as Hrange.
  split; [| split].
  - eexists. split; [exact Hrange | reflexivity].
  - by apply Number_toString_4_digits.
  - intros w orderId courierId o Ho. run_async. rewrite Ho.
    cbn [fst snd order]. rewrite Ho. cbn [fst snd order].
    by rewrite lookup_insert_eq.
Qed.

Lemma generatePin_four_digits_witness :
  Binary64.nonneg_finite (random sample_env) ∧ (random sample_env < 1)%Q
  ∧ OrdersService.generatePin (random sample_env) = "5500"
  ∧ matches_4_digits (OrdersService.generatePin (random sample_env)) = true.
Proof.
  assert (Hfinite : Binary64.nonneg_finite (random sample_env)).
  { exists (2 ^ 52)%Z, 1021%Z. split; [lia |]. split; [lia |].
    by vm_compute. }
  assert (Hlt : (random sample_env < 1)%Q) by reflexivity.
  split; [exact Hfinite |]. split; [exact Hlt |].
  split; [by vm_compute |].
  exact (proj1 (proj2 (generatePin_four_digits sample_env Hfinite Hlt))).
Defined.

(** * Further properties of the service *)

(** ** [updateOrderStatus]: events, missing orders, retries *)

Lemma allowed_edge (s t : OrderStatus) : allowed s t = true ↔ edge s t.
Proof.
  unfold allowed.
  destruct (property_validTransitions s) as (l & -> & Hl). apply Hl.
Qed.

Lemma allowed_rank (s t : OrderStatus) :
  allowed s t = true → (rank s < rank t)%nat.
Proof. destruct s, t; vm_compute; (discriminate || lia). Qed.

(** The whole of what [updateOrderStatus] does on a stored order. *)
Lemma updateOrderStatus_stored (w : World) (orderId : string) (o : Order.t)
    (newStatus : OrderStatus) :
  order w !! orderId = Some o →
  OrdersService.updateOrderStatus orderId newStatus w
  = if allowed (Order.status o) newStatus
    then
      (Return (Order.set_status newStatus o, Prisma.items_of w (Order.id o)),
       mkWorld (<[orderId := Order.set_status newStatus o]> (order w))
         (orderItem w) (orderReceipt w)
         (emitted w
          ++ order_status_updated (Order.id o) (Order.restaurantId o)
               newStatus
             :: (if decide (newStatus = READY_FOR_DELIVERY)
                 then [order_ready_for_delivery (Order.id o)
                         (Order.restaurantId o) (Order.restaurantName o)
                         (Order.customerId o)
                         (Prisma.items_of w (Order.id o))]
                 else []))
         (logged w))
    else (Throw (InvalidTransition (Order.status o) newStatus), w).
Proof.
  intros Ho. unfold allowed.
  destruct (property_validTransitions (Order.status o)) as (l & Hl & _).
  run_async. rewrite Ho, Hl.
  destruct (OrdersService.includes l newStatus); cbn [negb]; [| done].
  rewrite Ho. cbn [fst snd Order.status Order.set_status].
  destruct (decide (newStatus = READY_FOR_DELIVERY)); cbn;
    by rewrite <- ?app_assoc.
Qed.

(** X1. A status update that goes through emits [order_status_updated],
    followed by [order_ready_for_delivery] with the items of the order
    exactly when the new status is [READY_FOR_DELIVERY]; it writes no log
    line and touches no item or receipt. *)
Theorem updateOrderStatus_events (w : World) (orderId : string)
    (o : Order.t) (newStatus : OrderStatus) :
  order w !! orderId = Some o →
  allowed (Order.status o) newStatus = true →
  let w' := (OrdersService.updateOrderStatus orderId newStatus w).2 in
  emitted w'
  = (emitted w
     ++ order_status_updated (Order.id o) (Order.restaurantId o) newStatus
        :: (if decide (newStatus = READY_FOR_DELIVERY)
            then [order_ready_for_delivery (Order.id o)
                    (Order.restaurantId o) (Order.restaurantName o)
                    (Order.customerId o) (Prisma.items_of w (Order.id o))]
            else []))%list
  ∧ logged w' = logged w
  ∧ orderItem w' = orderItem w
  ∧ orderReceipt w' = orderReceipt w.
Proof.
  intros Ho Hallowed.
  rewrite (updateOrderStatus_stored w orderId o newStatus Ho), Hallowed.
  done.
Qed.

Lemma updateOrderStatus_events_witness :
  order (world_of (sample_order PREPARING "" "")) !! sample_id
  = Some (sample_order PREPARING "" "")
  ∧ allowed PREPARING READY_FOR_DELIVERY = true
  ∧ emitted (OrdersService.updateOrderStatus sample_id READY_FOR_DELIVERY
               (world_of (sample_order PREPARING "" ""))).2
    = [order_status_updated sample_id "r-1" READY_FOR_DELIVERY;
       order_ready_for_delivery sample_id "r-1" "Trattoria" "c-1" []].
Proof.
  split; [reflexivity |]. split; [reflexivity |].
  exact (proj1 (updateOrderStatus_events
                  (world_of (sample_order PREPARING "" "")) sample_id
                  (sample_order PREPARING "" "") READY_FOR_DELIVERY
                  eq_refl eq_refl)).
Defined.

Lemma updateOrderStatus_not_stored (w : World) (orderId : string)
    (newStatus : OrderStatus) :
  order w !! orderId = None →
  OrdersService.updateOrderStatus orderId newStatus w = (Throw NotFound, w).
Proof. intros Ho. run_async. by rewrite Ho. Qed.

(** X2. [updateOrderStatus] on an id that is not stored throws the
    not-found exception and leaves the world as it was: nothing is stored,
    emitted or logged, whatever the status asked for. *)
Theorem updateOrderStatus_missing (w : World) (orderId : string)
    (newStatus : OrderStatus) :
  order w !! orderId = None →
  OrdersService.updateOrderStatus orderId newStatus w
  = (Throw (RpcException "Order not found" HttpStatus.NOT_FOUND), w).
Proof. apply updateOrderStatus_not_stored. Qed.

Lemma updateOrderStatus_missing_witness :
  order initial !! sample_id = None
  ∧ OrdersService.updateOrderStatus sample_id CONFIRMED initial
    = (Throw (RpcException "Order not found" 404), initial).
Proof.
  split; [reflexivity |].
  exact (updateOrderStatus_missing initial sample_id CONFIRMED eq_refl).
Defined.

(** X3. A status update that went through cannot be repeated: the same
    call on the world it left throws the invalid-transition exception from
    the new status to itself, and changes nothing. *)
Theorem updateOrderStatus_retry_fails (w w' : World) (orderId : string)
    (newStatus : OrderStatus) (updatedOrder : OrderWithItems) :
  OrdersService.updateOrderStatus orderId newStatus w
  = (Return updatedOrder, w') →
  OrdersService.updateOrderStatus orderId newStatus w'
  = (Throw (InvalidTransition newStatus newStatus), w').
Proof.
  intros Hrun. destruct (order w !! orderId) as [o |] eqn:Ho.
  - rewrite (updateOrderStatus_stored w orderId o newStatus Ho) in Hrun.
    destruct (allowed (Order.status o) newStatus); [| discriminate Hrun].
    injection Hrun as _ <-.
    rewrite (updateOrderStatus_stored _ orderId (Order.set_status newStatus o)
               newStatus) by apply lookup_insert_eq.
    cbn [Order.status Order.set_status].
    destruct (allowed newStatus newStatus) eqn:Hself; [| done].
    apply allowed_rank in Hself. lia.
  - run_async. rewrite Ho in Hrun. discriminate Hrun.
Qed.

Lemma updateOrderStatus_retry_fails_witness :
  (OrdersService.updateOrderStatus sample_id CONFIRMED
     (world_of (sample_order PENDING "" ""))).1
  = Return (sample_order CONFIRMED "" "", [])
  ∧ (OrdersService.updateOrderStatus sample_id CONFIRMED
       (OrdersService.updateOrderStatus sample_id CONFIRMED
          (world_of (sample_order PENDING "" ""))).2).1
    = Throw (RpcException "Cannot transition from CONFIRMED to CONFIRMED" 404).
Proof.
  split; [reflexivity |].
  rewrite (updateOrderStatus_retry_fails
             (world_of (sample_order PENDING "" ""))
             (OrdersService.updateOrderStatus sample_id CONFIRMED
                (world_of (sample_order PENDING "" ""))).2
             sample_id CONFIRMED (sample_order CONFIRMED "" "", []));
    reflexivity.
Defined.

Lemma updates_returned_rank (orderId : string) (targets : list OrderStatus)
    (w : World) :
  (updates_returned orderId targets w
   ≤ match order w !! orderId with
     | Some o => 5 - rank (Order.status o)
     | None => 0
     end)%nat.
Proof.
  revert w. induction targets as [| t rest IH]; intros w; cbn [updates_returned].
  - lia.
  - specialize (IH (OrdersService.updateOrderStatus orderId t w).2).
    destruct (order w !! orderId) as [o |] eqn:Ho.
    + rewrite (updateOrderStatus_stored w orderId o t Ho) in IH |- *.
      destruct (allowed (Order.status o) t) eqn:Hallowed;
        cbn [fst snd order] in IH |- *.
      * rewrite lookup_insert_eq in IH.
        cbn [Order.status Order.set_status] in IH.
        apply allowed_rank in Hallowed. destruct (Order.status o), t;
          cbn [rank] in *; lia.
      * rewrite Ho in IH. lia.
    + rewrite (updateOrderStatus_not_stored w orderId t Ho) in IH |- *.
      cbn [fst snd] in IH |- *. rewrite Ho in IH. lia.
Qed.

(** X4. The table has no cycle: however many status updates are requested
    for an order one after the other, at most five of them go through. *)
Theorem updateOrderStatus_at_most_five (orderId : string)
    (targets : list OrderStatus) (w : World) :
  (updates_returned orderId targets w ≤ 5)%nat.
Proof.
  pose proof (updates_returned_rank orderId targets w) as H.
  destruct (order w !! orderId); lia.
Qed.

(** The bound is reached from [PENDING] to [DELIVERED]. *)
Example five_updates_go_through :
  updates_returned sample_id
    [CONFIRMED; PREPARING; READY_FOR_DELIVERY; OUT_FOR_DELIVERY; DELIVERED]
    (world_of (sample_order PENDING "" ""))
  = 5%nat.
Proof. reflexivity. Qed.

(** ** Payment timeouts and payments *)

(** X5. [paymentSessionExpired] on a stored order stores [FAILED] whatever
    the status was (a delivered order included), returns the updated order
    and emits nothing; on an id that is not stored it throws the
    datastore's record-not-found rejection and changes no collection. *)
Theorem paymentSessionExpired_fails_order (w : World) (orderId : string) :
  (∀ o, order w !! orderId = Some o →
     OrdersService.paymentSessionExpired orderId w
     = (Return (Order.set_status FAILED o),
        mkWorld (<[orderId := Order.set_status FAILED o]> (order w))
          (orderItem w) (orderReceipt w) (emitted w)
          (logged w
           ++ [mkLog LOG "Payment session expired:" (ArgOrderId orderId);
               mkLog LOG "Order found:" (ArgId (Order.id o))])))
  ∧ (order w !! orderId = None →
     OrdersService.paymentSessionExpired orderId w
     = (Throw (PrismaClientKnownRequestError RecordNotFound),
        mkWorld (order w) (orderItem w) (orderReceipt w) (emitted w)
          (logged w
           ++ [mkLog LOG "Payment session expired:" (ArgOrderId orderId);
               mkLog ERROR "Order not found:" (ArgId orderId)]))).
Proof.
  split; [intros o Ho | intros Ho]; run_async; rewrite Ho;
    cbn [fst snd order orderItem orderReceipt emitted logged];
    rewrite Ho, <- app_assoc; reflexivity.
Qed.

Lemma paymentSessionExpired_fails_order_witness :
  order (world_of (sample_order DELIVERED "4821" "k-1")) !! sample_id
  = Some (sample_order DELIVERED "4821" "k-1")
  ∧ Order.status
      <$> order (OrdersService.paymentSessionExpired sample_id
                   (world_of (sample_order DELIVERED "4821" "k-1"))).2
          !! sample_id
    = Some FAILED
  ∧ order initial !! sample_id = None
  ∧ (OrdersService.paymentSessionExpired sample_id initial).1
    = Throw (PrismaClientKnownRequestError RecordNotFound).
Proof.
  split; [reflexivity |].
  destruct (paymentSessionExpired_fails_order
              (world_of (sample_order DELIVERED "4821" "k-1")) sample_id)
    as [Hsome _].
  destruct (paymentSessionExpired_fails_order initial sample_id)
    as [_ Hnone].
  split; [| split; [reflexivity |]].
  - rewrite (Hsome _ eq_refl). reflexivity.
  - rewrite (Hnone eq_refl). reflexivity.
Defined.

(** X6. [paidOrder] on a stored order that has no receipt stores
    [CONFIRMED] whatever the status was (the table is not looked at), marks
    the order paid with the charge reference of the message, stores one
    receipt with the receipt URL, and emits one [order_paid] that carries
    the updated order with its items. *)
Theorem paidOrder_confirms (env : Env) (dto : PaidOrderDto.t) (w : World)
    (o : Order.t) :
  order w !! PaidOrderDto.orderId dto = Some o →
  Prisma.receipts_of w (PaidOrderDto.orderId dto) = [] →
  let paid :=
    Order.set_stripeChargeId (Some (PaidOrderDto.stripePaymentId dto))
      (Order.set_paid true (Order.set_status CONFIRMED o)) in
  OrdersService.paidOrder env dto w
  = (Return (),
     mkWorld (<[PaidOrderDto.orderId dto := paid]> (order w)) (orderItem w)
       (orderReceipt w
        ++ [OrderReceipt.mk (auto_id env) (PaidOrderDto.orderId dto)
              (PaidOrderDto.receiptUrl dto) (now env) (now env)])
       (emitted w ++ [order_paid (paid, Prisma.items_of w (Order.id o))])
       (logged w
        ++ [mkLog LOG "Payment succeeded:" (ArgPaidOrderDto dto);
            mkLog LOG "Order found:" (ArgId (Order.id o));
            mkLog LOG "Order found:" (ArgOrderId (PaidOrderDto.orderId dto));
            mkLog LOG "Order paid:"
              (ArgOrderId (PaidOrderDto.orderId dto))])).
Proof.
  intros Ho Hnone paid. unfold Prisma.receipts_of in Hnone. run_async.
  unfold Prisma.receipts_of. rewrite Ho.
  cbn [fst snd order orderItem orderReceipt emitted logged].
  rewrite Ho, Hnone. cbn. by rewrite <- !app_assoc.
Qed.

Lemma paidOrder_confirms_witness :
  order (world_of (sample_order CANCELLED "" "")) !! sample_id
  = Some (sample_order CANCELLED "" "")
  ∧ Prisma.receipts_of (world_of (sample_order CANCELLED "" "")) sample_id
    = []
  ∧ Order.status
      <$> order (OrdersService.paidOrder sample_env (sample_paid "ch_1")
                   (world_of (sample_order CANCELLED "" ""))).2
          !! sample_id
    = Some CONFIRMED.
Proof.
  split; [reflexivity |]. split; [reflexivity |].
  rewrite (paidOrder_confirms sample_env (sample_paid "ch_1")
             (world_of (sample_order CANCELLED "" ""))
             (sample_order CANCELLED "" "") eq_refl eq_refl).
  reflexivity.
Defined.

(** ** Couriers and PINs *)

(** X7. [verifyOrderPin] on an id that is not stored does not answer
    [false] and does not throw the not-found exception: it throws a
    [TypeError], reading [pin_code] of [null]. Nothing is stored or
    emitted. *)
Theorem verifyOrderPin_missing (w : World) (orderId pin : string) :
  order w !! orderId = None →
  OrdersService.verifyOrderPin orderId pin w
  = (Throw TypeError,
     mkWorld (order w) (orderItem w) (orderReceipt w) (emitted w)
       (logged w ++ [mkLog ERROR "Order not found:" (ArgId orderId)])).
Proof. intros Ho. run_async. by rewrite Ho. Qed.

Lemma verifyOrderPin_missing_witness :
  order initial !! sample_id = None
  ∧ (OrdersService.verifyOrderPin sample_id "4821" initial).1
    = Throw TypeError.
Proof.
  split; [reflexivity |].
  by rewrite (verifyOrderPin_missing initial sample_id "4821" eq_refl).
Defined.

(** What a matching PIN does, once. *)
Lemma verifyOrderPin_match (w : World) (orderId : string) (o : Order.t) :
  order w !! orderId = Some o →
  OrdersService.verifyOrderPin orderId (Order.pin_code o) w
  = (Return true,
     mkWorld (<[orderId := Order.set_status DELIVERED o]> (order w))
       (orderItem w) (orderReceipt w)
       (emitted w
        ++ [order_delivered orderId (Order.courierId o)
              (Order.restaurantId o) (Order.totalAmount o)
              (Order.customerId o)])
       (logged w ++ [mkLog LOG "Order found:" (ArgId (Order.id o))])).
Proof.
  intros Ho. run_async. rewrite Ho. cbn [fst snd order].
  destruct (decide _); [| done]. cbn [fst snd order]. by rewrite Ho.
Qed.

(** X8. A verified PIN stays valid: after [verifyOrderPin] has returned
    [true], the same call returns [true] again and emits a second
    [order_delivered] (neither the status nor an earlier delivery is
    looked at, and the PIN is not cleared). *)
Theorem verifyOrderPin_twice (w : World) (orderId : string) (o : Order.t) :
  order w !! orderId = Some o →
  let w1 := (OrdersService.verifyOrderPin orderId (Order.pin_code o) w).2 in
  let r2 := OrdersService.verifyOrderPin orderId (Order.pin_code o) w1 in
  r2.1 = Return true
  ∧ emitted r2.2
    = (emitted w
       ++ [order_delivered orderId (Order.courierId o)
             (Order.restaurantId o) (Order.totalAmount o)
             (Order.customerId o);
           order_delivered orderId (Order.courierId o)
             (Order.restaurantId o) (Order.totalAmount o)
             (Order.customerId o)])%list
  ∧ order r2.2 !! orderId = Some (Order.set_status DELIVERED o).
Proof.
  intros Ho w1 r2. subst w1 r2.
  rewrite (verifyOrderPin_match w orderId o Ho). cbn [snd].
  rewrite (verifyOrderPin_match _ orderId (Order.set_status DELIVERED o))
    by apply lookup_insert_eq.
  cbn [fst snd order emitted Order.courierId Order.restaurantId
       Order.totalAmount Order.customerId Order.set_status].
  split; [done |]. split; [by rewrite <- app_assoc |].
  by rewrite lookup_insert_eq.
Qed.

Lemma verifyOrderPin_twice_witness :
  order (world_of (sample_order OUT_FOR_DELIVERY "4821" "k-1")) !! sample_id
  = Some (sample_order OUT_FOR_DELIVERY "4821" "k-1")
  ∧ length
      (emitted
         (OrdersService.verifyOrderPin sample_id "4821"
            (OrdersService.verifyOrderPin sample_id "4821"
               (world_of (sample_order OUT_FOR_DELIVERY "4821" "k-1"))).2).2)
    = 2%nat.
Proof.
  split; [reflexivity |].
  destruct (verifyOrderPin_twice
              (world_of (sample_order OUT_FOR_DELIVERY "4821" "k-1"))
              sample_id (sample_order OUT_FOR_DELIVERY "4821" "k-1") eq_refl)
    as (_ & Hemitted & _).
  cbn [Order.pin_code sample_order] in Hemitted. rewrite Hemitted.
  reflexivity.
Defined.

(** The whole of what [courierAssigned] does on a stored order. *)
Lemma courierAssigned_stored (env : Env) (w : World)
    (orderId courierId : string) (o : Order.t) :
  order w !! orderId = Some o →
  let pin := OrdersService.generatePin (random env) in
  let assigned := Order.set_pin_code pin (Order.set_courierId courierId o) in
  OrdersService.courierAssigned env orderId courierId w
  = (Return assigned,
     mkWorld (<[orderId := assigned]> (order w)) (orderItem w)
       (orderReceipt w)
       (emitted w ++ [courier_assigned assigned courierId pin])
       (logged w ++ [mkLog LOG "Order found:" (ArgId (Order.id o))])).
Proof.
  intros Ho pin assigned. run_async. rewrite Ho. cbn [fst snd order].
  by rewrite Ho.
Qed.

Lemma generatePin_matches (random : Q) :
  Binary64.nonneg_finite random → (random < 1)%Q →
  matches_4_digits (OrdersService.generatePin random) = true.
Proof.
  intros Hfinite Hlt.
  destruct (generatePin_number_range random Hfinite Hlt) as [Hlo Hhi].
  apply Number_toString_4_digits. by apply Math_floor_range.
Qed.

(** X9. Assigning a courier to an order that already has one is not
    refused: the second [courierAssigned] returns, replaces the courier and
    the PIN by the new ones, emits a second [courier_assigned], and leaves
    the status as it was (which is not looked at either). *)
Theorem courierAssigned_again_overwrites (env1 env2 : Env) (w : World)
    (orderId courier1 courier2 : string) (o : Order.t) :
  order w !! orderId = Some o →
  let r1 := OrdersService.courierAssigned env1 orderId courier1 w in
  let r2 := OrdersService.courierAssigned env2 orderId courier2 r1.2 in
  ∃ o1 o2,
    r1.1 = Return o1 ∧ r2.1 = Return o2
    ∧ order r2.2 !! orderId = Some o2
    ∧ Order.courierId o2 = courier2
    ∧ Order.pin_code o2 = OrdersService.generatePin (random env2)
    ∧ Order.status o2 = Order.status o
    ∧ emitted r2.2
      = (emitted w
         ++ [courier_assigned o1 courier1
               (OrdersService.generatePin (random env1));
             courier_assigned o2 courier2
               (OrdersService.generatePin (random env2))])%list.
Proof.
  intros Ho r1 r2. subst r1 r2.
  rewrite (courierAssigned_stored env1 w orderId courier1 o Ho).
  cbn [fst snd].
  erewrite (courierAssigned_stored env2 _ orderId courier2)
    by apply lookup_insert_eq.
  cbn [fst snd order emitted]. do 2 eexists.
  split; [reflexivity |]. split; [reflexivity |].
  split; [by rewrite lookup_insert_eq |].
  split; [reflexivity |]. split; [reflexivity |]. split; [reflexivity |].
  by rewrite <- app_assoc.
Qed.

Lemma courierAssigned_again_overwrites_witness :
  order (world_of (sample_order READY_FOR_DELIVERY "" "")) !! sample_id
  = Some (sample_order READY_FOR_DELIVERY "" "")
  ∧ Order.courierId
      <$> order (OrdersService.courierAssigned
                   (mkEnv sample_id 1700000001 (1 # 4)) sample_id "k-2"
                   (OrdersService.courierAssigned sample_env sample_id "k-1"
                      (world_of (sample_order READY_FOR_DELIVERY "" ""))).2).2
          !! sample_id
    = Some "k-2".
Proof.
  split; [reflexivity |].
  destruct (courierAssigned_again_overwrites sample_env
              (mkEnv sample_id 1700000001 (1 # 4))
              (world_of (sample_order READY_FOR_DELIVERY "" ""))
              sample_id "k-1" "k-2" (sample_order READY_FOR_DELIVERY "" "")
              eq_refl)
    as (o1 & o2 & _ & _ & Hstored & Hcourier & _).
  rewrite Hstored. cbn [fmap option_fmap option_map]. by rewrite Hcourier.
Defined.

(** X10. The PIN handed out is the PIN that delivers: after
    [courierAssigned] on a stored order, [verifyOrderPin] with the
    [pin_code] of the order it returned (the [pin] of the
    [courier_assigned] event) returns [true] and stores [DELIVERED]. *)
Theorem courierAssigned_pin_verifies (env : Env) (w : World)
    (orderId courierId : string) (o : Order.t) :
  order w !! orderId = Some o →
  let r := OrdersService.courierAssigned env orderId courierId w in
  ∃ assigned,
    r.1 = Return assigned
    ∧ last (emitted r.2)
      = Some (courier_assigned assigned courierId (Order.pin_code assigned))
    ∧ (OrdersService.verifyOrderPin orderId (Order.pin_code assigned) r.2).1
      = Return true
    ∧ Order.status
        <$> order (OrdersService.verifyOrderPin orderId
                     (Order.pin_code assigned) r.2).2 !! orderId
      = Some DELIVERED.
Proof.
  intros Ho r. subst r.
  rewrite (courierAssigned_stored env w orderId courierId o Ho).
  cbn [fst snd emitted]. eexists. split; [reflexivity |].
  split; [by rewrite last_snoc |].
  rewrite verifyOrderPin_match by apply lookup_insert_eq.
  cbn [fst snd order]. split; [reflexivity |]. by rewrite lookup_insert_eq.
Qed.

Lemma courierAssigned_pin_verifies_witness :
  order (world_of (sample_order OUT_FOR_DELIVERY "" "")) !! sample_id
  = Some (sample_order OUT_FOR_DELIVERY "" "")
  ∧ (OrdersService.verifyOrderPin sample_id "5500"
       (OrdersService.courierAssigned sample_env sample_id "k-1"
          (world_of (sample_order OUT_FOR_DELIVERY "" ""))).2).1
    = Return true.
Proof.
  split; [reflexivity |].
  destruct (courierAssigned_pin_verifies sample_env
              (world_of (sample_order OUT_FOR_DELIVERY "" "")) sample_id "k-1"
              (sample_order OUT_FOR_DELIVERY "" "") eq_refl)
    as (assigned & Hassigned & _ & Hverify & _).
  assert (Hpin : Order.pin_code assigned = "5500").
  { vm_compute in Hassigned. injection Hassigned as <-. reflexivity. }
  by rewrite Hpin in Hverify.
Defined.

(** X11. Once a courier is assigned, with a random number that is a double
    in [0, 1), the empty string is no longer accepted as PIN:
    [verifyOrderPin] returns [false], stores nothing and emits nothing. *)
Theorem courierAssigned_closes_empty_pin (env : Env) (w : World)
    (orderId courierId : string) (o : Order.t) :
  order w !! orderId = Some o →
  Binary64.nonneg_finite (random env) → (random env < 1)%Q →
  let w1 := (OrdersService.courierAssigned env orderId courierId w).2 in
  let r := OrdersService.verifyOrderPin orderId "" w1 in
  r.1 = Return false
  ∧ order r.2 = order w1
  ∧ emitted r.2 = emitted w1.
Proof.
  intros Ho Hfinite Hlt w1 r. subst w1 r.
  pose proof (generatePin_matches (random env) Hfinite Hlt) as Hpin.
  rewrite (courierAssigned_stored env w orderId courierId o Ho).
  cbn [snd]. run_async. rewrite lookup_insert_eq. cbn [fst snd order].
  destruct (decide _) as [Hempty | _]; [| done].
  cbn [Order.pin_code Order.set_pin_code] in Hempty.
  rewrite Hempty in Hpin. discriminate Hpin.
Qed.

Lemma courierAssigned_closes_empty_pin_witness :
  order (world_of (sample_order OUT_FOR_DELIVERY "" "")) !! sample_id
  = Some (sample_order OUT_FOR_DELIVERY "" "")
  ∧ Binary64.nonneg_finite (random sample_env)
  ∧ (random sample_env < 1)%Q
  ∧ (OrdersService.verifyOrderPin sample_id ""
       (OrdersService.courierAssigned sample_env sample_id "k-1"
          (world_of (sample_order OUT_FOR_DELIVERY "" ""))).2).1
    = Return false.
Proof.
  assert (Hfinite : Binary64.nonneg_finite (random sample_env)).
  { exists (2 ^ 52)%Z, 1021%Z. split; [lia |]. split; [lia |].
    by vm_compute. }
  split; [reflexivity |]. split; [exact Hfinite |]. split; [reflexivity |].
  exact (proj1 (courierAssigned_closes_empty_pin sample_env
                  (world_of (sample_order OUT_FOR_DELIVERY "" "")) sample_id
                  "k-1" (sample_order OUT_FOR_DELIVERY "" "") eq_refl
                  Hfinite eq_refl)).
Defined.

(** ** Every message *)

Ltac handle_cases m :=
  destruct m; cbn [OrdersController.handle OrdersController.thrown] in *;
  run_async; unfold Prisma.receipts_of, OrdersController.thrown_by in *;
  repeat (case_match; simplify_eq;
          cbn [fst snd order orderItem orderReceipt emitted logged] in * ).

(** X12. A handler that throws has stored nothing and emitted nothing:
    whatever the message, the three collections and the emitted events are
    as before (only log lines may have been added). *)
Theorem thrown_changes_nothing (env : Env) (m : OrdersController.Message)
    (w : World) (e : Exception) :
  OrdersController.thrown env m w = Some e →
  order (OrdersController.handle env m w) = order w
  ∧ orderItem (OrdersController.handle env m w) = orderItem w
  ∧ orderReceipt (OrdersController.handle env m w) = orderReceipt w
  ∧ emitted (OrdersController.handle env m w) = emitted w.
Proof. intros Hthrown. handle_cases m; done. Qed.

Lemma thrown_changes_nothing_witness :
  OrdersController.thrown sample_env
    (OrdersController.payment_succeeded (sample_paid "ch_2"))
    (OrdersService.paidOrder sample_env (sample_paid "ch_1")
       (world_of (sample_order PENDING "" ""))).2
  = Some (PrismaClientKnownRequestError UniqueConstraintViolation)
  ∧ Order.stripeChargeId
      <$> order (OrdersController.handle sample_env
                   (OrdersController.payment_succeeded (sample_paid "ch_2"))
                   (OrdersService.paidOrder sample_env (sample_paid "ch_1")
                      (world_of (sample_order PENDING "" ""))).2)
          !! sample_id
    = Some (Some "ch_1").
Proof.
  split; [reflexivity |].
  destruct (thrown_changes_nothing sample_env
              (OrdersController.payment_succeeded (sample_paid "ch_2"))
              (OrdersService.paidOrder sample_env (sample_paid "ch_1")
                 (world_of (sample_order PENDING "" ""))).2
              (PrismaClientKnownRequestError UniqueConstraintViolation)
              eq_refl) as (Horder & _).
  rewrite Horder. reflexivity.
Defined.

Lemma same_creation_data_refl (o : Order.t) : same_creation_data o o.
Proof. by repeat split. Qed.

Lemma same_creation_data_trans (o1 o2 o3 : Order.t) :
  same_creation_data o1 o2 → same_creation_data o2 o3 →
  same_creation_data o1 o3.
Proof.
  unfold same_creation_data. intros (?&?&?&?&?&?&?) (?&?&?&?&?&?&?).
  repeat split; congruence.
Qed.

Lemma handle_keeps_creation_data (env : Env) (m : OrdersController.Message)
    (w : World) (id : string) (o : Order.t) :
  order w !! id = Some o →
  ∃ o', order (OrdersController.handle env m w) !! id = Some o'
        ∧ same_creation_data o o'.
Proof.
  intros Ho. pose proof (handle_order_step env m w id) as Hstep.
  rewrite Ho in Hstep. inversion Hstep; subst; eexists;
    (split; [eauto |]); by repeat split.
Qed.

(** X13. No message deletes an order or rewrites what was fixed when it
    was created: after any history, an order that was stored is still
    stored under the same key, with the same [id], [date], [totalAmount],
    [deliveryTime], restaurant and customer. *)
Theorem run_keeps_creation_data
    (history : list (Env * OrdersController.Message)) (w : World)
    (id : string) (o : Order.t) :
  order w !! id = Some o →
  ∃ o', order (OrdersController.run history w) !! id = Some o'
        ∧ same_creation_data o o'.
Proof.
  revert w o. induction history as [| [env m] rest IH]; intros w o Ho.
  - exists o. split; [done | apply same_creation_data_refl].
  - destruct (handle_keeps_creation_data env m w id o Ho) as (o1 & Ho1 & H1).
    destruct (IH _ _ Ho1) as (o2 & Ho2 & H2).
    exists o2. split; [exact Ho2 |]. by eapply same_creation_data_trans.
Qed.

Lemma run_keeps_creation_data_witness :
  order (world_of (sample_order PENDING "" "")) !! sample_id
  = Some (sample_order PENDING "" "")
  ∧ ∃ o', order (OrdersController.run
                   [(sample_env,
                     OrdersController.payment_succeeded (sample_paid "ch_1"));
                    (sample_env, OrdersController.removeOrder sample_id);
                    (sample_env,
                     OrdersController.payment_session_expired sample_id)]
                   (world_of (sample_order PENDING "" ""))) !! sample_id
          = Some o'
          ∧ same_creation_data (sample_order PENDING "" "") o'.
Proof.
  split; [reflexivity |].
  exact (run_keeps_creation_data _ (world_of (sample_order PENDING "" ""))
           sample_id (sample_order PENDING "" "") eq_refl).
Defined.

(** The item rows move in one way only: [createOrder] with an id that is
    not in use adds those of the new order. *)
Lemma handle_orderItem (env : Env) (m : OrdersController.Message)
    (w : World) :
  orderItem (OrdersController.handle env m w) = orderItem w
  ∨ ∃ dto,
      m = OrdersController.createOrder dto
      ∧ order w !! auto_id env = None
      ∧ is_Some (order (OrdersController.handle env m w) !! auto_id env)
      ∧ orderItem (OrdersController.handle env m w)
        = (orderItem w
           ++ map (Prisma.new_item (auto_id env))
                (CreateOrderDto.items dto))%list.
Proof.
  handle_cases m; auto;
    right; eexists; repeat split; eauto; by rewrite lookup_insert_eq.
Qed.

Lemma items_of_app (w : World) (rows : list OrderItemRow.t)
    (orderId : string) :
  filter (λ r, OrderItemRow.orderId r = orderId) (orderItem w ++ rows)%list
  = (Prisma.items_of w orderId
     ++ filter (λ r, OrderItemRow.orderId r = orderId) rows)%list.
Proof. unfold Prisma.items_of. by rewrite filter_app. Qed.

Lemma items_of_new_other (id orderId : string) (items : list OrderItem.t) :
  id ≠ orderId →
  filter (λ r, OrderItemRow.orderId r = orderId)
    (map (Prisma.new_item id) items) = [].
Proof.
  intros Hne. induction items as [| item rest IH]; [done |].
  cbn [map]. rewrite filter_cons. cbn [Prisma.new_item OrderItemRow.orderId].
  by destruct (decide (id = orderId)).
Qed.

Lemma items_of_new_same (id : string) (items : list OrderItem.t) :
  filter (λ r, OrderItemRow.orderId r = id) (map (Prisma.new_item id) items)
  = map (Prisma.new_item id) items.
Proof.
  induction items as [| item rest IH]; [done |].
  cbn [map]. rewrite filter_cons. cbn [Prisma.new_item OrderItemRow.orderId].
  destruct (decide (id = id)); [| done]. by rewrite IH.
Qed.

Lemma handle_keeps_items (env : Env) (m : OrdersController.Message)
    (w : World) (id : string) :
  is_Some (order w !! id) →
  Prisma.items_of (OrdersController.handle env m w) id = Prisma.items_of w id.
Proof.
  intros [o Ho].
  destruct (handle_orderItem env m w) as [Hsame | (dto & _ & Hfresh & _ & Hadd)].
  - unfold Prisma.items_of. by rewrite Hsame.
  - unfold Prisma.items_of at 1. rewrite Hadd, items_of_app.
    rewrite items_of_new_other; [by rewrite app_nil_r |]. congruence.
Qed.

(** X14. The items of an order are never touched again: after any history,
    the item rows of an order that was stored are the ones it had. *)
Theorem run_keeps_items (history : list (Env * OrdersController.Message))
    (w : World) (id : string) :
  is_Some (order w !! id) →
  Prisma.items_of (OrdersController.run history w) id = Prisma.items_of w id.
Proof.
  revert w. induction history as [| [env m] rest IH]; intros w Hid; [done |].
  cbn [OrdersController.run fold_left].
  change (Prisma.items_of
            (OrdersController.run rest (OrdersController.handle env m w)) id
          = Prisma.items_of w id).
  rewrite IH.
  - by apply handle_keeps_items.
  - destruct Hid as [o Ho].
    destruct (handle_keeps_creation_data env m w id o Ho) as (o' & Ho' & _).
    by eexists.
Qed.

Lemma run_keeps_items_witness :
  is_Some (order (OrdersController.run
                    [(sample_env,
                      OrdersController.createOrder (sample_dto false))]
                    initial) !! sample_id)
  ∧ Prisma.items_of
      (OrdersController.run
         [(mkEnv "65f1c0a2b3d4e5f601020305" 1700000002 (1 # 2),
           OrdersController.createOrder (sample_dto true));
          (sample_env, OrdersController.removeOrder sample_id)]
         (OrdersController.run
            [(sample_env, OrdersController.createOrder (sample_dto false))]
            initial)) sample_id
    = [OrderItemRow.mk "d-1" "pizza" 2 (Number.of_Z 10) sample_id;
       OrderItemRow.mk "d-2" "cola" 1 (Number.of_Z 5) sample_id].
Proof.
  assert (Hstored : is_Some (order (OrdersController.run
                    [(sample_env,
                      OrdersController.createOrder (sample_dto false))]
                    initial) !! sample_id)) by (by eexists).
  split; [exact Hstored |].
  rewrite (run_keeps_items _ _ sample_id Hstored). reflexivity.
Defined.

(** ** Worlds the service reaches *)

Lemma handle_well_formed (env : Env) (m : OrdersController.Message)
    (w : World) :
  well_formed w → well_formed (OrdersController.handle env m w).
Proof.
  intros (Hkey & Hitems & Hreceipts). split; [| split].
  - intros k o' Ho'. pose proof (handle_order_step env m w k) as Hstep.
    rewrite Ho' in Hstep. inversion Hstep; subst; cbn [Order.id];
      try reflexivity;
      match goal with
      | H : _ = order w !! _ |- _ => symmetry in H; exact (Hkey _ _ H)
      | H : order w !! _ = _ |- _ => exact (Hkey _ _ H)
      end.
  - intros r Hr.
    destruct (handle_orderItem env m w)
      as [Hsame | (dto & _ & _ & Hnew & Hadd)].
    + rewrite Hsame in Hr. destruct (Hitems r Hr) as [o Ho].
      destruct (handle_keeps_creation_data env m w _ o Ho) as (o' & Ho' & _).
      by eexists.
    + rewrite Hadd in Hr. apply elem_of_app in Hr as [Hr | Hr].
      * destruct (Hitems r Hr) as [o Ho].
        destruct (handle_keeps_creation_data env m w _ o Ho)
          as (o' & Ho' & _).
        by eexists.
      * apply list_elem_of_fmap in Hr as (item & -> & _). exact Hnew.
  - intros r Hr.
    destruct (handle_orderReceipt env m w)
      as [Hsame | (dto & o & _ & _ & _ & Hadd & Hnew)].
    + rewrite Hsame in Hr. destruct (Hreceipts r Hr) as [o Ho].
      destruct (handle_keeps_creation_data env m w _ o Ho) as (o' & Ho' & _).
      by eexists.
    + rewrite Hadd in Hr. apply elem_of_app in Hr as [Hr | Hr].
      * destruct (Hreceipts r Hr) as [o0 Ho0].
        destruct (handle_keeps_creation_data env m w _ o0 Ho0)
          as (o' & Ho' & _).
        by eexists.
      * apply list_elem_of_singleton in Hr as ->. by eexists.
Qed.

Lemma initial_well_formed : well_formed initial.
Proof.
  split; [| split].
  - intros k o Ho. cbn in Ho. by rewrite lookup_empty in Ho.
  - intros r Hr. by apply elem_of_nil in Hr.
  - intros r Hr. by apply elem_of_nil in Hr.
Qed.

Lemma run_well_formed (history : list (Env * OrdersController.Message))
    (w : World) :
  well_formed w → well_formed (OrdersController.run history w).
Proof.
  revert w. induction history as [| [env m] rest IH]; intros w Hw; [done |].
  apply IH. by apply handle_well_formed.
Qed.

(** X15. After any history of messages, every order is stored under its
    own [id], and every item row and every receipt belongs to an order
    that is stored. *)
Theorem reachable_well_formed
    (history : list (Env * OrdersController.Message)) :
  well_formed (OrdersController.run history initial).
Proof. apply run_well_formed, initial_well_formed. Qed.

Lemma well_formed_no_items (w : World) (id : string) :
  well_formed w → order w !! id = None → Prisma.items_of w id = [].
Proof.
  intros (_ & Hitems & _) Hnone. unfold Prisma.items_of.
  destruct (filter _ _) as [| r rest] eqn:Hfilter; [done |].
  assert (Hr : r ∈ filter (λ r, OrderItemRow.orderId r = id) (orderItem w))
    by (rewrite Hfilter; left).
  apply list_elem_of_filter in Hr as [Hid Hin].
  destruct (Hitems r Hin) as [o Ho]. congruence.
Qed.

(** X16. What [createOrder] stored is what [findOneOrder] gives back: in a
    well-formed world and with an id that is not in use, [findOneOrder] on
    the id that [createOrder] returned finds an order in status [PENDING],
    not paid, for the customer and the restaurant of the request, with
    exactly the items of the request, in their order. *)
Theorem createOrder_findOneOrder (env : Env) (dto : CreateOrderDto.t)
    (w : World) :
  well_formed w →
  order w !! auto_id env = None →
  let r := OrdersService.createOrder env dto w in
  r.1 = Return (auto_id env)
  ∧ ∃ o, (OrdersService.findOneOrder (auto_id env) r.2).1
         = Return (Some (o, map (Prisma.new_item (auto_id env))
                              (CreateOrderDto.items dto)))
         ∧ Order.id o = auto_id env
         ∧ Order.status o = PENDING
         ∧ Order.paid o = false
         ∧ Order.customerId o = CreateOrderDto.customerId dto
         ∧ Order.restaurantId o = CreateOrderDto.restaurantId dto
         ∧ Order.restaurantName o = CreateOrderDto.restaurantName dto.
Proof.
  intros Hw Hfresh r. subst r.
  pose proof (well_formed_no_items w (auto_id env) Hw Hfresh) as Hnone.
  unfold Prisma.items_of in Hnone.
  split.
  - run_async. by rewrite Hfresh.
  - eexists. split.
    + run_async. rewrite Hfresh.
      cbn [fst snd order orderItem orderReceipt emitted logged].
      rewrite lookup_insert_eq.
      cbn [fst snd order orderItem orderReceipt emitted logged].
      unfold Prisma.items_of.
      cbn [fst snd order orderItem orderReceipt emitted logged
           Order.id Prisma.new_order].
      rewrite filter_app, Hnone, items_of_new_same. reflexivity.
    + by cbn.
Qed.

Lemma createOrder_findOneOrder_witness :
  well_formed initial
  ∧ order initial !! auto_id sample_env = None
  ∧ (OrdersService.findOneOrder sample_id
       (OrdersService.createOrder sample_env (sample_dto false) initial).2).1
    = Return (Some (sample_order PENDING "" "",
                    [OrderItemRow.mk "d-1" "pizza" 2 (Number.of_Z 10)
                       sample_id;
                     OrderItemRow.mk "d-2" "cola" 1 (Number.of_Z 5)
                       sample_id])).
Proof.
  split; [exact initial_well_formed |]. split; [reflexivity |].
  destruct (createOrder_findOneOrder sample_env (sample_dto false) initial
              initial_well_formed eq_refl) as (_ & o & Hfind & _).
  reflexivity.
Defined.

Lemma paidOrder_missing (env : Env) (dto : PaidOrderDto.t) (w : World) :
  order w !! PaidOrderDto.orderId dto = None →
  order (OrdersService.paidOrder env dto w).2 = order w
  ∧ orderReceipt (OrdersService.paidOrder env dto w).2 = orderReceipt w.
Proof.
  intros Hnone. run_async. rewrite Hnone.
  cbn [fst snd order orderItem orderReceipt emitted logged].
  by rewrite Hnone.
Qed.

Lemma well_formed_no_receipts (w : World) (id : string) :
  well_formed w → order w !! id = None → Prisma.receipts_of w id = [].
Proof.
  intros (_ & _ & Hreceipts) Hnone. unfold Prisma.receipts_of.
  destruct (filter _ _) as [| r rest] eqn:Hfilter; [done |].
  assert (Hr : r ∈ filter (λ r, OrderReceipt.orderId r = id) (orderReceipt w))
    by (rewrite Hfilter; left).
  apply list_elem_of_filter in Hr as [Hid Hin].
  destruct (Hreceipts r Hin) as [o Ho]. congruence.
Qed.

Lemma payment_recorded_frame (w w' : World) (k : string) (o o' : Order.t) :
  payment_recorded w →
  order w !! k = Some o →
  Order.paid o' = Order.paid o →
  Order.stripeChargeId o' = Order.stripeChargeId o →
  Prisma.receipts_of w' k = Prisma.receipts_of w k →
  if Order.paid o'
  then is_Some (Order.stripeChargeId o')
       ∧ length (Prisma.receipts_of w' k) = 1%nat
  else Order.stripeChargeId o' = None ∧ Prisma.receipts_of w' k = [].
Proof.
  intros Hrec Ho Hpaid Hcharge Hreceipts. specialize (Hrec k o Ho).
  by rewrite Hpaid, Hcharge, Hreceipts.
Qed.

Lemma handle_payment_recorded (env : Env) (m : OrdersController.Message)
    (w : World) :
  well_formed w → payment_recorded w →
  payment_recorded (OrdersController.handle env m w).
Proof.
  intros Hw Hrec k o' Ho'.
  assert (Hcase : (∃ dto, m = OrdersController.payment_succeeded dto)
                  ∨ ¬ (∃ dto, m = OrdersController.payment_succeeded dto)).
  { destruct m; try (right; intros [? ?]; discriminate). left. by eexists. }
  destruct Hcase as [[dto ->] | Hother].
  - cbn [OrdersController.handle] in *.
    destruct (order w !! PaidOrderDto.orderId dto) as [o |] eqn:Ho.
    + destruct (Prisma.receipts_of w (PaidOrderDto.orderId dto))
        as [| r0 rest] eqn:Hr.
      * destruct (paidOrder_first env dto w o Ho Hr) as (_ & Horder & Hadd).
        rewrite Horder in Ho'.
        destruct (decide (PaidOrderDto.orderId dto = k)) as [<- | Hne].
        -- rewrite lookup_insert_eq in Ho'. injection Ho' as <-.
           cbn [Order.paid Order.set_stripeChargeId Order.set_paid
                Order.stripeChargeId]. split; [by eexists |].
           unfold Prisma.receipts_of. rewrite Hadd, receipts_of_app, Hr.
           cbn [OrderReceipt.orderId]. by destruct (decide _).
        -- rewrite lookup_insert_ne in Ho' by done.
           apply (payment_recorded_frame w _ k o' o' Hrec Ho'); try done.
           unfold Prisma.receipts_of at 1. rewrite Hadd, receipts_of_app.
           cbn [OrderReceipt.orderId].
           destruct (decide _); [done | by rewrite app_nil_r].
      * destruct (paidOrder_again env dto w o Ho) as (_ & Horder & Hsame & _).
        { by rewrite Hr. }
        rewrite Horder in Ho'.
        apply (payment_recorded_frame w _ k o' o' Hrec Ho'); try done.
        unfold Prisma.receipts_of. by rewrite Hsame.
    + destruct (paidOrder_missing env dto w Ho) as (Horder & Hsame).
      rewrite Horder in Ho'.
      apply (payment_recorded_frame w _ k o' o' Hrec Ho'); try done.
      unfold Prisma.receipts_of. by rewrite Hsame.
  - assert (Hsame : orderReceipt (OrdersController.handle env m w)
                    = orderReceipt w).
    { destruct (handle_orderReceipt env m w) as [H | (dto & o & -> & _)];
        [done |]. exfalso. apply Hother. by eexists. }
    assert (Hreceipts : Prisma.receipts_of (OrdersController.handle env m w) k
                        = Prisma.receipts_of w k).
    { unfold Prisma.receipts_of. by rewrite Hsame. }
    pose proof (handle_order_step env m w k) as Hstep.
    rewrite Ho' in Hstep. inversion Hstep; subst.
    + apply (payment_recorded_frame w _ k o' o' Hrec); done.
    + cbn [Order.paid Prisma.new_order Order.stripeChargeId].
      split; [done |]. rewrite Hreceipts.
      by apply well_formed_no_receipts.
    + eapply (payment_recorded_frame w _ k o); eauto.
    + exfalso. apply Hother. by eexists.
    + eapply (payment_recorded_frame w _ k o); eauto.
Qed.

Lemma run_payment_recorded (history : list (Env * OrdersController.Message))
    (w : World) :
  well_formed w → payment_recorded w →
  payment_recorded (OrdersController.run history w).
Proof.
  revert w. induction history as [| [env m] rest IH]; intros w Hw Hrec;
    [done |].
  apply IH; [by apply handle_well_formed | by apply handle_payment_recorded].
Qed.

(** X17. Payment is recorded in three places at once. After any history of
    messages, a stored order is paid exactly when it has a charge
    reference, and exactly when it has a receipt, of which it then has
    one. *)
Theorem reachable_payment_recorded
    (history : list (Env * OrdersController.Message)) (k : string)
    (o : Order.t) :
  let w := OrdersController.run history initial in
  order w !! k = Some o →
  (Order.paid o = true ↔ is_Some (Order.stripeChargeId o))
  ∧ (Order.paid o = true ↔ length (Prisma.receipts_of w k) = 1%nat)
  ∧ (Order.paid o = false ↔ Prisma.receipts_of w k = []).
Proof.
  intros w Ho.
  assert (Hrec : payment_recorded w).
  { apply run_payment_recorded; [apply initial_well_formed |].
    intros k' o' Ho'. cbn in Ho'. by rewrite lookup_empty in Ho'. }
  specialize (Hrec k o Ho). destruct (Order.paid o).
  - destruct Hrec as [Hcharge Hone]. repeat split; try done.
    intros Hnil. rewrite Hnil in Hone. discriminate Hone.
  - destruct Hrec as [Hcharge Hnil]. rewrite Hcharge, Hnil.
    repeat split; try done; by intros [c Hc].
Qed.

Lemma reachable_payment_recorded_witness :
  ∃ o, order (OrdersController.run
                [(sample_env, OrdersController.createOrder (sample_dto false));
                 (sample_env,
                  OrdersController.payment_succeeded (sample_paid "ch_1"));
                 (sample_env,
                  OrdersController.payment_succeeded (sample_paid "ch_2"))]
                initial) !! sample_id = Some o
       ∧ Order.paid o = true
       ∧ is_Some (Order.stripeChargeId o).
Proof.
  eexists. split; [reflexivity |]. split; [reflexivity |].
  apply (reachable_payment_recorded
           [(sample_env, OrdersController.createOrder (sample_dto false));
            (sample_env,
             OrdersController.payment_succeeded (sample_paid "ch_1"));
            (sample_env,
             OrdersController.payment_succeeded (sample_paid "ch_2"))]
           sample_id _ eq_refl).
  reflexivity.
Defined.

(** X18. Every stored PIN is well formed: after any history of messages in
    which the random numbers are doubles in [0, 1), the [pin_code] of a
    stored order is either the empty string of the schema or four
    digits. *)
Theorem reachable_pin_code_format
    (history : list (Env * OrdersController.Message)) (id : string)
    (o : Order.t) :
  randoms_in_range history →
  order (OrdersController.run history initial) !! id = Some o →
  Order.pin_code o = "" ∨ matches_4_digits (Order.pin_code o) = true.
Proof.
  revert o. induction history as [| [env m] history IH] using rev_ind;
    intros o Hrange Ho; [done |].
  rewrite run_snoc in Ho.
  assert (Hbefore : randoms_in_range history).
  { intros env' m' Hin. apply (Hrange env' m'). apply elem_of_app. by left. }
  assert (Henv : Binary64.nonneg_finite (random env) ∧ (random env < 1)%Q).
  { apply (Hrange env m). apply elem_of_app. right.
    by apply list_elem_of_singleton. }
  pose proof (handle_order_step env m
                (OrdersController.run history initial) id) as Hstep.
  rewrite Ho in Hstep. inversion Hstep; subst;
    try (left; reflexivity);
    try match goal with
        | H : Some ?o' = order _ !! _ |- _ =>
            symmetry in H; exact (IH _ Hbefore H)
        end.
  - by apply IH.
  - right. cbn [Order.pin_code Order.set_pin_code].
    destruct Henv as [Hfinite Hlt]. by apply generatePin_matches.
Qed.

Lemma reachable_pin_code_format_witness :
  randoms_in_range
    [(sample_env, OrdersController.createOrder (sample_dto false));
     (sample_env, OrdersController.courierAssigned sample_id "k-1")]
  ∧ order (OrdersController.run
             [(sample_env, OrdersController.createOrder (sample_dto false));
              (sample_env, OrdersController.courierAssigned sample_id "k-1")]
             initial) !! sample_id
    = Some (sample_order PENDING "5500" "k-1")
  ∧ ("5500" = "" ∨ matches_4_digits "5500" = true).
Proof.
  assert (Hfinite : Binary64.nonneg_finite (random sample_env)).
  { exists (2 ^ 52)%Z, 1021%Z. split; [lia |]. split; [lia |].
    by vm_compute. }
  assert (Hrange : randoms_in_range
            [(sample_env, OrdersController.createOrder (sample_dto false));
             (sample_env, OrdersController.courierAssigned sample_id "k-1")]).
  { intros env m Hin.
    apply elem_of_cons in Hin as [Hin | Hin];
      [injection Hin as -> _; by split |].
    apply elem_of_cons in Hin as [Hin | Hin];
      [injection Hin as -> _; by split |].
    by apply elem_of_nil in Hin. }
  split; [exact Hrange |]. split; [by vm_compute |].
  exact (reachable_pin_code_format _ sample_id
           (sample_order PENDING "5500" "k-1") Hrange
           ltac:(by vm_compute)).
Defined.

(** X19. Events are only ever added, at most two per message, and two only
    for a status update to [READY_FOR_DELIVERY]. *)
Theorem handle_emits_at_most_two (env : Env) (m : OrdersController.Message)
    (w : World) :
  ∃ events,
    emitted (OrdersController.handle env m w) = (emitted w ++ events)%list
    ∧ (length events ≤ 2)%nat
    ∧ (length events = 2%nat →
       ∃ orderId,
         m = OrdersController.updateOrderStatus orderId READY_FOR_DELIVERY).
Proof.
  handle_cases m;
    try (exists []; rewrite app_nil_r; repeat split; cbn; (lia || done));
    try (rewrite <- ?app_assoc; eexists; split; [reflexivity |];
         cbn; split; [lia |]; intros; (lia || by eexists)).
  cbn [Order.status Order.set_status] in *. subst.
  rewrite <- app_assoc. eexists. split; [reflexivity |].
  cbn. split; [lia |]. intros _. by eexists.
Qed.

(** X20. An order gets into [PREPARING], [READY_FOR_DELIVERY] or
    [OUT_FOR_DELIVERY] through the table only: if a message leaves a
    stored order in one of these statuses, either the order was in it
    already or the message was a status update to it along an allowed
    edge. (An order that is created starts in [PENDING].) *)
Theorem kitchen_statuses_by_the_table (env : Env)
    (m : OrdersController.Message) (w : World) (id : string) (o' : Order.t) :
  order (OrdersController.handle env m w) !! id = Some o' →
  in_the_kitchen (Order.status o') →
  ∃ o, order w !! id = Some o
       ∧ (Order.status o' = Order.status o
          ∨ (m = OrdersController.updateOrderStatus id (Order.status o')
             ∧ allowed (Order.status o) (Order.status o') = true)).
Proof.
  intros Ho' Hkitchen. unfold allowed.
  handle_cases m;
    try (exists o'; split; [done | by left]);
    match type of Ho' with
    | <[?k := _]> _ !! _ = _ =>
        destruct (decide (k = id)) as [Heq | Hne];
        [rewrite Heq in *; rewrite lookup_insert_eq in Ho';
         injection Ho' as <-
        | rewrite lookup_insert_ne in Ho' by done;
          exists o'; split; [done | by left]]
    end;
    cbn [Order.status Order.set_status Order.set_pin_code
         Order.set_courierId Order.set_stripeChargeId Order.set_paid
         Prisma.new_order] in *;
    try (destruct Hkitchen as [? | [? | ?]]; discriminate);
    try (eexists; split; [eassumption | by left]).
  all: eexists; (split; [eassumption |]); right; (split; [done |]);
    match goal with
    | H : OrdersService.property _ _ = Some _ |- _ => rewrite H
    end;
    by destruct (OrdersService.includes _ _).
Qed.

Lemma kitchen_statuses_by_the_table_witness :
  order (OrdersController.handle sample_env
           (OrdersController.updateOrderStatus sample_id READY_FOR_DELIVERY)
           (world_of (sample_order PREPARING "" ""))) !! sample_id
  = Some (sample_order READY_FOR_DELIVERY "" "")
  ∧ in_the_kitchen READY_FOR_DELIVERY
  ∧ ∃ o, order (world_of (sample_order PREPARING "" "")) !! sample_id
         = Some o
         ∧ (READY_FOR_DELIVERY = Order.status o
            ∨ (OrdersController.updateOrderStatus sample_id READY_FOR_DELIVERY
               = OrdersController.updateOrderStatus sample_id
                   READY_FOR_DELIVERY
               ∧ allowed (Order.status o) READY_FOR_DELIVERY = true)).
Proof.
  assert (Hkitchen : in_the_kitchen READY_FOR_DELIVERY)
    by (right; left; reflexivity).
  split; [reflexivity |]. split; [exact Hkitchen |].
  exact (kitchen_statuses_by_the_table sample_env
           (OrdersController.updateOrderStatus sample_id READY_FOR_DELIVERY)
           (world_of (sample_order PREPARING "" "")) sample_id
           (sample_order READY_FOR_DELIVERY "" "") eq_refl Hkitchen).
Defined.

(** ** The listings *)

Lemma elem_of_order_scan (w : World) (o : Order.t) :
  o ∈ Prisma.order_scan w ↔ ∃ k, order w !! k = Some o.
Proof.
  unfold Prisma.order_scan. rewrite list_elem_of_fmap. split.
  - intros ([k o'] & -> & Hin). exists k. by apply elem_of_map_to_list.
  - intros (k & Hk). exists (k, o). split; [done |].
    by apply elem_of_map_to_list.
Qed.

Lemma elem_of_List_filter {A : Type} (f : A → bool) (l : list A) (x : A) :
  x ∈ List.filter f l ↔ f x = true ∧ x ∈ l.
Proof.
  rewrite !list_elem_of_In, filter_In. tauto.
Qed.

Lemma order_findMany_found (wh : Prisma.OrderWhereInput) (sorted : bool)
    (skip : nat) (take_ : option nat) (w : World) :
  Prisma.order_findMany wh sorted skip take_ w
  = (Return (match take_ with
             | Some n => take n (drop skip (found wh sorted w))
             | None => drop skip (found wh sorted w)
             end), w).
Proof. reflexivity. Qed.

Lemma elem_of_found (wh : Prisma.OrderWhereInput) (sorted : bool) (w : World)
    (o : Order.t) :
  o ∈ found wh sorted w
  ↔ Prisma.matches wh o = true ∧ ∃ k, order w !! k = Some o.
Proof.
  unfold found. destruct sorted.
  - rewrite merge_sort_Permutation, elem_of_List_filter, elem_of_order_scan.
    done.
  - by rewrite elem_of_List_filter, elem_of_order_scan.
Qed.

Lemma length_found (wh : Prisma.OrderWhereInput) (sorted : bool) (w : World) :
  length (found wh sorted w)
  = length (List.filter (Prisma.matches wh) (Prisma.order_scan w)).
Proof.
  unfold found. destruct sorted; [| done].
  by rewrite merge_sort_Permutation.
Qed.

Lemma elem_of_page {A : Type} (skip n : nat) (l : list A) (x : A) :
  x ∈ take n (drop skip l) → x ∈ l.
Proof. intros Hx. by apply (subseteq_drop skip), (subseteq_take n). Qed.

(** The [where] of [findRestaurantOrders] lets through the orders of the
    restaurant whose status the listing shows. *)
Lemma matches_baseWhere (restaurantId : string) (type : ListingType)
    (o : Order.t) :
  Prisma.matches
    (Prisma.mkWhere None (Some restaurantId) None None
       (Some (match type with
              | pending =>
                  Prisma.status_notIn
                    [OUT_FOR_DELIVERY; DELIVERED; CANCELLED; FAILED; PENDING]
              | completed =>
                  Prisma.status_in
                    [OUT_FOR_DELIVERY; DELIVERED; CANCELLED; FAILED]
              end))) o = true
  ↔ Order.restaurantId o = restaurantId ∧ Order.status o ∈ listed type.
Proof.
  unfold Prisma.matches, Prisma.field_matches.
  cbn [Prisma.where_id_in Prisma.where_restaurantId Prisma.where_customerId
       Prisma.where_courierId Prisma.where_status andb].
  rewrite !andb_true_r, andb_true_iff, bool_decide_eq_true.
  apply and_iff_compat_l.
  destruct type, (Order.status o); cbn; split; intros H;
    first [ reflexivity
          | discriminate
          | by apply (bool_decide_eq_true_1 (_ ∈ _))
          | exfalso; revert H; by apply (bool_decide_eq_false_1 (_ ∈ _)) ].
Qed.

Lemma length_List_filter {A : Type} (f : A → bool) (P : A → Prop)
    `{∀ x, Decision (P x)} (l : list A) :
  (∀ x, f x = true ↔ P x) →
  length (List.filter f l) = length (filter P l).
Proof.
  intros Hf. induction l as [| x l IH]; [done |].
  cbn [List.filter]. rewrite filter_cons.
  destruct (f x) eqn:Hx, (decide (P x)) as [HP | HP]; cbn [length];
    try (by rewrite IH).
  - exfalso. by apply HP, Hf.
  - apply Hf in HP. congruence.
Qed.

(** [Math.ceil(total / limit)] is the least number of pages of [limit]
    that hold [total] records; it is 0 when there is none. *)
Lemma lastPage_of_bounds (total : nat) (limit : positive) :
  (Z.of_nat total ≤ OrdersService.lastPage_of total limit * Z.pos limit)%Z
  ∧ ((OrdersService.lastPage_of total limit - 1) * Z.pos limit
     < Z.of_nat total)%Z.
Proof.
  unfold OrdersService.lastPage_of, Math_ceil.
  set (x := (inject_Z (Z.of_nat total) / inject_Z (Z.pos limit))%Q).
  assert (Hpos : (0 < inject_Z (Z.pos limit))%Q) by reflexivity.
  assert (Hx : (x * inject_Z (Z.pos limit) == inject_Z (Z.of_nat total))%Q).
  { unfold x. field. intros H0. rewrite H0 in Hpos. discriminate Hpos. }
  split.
  - rewrite Zle_Qle, inject_Z_mult, <- Hx.
    apply Qmult_le_compat_r; [apply Qle_ceiling | by apply Qlt_le_weak].
  - rewrite Zlt_Qlt, inject_Z_mult, <- Hx.
    apply Qmult_lt_compat_r; [done | apply Qceiling_lt].
Qed.

Lemma lastPage_of_nonneg (total : nat) (limit : positive) :
  (0 ≤ OrdersService.lastPage_of total limit)%Z.
Proof.
  destruct (lastPage_of_bounds total limit) as [Hle _]. nia.
Qed.

(** X21. Without a search string, [findRestaurantOrders] changes nothing
    and returns at most [limit] orders, each stored, of the restaurant
    asked for, with its items, and in a status of the listing: [CONFIRMED],
    [PREPARING] or [READY_FOR_DELIVERY] for ['pending'], [OUT_FOR_DELIVERY],
    [DELIVERED], [CANCELLED] or [FAILED] for ['completed']. An order in
    status [PENDING] is in neither listing. [total] counts the stored
    orders of the restaurant in those statuses. *)
Theorem findRestaurantOrders_lists (restaurantId : string)
    (dto : PaginationDto.t) (type : ListingType) (w : World) :
  PaginationDto.search dto = "" →
  ∃ page,
    OrdersService.findRestaurantOrders restaurantId dto type w
    = (Return page, w)
    ∧ Paginated.total page
      = length (filter (λ o, Order.restaurantId o = restaurantId
                             ∧ Order.status o ∈ listed type)
                  (Prisma.order_scan w))
    ∧ Paginated.lastPage page
      = OrdersService.lastPage_of (Paginated.total page)
          (PaginationDto.limit dto)
    ∧ (length (Paginated.data page) ≤ Pos.to_nat (PaginationDto.limit dto))%nat
    ∧ ∀ o items,
        (o, items) ∈ Paginated.data page →
        (∃ k, order w !! k = Some o)
        ∧ Order.restaurantId o = restaurantId
        ∧ Order.status o ∈ listed type
        ∧ Order.status o ≠ PENDING
        ∧ items = map Prisma.select_item (Prisma.items_of w (Order.id o)).
Proof.
  intros Hsearch. unfold OrdersService.findRestaurantOrders.
  rewrite Hsearch. cbn [String.eqb negb].
  unfold OrdersService.findMany_with_items, Prisma.order_count, mbind, mret,
    Async_bind, Async_ret.
  rewrite order_findMany_found. eexists. split; [reflexivity |].
  cbn [Paginated.total Paginated.lastPage Paginated.data].
  split; [| split; [reflexivity |]; split].
  - apply length_List_filter. intros o. apply matches_baseWhere.
  - rewrite length_map, length_take. lia.
  - intros o items Hin.
    apply list_elem_of_fmap in Hin as (o' & [= -> ->] & Hin).
    apply elem_of_page, elem_of_found in Hin as [Hmatch Hstored].
    apply matches_baseWhere in Hmatch as [Hrestaurant Hstatus].
    repeat split; try done.
    intros Hpending. rewrite Hpending in Hstatus.
    revert Hstatus. apply (bool_decide_eq_false_1 (_ ∈ _)).
    by destruct type.
Qed.

Lemma findRestaurantOrders_lists_witness :
  PaginationDto.search (PaginationDto.mk 1 2 "") = ""
  ∧ ∃ page,
      OrdersService.findRestaurantOrders "r-1" (PaginationDto.mk 1 2 "")
        pending listing_world
      = (Return page, listing_world)
      ∧ Paginated.total page = 3%nat
      ∧ Paginated.lastPage page = 2%Z
      ∧ map (λ x, Order.status x.1) (Paginated.data page)
        = [READY_FOR_DELIVERY; PREPARING].
Proof.
  split; [reflexivity |].
  destruct (findRestaurantOrders_lists "r-1" (PaginationDto.mk 1 2 "")
              pending listing_world eq_refl) as (page & Hrun & _).
  exists page. split; [exact Hrun |].
  vm_compute in Hrun. injection Hrun as <-. by vm_compute.
Defined.

Lemma eqb_empty_false (search : string) :
  search ≠ "" → negb (String.eqb search "") = true.
Proof.
  intros Hne. destruct (String.eqb search "") eqn:E; [| done].
  by apply String.eqb_eq in E.
Qed.

(** [findRestaurantOrders] with a search string, in terms of the orders
    that match it. *)
Lemma findRestaurantOrders_search (restaurantId : string)
    (dto : PaginationDto.t) (type : ListingType) (w : World) :
  PaginationDto.search dto ≠ "" →
  let matching :=
    search_matches restaurantId (PaginationDto.search dto) type w in
  let matchingIds :=
    map Order.id
      (Array_slice
         ((Pos.to_nat (PaginationDto.page dto) - 1)
          * Pos.to_nat (PaginationDto.limit dto))
         (Pos.to_nat (PaginationDto.page dto)
          * Pos.to_nat (PaginationDto.limit dto)) matching) in
  OrdersService.findRestaurantOrders restaurantId dto type w
  = (Return
       (if (length matchingIds =? 0)%nat
        then Paginated.mk [] 0%nat (PaginationDto.page dto) 1
        else
          Paginated.mk
            (map (λ o, (o, map Prisma.select_item
                             (Prisma.items_of w (Order.id o))))
               (found (Prisma.mkWhere (Some matchingIds) None None None None)
                  true w))
            (length matching) (PaginationDto.page dto)
            (OrdersService.lastPage_of (length matching)
               (PaginationDto.limit dto))), w).
Proof.
  intros Hsearch matching matchingIds.
  unfold OrdersService.findRestaurantOrders.
  rewrite (eqb_empty_false _ Hsearch).
  unfold OrdersService.findMany_with_items, mbind, mret, Async_bind,
    Async_ret.
  rewrite order_findMany_found. rewrite drop_0.
  fold (ordersWithSearch restaurantId type w).
  fold (search_matches restaurantId (PaginationDto.search dto) type w).
  fold matching. fold matchingIds.
  destruct (length matchingIds =? 0)%nat; [done |].
  rewrite order_findMany_found. by rewrite drop_0.
Qed.

(** X22. With a search string, a page that lies past the orders that match
    comes back as [{ data: [], total: 0, lastPage: 1 }], however many
    orders match (the listing without search keeps the true [total] on
    such a page, and gives [lastPage] 0 when nothing matches). *)
Theorem findRestaurantOrders_search_past_the_end (restaurantId : string)
    (dto : PaginationDto.t) (type : ListingType) (w : World) :
  PaginationDto.search dto ≠ "" →
  (length (search_matches restaurantId (PaginationDto.search dto) type w)
   ≤ (Pos.to_nat (PaginationDto.page dto) - 1)
     * Pos.to_nat (PaginationDto.limit dto))%nat →
  OrdersService.findRestaurantOrders restaurantId dto type w
  = (Return (Paginated.mk [] 0%nat (PaginationDto.page dto) 1), w).
Proof.
  intros Hsearch Hpast.
  rewrite (findRestaurantOrders_search restaurantId dto type w Hsearch).
  unfold Array_slice. rewrite drop_ge by done. by rewrite take_nil.
Qed.

Lemma findRestaurantOrders_search_past_the_end_witness :
  PaginationDto.search (PaginationDto.mk 3 1 "3a") ≠ ""
  ∧ length (search_matches "r-1" "3a" pending listing_world) = 2%nat
  ∧ OrdersService.findRestaurantOrders "r-1" (PaginationDto.mk 3 1 "3a")
      pending listing_world
    = (Return (Paginated.mk [] 0%nat 3%positive 1), listing_world).
Proof.
  assert (Hsearch : PaginationDto.search (PaginationDto.mk 3 1 "3a") ≠ "")
    by discriminate.
  split; [exact Hsearch |]. split; [by vm_compute |].
  apply (findRestaurantOrders_search_past_the_end "r-1"
           (PaginationDto.mk 3 1 "3a") pending listing_world Hsearch).
  by vm_compute.
Defined.

Lemma matches_id_in (ids : list string) (o : Order.t) :
  Prisma.matches (Prisma.mkWhere (Some ids) None None None None) o = true
  ↔ Order.id o ∈ ids.
Proof.
  unfold Prisma.matches, Prisma.field_matches.
  cbn [Prisma.where_id_in Prisma.where_restaurantId Prisma.where_customerId
       Prisma.where_courierId Prisma.where_status].
  by rewrite !andb_true_r, bool_decide_eq_true.
Qed.

Lemma elem_of_ordersWithSearch (restaurantId : string) (type : ListingType)
    (w : World) (o : Order.t) :
  o ∈ ordersWithSearch restaurantId type w →
  (∃ k, order w !! k = Some o)
  ∧ Order.restaurantId o = restaurantId
  ∧ Order.status o ∈ listed type.
Proof.
  intros Hin. apply (subseteq_take 1000), elem_of_found in Hin
    as [Hmatch Hstored].
  apply matches_baseWhere in Hmatch. tauto.
Qed.

Lemma length_List_filter_le {A : Type} (f : A → bool) (l : list A) :
  (length (List.filter f l) ≤ length l)%nat.
Proof.
  induction l as [| x l IH]; [done |]. cbn [List.filter].
  destruct (f x); cbn [length]; lia.
Qed.

(** X23. With a search string, in a well-formed world,
    [findRestaurantOrders] changes nothing and returns only orders that
    are stored, belong to the restaurant and to the listing, and whose id
    contains the search string, each with its items; [total] never
    exceeds 1000, the number of orders the search looks at. *)
Theorem findRestaurantOrders_search_results (restaurantId : string)
    (dto : PaginationDto.t) (type : ListingType) (w : World) :
  well_formed w →
  PaginationDto.search dto ≠ "" →
  ∃ page,
    OrdersService.findRestaurantOrders restaurantId dto type w
    = (Return page, w)
    ∧ (Paginated.total page ≤ 1000)%nat
    ∧ ∀ o items,
        (o, items) ∈ Paginated.data page →
        order w !! Order.id o = Some o
        ∧ Order.restaurantId o = restaurantId
        ∧ Order.status o ∈ listed type
        ∧ String_includes (Order.id o) (PaginationDto.search dto) = true
        ∧ items = map Prisma.select_item (Prisma.items_of w (Order.id o)).
Proof.
  intros (Hkey & _) Hsearch.
  rewrite (findRestaurantOrders_search restaurantId dto type w Hsearch).
  eexists. split; [reflexivity |].
  destruct (length _ =? 0)%nat;
    cbn [Paginated.total Paginated.data].
  { split; [lia |]. intros o items Hin. by apply elem_of_nil in Hin. }
  split.
  - unfold search_matches, ordersWithSearch.
    etransitivity; [apply length_List_filter_le |].
    rewrite length_take. lia.
  - intros o items Hin.
    apply list_elem_of_fmap in Hin as (o' & [= -> ->] & Hin).
    apply elem_of_found in Hin as [Hmatch (k & Hstored)].
    apply matches_id_in, list_elem_of_fmap in Hmatch as (o2 & Hid & Hin2).
    unfold Array_slice in Hin2. apply elem_of_page in Hin2.
    unfold search_matches in Hin2.
    apply elem_of_List_filter in Hin2 as [Hincludes Hin2].
    apply elem_of_ordersWithSearch in Hin2
      as ((k2 & Hstored2) & Hrestaurant & Hstatus).
    pose proof (Hkey _ _ Hstored) as Hk.
    pose proof (Hkey _ _ Hstored2) as Hk2.
    assert (o' = o2) as -> by congruence.
    repeat split; try done. by rewrite Hk2.
Qed.

Lemma findRestaurantOrders_search_results_witness :
  well_formed (world_of (sample_order CONFIRMED "" ""))
  ∧ PaginationDto.search (PaginationDto.mk 1 7 "c0a2") ≠ ""
  ∧ ∃ page,
      OrdersService.findRestaurantOrders "r-1" (PaginationDto.mk 1 7 "c0a2")
        pending (world_of (sample_order CONFIRMED "" ""))
      = (Return page, world_of (sample_order CONFIRMED "" ""))
      ∧ Paginated.data page = [(sample_order CONFIRMED "" "", [])].
Proof.
  assert (Hw : well_formed (world_of (sample_order CONFIRMED "" ""))).
  { split; [| split].
    - intros k o Ho. cbn in Ho.
      apply lookup_singleton_Some in Ho as [<- <-]. reflexivity.
    - intros r Hr. by apply elem_of_nil in Hr.
    - intros r Hr. by apply elem_of_nil in Hr. }
  assert (Hsearch : PaginationDto.search (PaginationDto.mk 1 7 "c0a2") ≠ "")
    by discriminate.
  split; [exact Hw |]. split; [exact Hsearch |].
  destruct (findRestaurantOrders_search_results "r-1"
              (PaginationDto.mk 1 7 "c0a2") pending
              (world_of (sample_order CONFIRMED "" "")) Hw Hsearch)
    as (page & Hrun & _).
  exists page. split; [exact Hrun |].
  vm_compute in Hrun. injection Hrun as <-. reflexivity.
Defined.

(** ** Paging *)

Lemma concat_pages {A : Type} (limit pages : nat) (l : list A) :
  concat (map (λ i, take limit (drop (i * limit) l)) (seq 0 pages))
  = take (pages * limit) l.
Proof.
  induction pages as [| n IH]; [done |].
  rewrite seq_S, map_app, concat_app, IH. cbn [map concat Nat.add].
  rewrite app_nil_r, take_take_drop. f_equal. lia.
Qed.

Lemma map_pages_up_to {B : Type} (f : nat → B) (lastPage : Z) :
  map (λ p, f (Pos.to_nat p - 1)%nat) (pages_up_to lastPage)
  = map f (seq 0 (Z.to_nat lastPage)).
Proof.
  unfold pages_up_to. rewrite map_map, <- seq_shift, map_map.
  apply map_ext. intros i. f_equal.
  rewrite Nat2Pos.id by lia. lia.
Qed.

Lemma List_filter_filter {A : Type} (f : A → bool) (P : A → Prop)
    `{∀ x, Decision (P x)} (l : list A) :
  (∀ x, f x = true ↔ P x) → List.filter f l = filter P l.
Proof.
  intros Hf. induction l as [| x l IH]; [done |].
  cbn [List.filter]. rewrite filter_cons.
  destruct (f x) eqn:Hx, (decide (P x)) as [HP | HP];
    try (by rewrite IH).
  - exfalso. by apply HP, Hf.
  - apply Hf in HP. congruence.
Qed.

Lemma matches_customer (customerId : string) (o : Order.t) :
  Prisma.matches (Prisma.mkWhere None None (Some customerId) None None) o
  = true
  ↔ Order.customerId o = customerId.
Proof.
  unfold Prisma.matches, Prisma.field_matches.
  cbn [Prisma.where_id_in Prisma.where_restaurantId Prisma.where_customerId
       Prisma.where_courierId Prisma.where_status andb].
  by rewrite !andb_true_r, bool_decide_eq_true.
Qed.

(** One page of [findAllCustomerOrders]. *)
Lemma findAllCustomerOrders_page (customerId : string)
    (dto : PaginationDto.t) (w : World) :
  let all :=
    found (Prisma.mkWhere None None (Some customerId) None None) true w in
  OrdersService.findAllCustomerOrders customerId dto w
  = (Return
       (Paginated.mk
          (take (Pos.to_nat (PaginationDto.limit dto))
             (drop ((Pos.to_nat (PaginationDto.page dto) - 1)
                    * Pos.to_nat (PaginationDto.limit dto)) all))
          (length all) (PaginationDto.page dto)
          (OrdersService.lastPage_of (length all) (PaginationDto.limit dto))),
     w).
Proof.
  intros all. unfold OrdersService.findAllCustomerOrders, Prisma.order_count,
    mbind, mret, Async_bind, Async_ret.
  rewrite order_findMany_found. fold all. by rewrite <- length_found with (sorted := true).
Qed.

(** X24. Paging through [findAllCustomerOrders] loses nothing and repeats
    nothing: the pages 1 to [lastPage], put one after the other, are the
    stored orders of the customer, each as often as it is stored, newest
    first; every page holds at most [limit] orders, and a page after
    [lastPage] is empty. *)
Theorem findAllCustomerOrders_pages (customerId : string) (limit : positive)
    (w : World) :
  all_customer_orders customerId limit w
  ≡ₚ filter (λ o, Order.customerId o = customerId) (Prisma.order_scan w)
  ∧ StronglySorted Prisma.newer_first
      (all_customer_orders customerId limit w)
  ∧ ∀ p : positive,
      (length (data_of (OrdersService.findAllCustomerOrders customerId
                          (PaginationDto.mk p limit "") w))
       ≤ Pos.to_nat limit)%nat
      ∧ ((OrdersService.lastPage_of
            (length (filter (λ o, Order.customerId o = customerId)
                       (Prisma.order_scan w))) limit < Z.pos p)%Z →
         data_of (OrdersService.findAllCustomerOrders customerId
                    (PaginationDto.mk p limit "") w) = []).
Proof.
  set (all := found (Prisma.mkWhere None None (Some customerId) None None)
                true w).
  assert (Hall : all ≡ₚ filter (λ o, Order.customerId o = customerId)
                          (Prisma.order_scan w)).
  { unfold all, found. rewrite merge_sort_Permutation.
    by rewrite (List_filter_filter _ (λ o, Order.customerId o = customerId))
      by apply matches_customer. }
  assert (Hcollect : all_customer_orders customerId limit w = all).
  { unfold all_customer_orders.
    rewrite findAllCustomerOrders_page.
    cbn [fst Paginated.lastPage PaginationDto.limit PaginationDto.page].
    fold all.
    erewrite map_ext; last first.
    { intros p. unfold data_of. rewrite findAllCustomerOrders_page.
      cbn [fst Paginated.data PaginationDto.limit PaginationDto.page].
      fold all. reflexivity. }
    rewrite (map_pages_up_to
               (λ i, take (Pos.to_nat limit)
                       (drop (i * Pos.to_nat limit) all))).
    rewrite concat_pages. apply take_ge.
    destruct (lastPage_of_bounds (length all) limit) as [Hle _].
    pose proof (lastPage_of_nonneg (length all) limit). nia. }
  split; [by rewrite Hcollect |]. split.
  - rewrite Hcollect. unfold all, found. apply StronglySorted_merge_sort; apply _.
  - intros p. unfold data_of. rewrite findAllCustomerOrders_page.
    cbn [fst Paginated.data PaginationDto.limit PaginationDto.page].
    fold all. split; [rewrite length_take; lia |].
    rewrite <- Hall. intros Hpast. rewrite drop_ge; [by rewrite take_nil |].
    destruct (lastPage_of_bounds (length all) limit) as [Hle _].
    pose proof (lastPage_of_nonneg (length all) limit). nia.
Qed.

(** Two pages of two and of one in the sample world. *)
Example findAllCustomerOrders_sample :
  map Order.date (all_customer_orders "c-1" 2 listing_world) = [9; 7; 5]%Z
  ∧ map Order.date
      (data_of (OrdersService.findAllCustomerOrders "c-1"
                  (PaginationDto.mk 2 2 "") listing_world)) = [5%Z].
Proof. by vm_compute. Qed.

Lemma matches_ready (o : Order.t) :
  Prisma.matches
    (Prisma.mkWhere None None None None
       (Some (Prisma.status_equals READY_FOR_DELIVERY))) o = true
  ↔ Order.status o = READY_FOR_DELIVERY.
Proof.
  unfold Prisma.matches, Prisma.field_matches.
  cbn [Prisma.where_id_in Prisma.where_restaurantId Prisma.where_customerId
       Prisma.where_courierId Prisma.where_status andb
       Prisma.status_matches].
  by rewrite bool_decide_eq_true.
Qed.

(** X25. [findAllPendingOrders] lists the stored orders in status
    [READY_FOR_DELIVERY], whether or not a courier is assigned to them (the
    [courierId: undefined] of its [where] is no condition): it changes
    nothing, returns at most [limit] orders, all of them stored and ready,
    and [total] counts every stored order that is ready. *)
Theorem findAllPendingOrders_lists (dto : PaginationDto.t) (w : World) :
  ∃ page,
    OrdersService.findAllPendingOrders dto w = (Return page, w)
    ∧ Paginated.total page
      = length (filter (λ o, Order.status o = READY_FOR_DELIVERY)
                  (Prisma.order_scan w))
    ∧ Paginated.lastPage page
      = OrdersService.lastPage_of (Paginated.total page)
          (PaginationDto.limit dto)
    ∧ (length (Paginated.data page) ≤ Pos.to_nat (PaginationDto.limit dto))%nat
    ∧ ∀ o, o ∈ Paginated.data page →
           (∃ k, order w !! k = Some o)
           ∧ Order.status o = READY_FOR_DELIVERY.
Proof.
  unfold OrdersService.findAllPendingOrders, Prisma.order_count, mbind, mret,
    Async_bind, Async_ret.
  rewrite order_findMany_found. eexists. split; [reflexivity |].
  cbn [Paginated.total Paginated.lastPage Paginated.data].
  split; [| split; [reflexivity |]; split].
  - apply length_List_filter. intros o. apply matches_ready.
  - rewrite length_take. lia.
  - intros o Hin. apply elem_of_page, elem_of_found in Hin as [Hmatch Hstored].
    by apply matches_ready in Hmatch.
Qed.

(** The ready order of the sample world is listed with its courier. *)
Example findAllPendingOrders_sample :
  map (λ o, (Order.status o, Order.courierId o))
    (data_of (OrdersService.findAllPendingOrders PaginationDto.default
                listing_world))
  = [(READY_FOR_DELIVERY, "k-1")].
Proof. by vm_compute. Qed.

(** ** Delivery without a PIN *)

(** X26. The PIN is not the only way to [DELIVERED]: on a stored order in
    status [OUT_FOR_DELIVERY], [updateOrderStatus] to [DELIVERED] goes
    through whatever the [pin_code] is, and what it emits is one
    [order_status_updated], not the [order_delivered] that a verified PIN
    emits. *)
Theorem delivered_without_pin (w : World) (orderId : string) (o : Order.t) :
  order w !! orderId = Some o →
  Order.status o = OUT_FOR_DELIVERY →
  let r := OrdersService.updateOrderStatus orderId DELIVERED w in
  r.1 = Return (Order.set_status DELIVERED o, Prisma.items_of w (Order.id o))
  ∧ order r.2 !! orderId = Some (Order.set_status DELIVERED o)
  ∧ emitted r.2
    = (emitted w
       ++ [order_status_updated (Order.id o) (Order.restaurantId o)
             DELIVERED])%list.
Proof.
  intros Ho Hstatus r. subst r.
  rewrite (updateOrderStatus_stored w orderId o DELIVERED Ho), Hstatus.
  change (allowed OUT_FOR_DELIVERY DELIVERED) with true.
  destruct (decide (DELIVERED = READY_FOR_DELIVERY)); [done |].
  cbn [fst snd order emitted]. split; [done |].
  split; [by rewrite lookup_insert_eq | done].
Qed.

Lemma delivered_without_pin_witness :
  order (world_of (sample_order OUT_FOR_DELIVERY "4821" "k-1")) !! sample_id
  = Some (sample_order OUT_FOR_DELIVERY "4821" "k-1")
  ∧ Order.status (sample_order OUT_FOR_DELIVERY "4821" "k-1")
    = OUT_FOR_DELIVERY
  ∧ emitted (OrdersService.updateOrderStatus sample_id DELIVERED
               (world_of (sample_order OUT_FOR_DELIVERY "4821" "k-1"))).2
    = [order_status_updated sample_id "r-1" DELIVERED].
Proof.
  split; [reflexivity |]. split; [reflexivity |].
  exact (proj2 (proj2 (delivered_without_pin
                         (world_of (sample_order OUT_FOR_DELIVERY "4821" "k-1"))
                         sample_id
                         (sample_order OUT_FOR_DELIVERY "4821" "k-1")
                         eq_refl eq_refl))).
Defined.
